(** * Array4D and MatrixMul (array4d.h): a shallow embedding and its properties

    The C++ class template [xla::Array4D<T>] is a dense rank-4 container over
    a [std::vector<T>]; [xla::MatrixMul] multiplies the trailing two axes of
    two such containers into a third one.  The embedding keeps

    - [int64] values as [Z], signed overflow being undefined behaviour;
    - the vector as a [list T], subscripting out of range being undefined
      behaviour and an impossible allocation raising [std::length_error];
    - [CHECK_*] as fatal checks, [DCHECK_*] and [assert] as checks that are
      compiled out when [NDEBUG] is defined;
    - references to containers as addresses into a store, so that a call may
      pass the same object twice. *)

From Stdlib Require Import ZArith Lia List QArith Qabs.
From stdpp Require Import base option list numbers.

Local Open Scope Z_scope.

(** ** Failures and outcomes *)

(** The ways a call stops without returning.  The first three are the spec's
    names for the fatal checks of the source: [CHECK_EQ] on sizes and
    dimensions, [CHECK_LT] on coordinates in [operator()], [DCHECK_EQ] on the
    sub-list sizes of a nested literal.  [LengthError] is the exception of
    [std::vector] when asked for more than [max_size()] elements. *)
Inductive failure : Set :=
  | ShapeMismatch
  | IndexOutOfRange
  | RaggedShape
  | LengthError.

(** Result of an expression that reads but does not write. *)
Inductive outcome (A : Type) : Type :=
  | Ok (a : A)
  | Stop (e : failure)
  | Undefined.
Arguments Ok {A} a.
Arguments Stop {A} e.
Arguments Undefined {A}.

Global Instance outcome_ret : MRet outcome := fun A a => Ok a.
Global Instance outcome_bind : MBind outcome := fun A B f m =>
  match m with
  | Ok a => f a
  | Stop e => Stop e
  | Undefined => Undefined
  end.

(** Result of a statement run on a state [S]: a failure keeps the state the
    program had reached when it stopped. *)
Inductive run (S A : Type) : Type :=
  | Ret (a : A) (s : S)
  | Halt (e : failure) (s : S)
  | UB.
Arguments Ret {S A} a s.
Arguments Halt {S A} e s.
Arguments UB {S A}.

Definition M (S A : Type) : Type := S -> run S A.

Global Instance M_ret {S} : MRet (M S) := fun A a s => Ret a s.
Global Instance M_bind {S} : MBind (M S) := fun A B f m s =>
  match m s with
  | Ret a s' => f a s'
  | Halt e s' => Halt e s'
  | UB => UB
  end.

Definition get {S} : M S S := fun s => Ret s s.
Definition put {S} (s : S) : M S unit := fun _ => Ret tt s.

(** An expression evaluated inside a statement. *)
Definition lift {S A} (o : outcome A) : M S A := fun s =>
  match o with
  | Ok a => Ret a s
  | Stop e => Halt e s
  | Undefined => UB
  end.

(** [for (int64 k = 0; k < n; ++k) body(k)], the bound read on entry. *)
Fixpoint for_from {S} (count : nat) (k : Z) (body : Z -> M S unit) : M S unit :=
  match count with
  | O => mret tt
  | Datatypes.S c => body k ;; for_from c (k + 1) body
  end.

Definition for_ {S} (n : Z) (body : Z -> M S unit) : M S unit :=
  for_from (Z.to_nat n) 0 body.

(** [int64 k = 0; for (const auto x : l) { body(k, x); ++k; }] *)
Fixpoint foreach {S A} (l : list A) (k : Z) (body : Z -> A -> M S unit) : M S unit :=
  match l with
  | [] => mret tt
  | x :: l' => body k x ;; foreach l' (k + 1) body
  end.

(** ** Machine integers *)

Definition INT64_MIN : Z := - 2 ^ 63.
Definition INT64_MAX : Z := 2 ^ 63 - 1.

Definition in_int64 (z : Z) : Prop := INT64_MIN <= z <= INT64_MAX.

Global Instance in_int64_dec z : Decision (in_int64 z).
Proof. unfold in_int64. apply _. Defined.

(** The value of a signed 64-bit operation whose exact result is [z]. *)
Definition int64 (z : Z) : outcome Z :=
  if decide (in_int64 z) then Ok z else Undefined.

Definition mul64 (a b : Z) : outcome Z := int64 (a * b).
Definition add64 (a b : Z) : outcome Z := int64 (a + b).

(** [planes * depth * height * width], evaluated left to right. *)
Definition product4 (planes depth height width : Z) : outcome Z :=
  pd ← mul64 planes depth;
  pdh ← mul64 pd height;
  mul64 pdh width.

(** [CHECK_EQ(x, y)] and [CHECK_LT(x, y)]; [e] names the check. *)
Definition CHECK_EQ (e : failure) (x y : Z) : outcome unit :=
  if decide (x = y) then Ok tt else Stop e.
Definition CHECK_LT (e : failure) (x y : Z) : outcome unit :=
  if decide (x < y) then Ok tt else Stop e.

(** [DCHECK_EQ(x, y)] and [assert(c)]: nothing when [NDEBUG] is defined. *)
Definition DCHECK_EQ (NDEBUG : bool) (e : failure) (x y : Z) : outcome unit :=
  if NDEBUG then Ok tt else CHECK_EQ e x y.
Definition assert_ (NDEBUG : bool) (e : failure) (c : bool) : outcome unit :=
  if NDEBUG then Ok tt else if c then Ok tt else Stop e.

(** ** Element types *)

(** The machine floating-point types, kept abstract: the two literals of the
    source, the conversion of an [int64] and the product used by
    [FillWithMultiples]. *)
Class Floating : Type := {
  float : Type;
  double : Type;
  float_zero : float;                       (* 0.f *)
  float_tolerance : float;                  (* 0.000001f *)
  double_zero : double;                     (* 0.0 *)
  float_of_int64 : Z -> float;              (* conversion of an int64 *)
  float_mul : float -> float -> float;
}.

(** What [Array4D<T>] and [MatrixMul] ask of the template parameter [T]. *)
Class Scalar `{Floating} (T : Type) : Type := {
  T_default : T;                            (* T() *)
  T_of_float : float -> T;                  (* assignment of a float *)
  T_of_double : double -> T;                (* static_cast<T>(double) *)
  T_to_double : T -> double;                (* static_cast<double>(T) *)
  T_add : T -> T -> T;                      (* x += y *)
  T_mul : T -> T -> T;                      (* x * y, x *= y *)
  T_sub : T -> T -> T;                      (* x - y *)
  T_abs : T -> T;                           (* std::abs(x) *)
  T_lt_float : T -> float -> bool;          (* x < f *)
  T_succ : T -> T;                          (* ++x *)
  T_scale : T -> float -> T;                (* x *= f *)
  vector_max_size : Z;                      (* std::vector<T>::max_size() *)
  vector_max_size_int64 : 0 <= vector_max_size <= INT64_MAX;
}.

(** [std::mt19937] and [std::normal_distribution<double>]: both objects carry
    state, and a draw advances both. *)
Class Random `{Floating} : Type := {
  mt19937 : Type;
  mt19937_seed : Z -> mt19937;
  normal_distribution : Type;
  normal_distribution_init : double -> double -> normal_distribution;
  normal_distribution_call :
    normal_distribution -> mt19937 -> double * (normal_distribution * mt19937);
}.

(** ** The container *)

Record Array4D (T : Type) : Type := mkArray4D {
  planes_ : Z;
  depth_ : Z;
  height_ : Z;
  width_ : Z;
  values_ : list T;
}.
Arguments mkArray4D {T} _ _ _ _ _.
Arguments planes_ {T} _.
Arguments depth_ {T} _.
Arguments height_ {T} _.
Arguments width_ {T} _.
Arguments values_ {T} _.

Definition set_values_ {T} (a : Array4D T) (v : list T) : Array4D T :=
  mkArray4D (planes_ a) (depth_ a) (height_ a) (width_ a) v.

(** Modelled from the spec: [Array2D<T>] (array2d.h is not part of the
    sources), "a 2D dense array type exposing height(), width(), and (row,col)
    element access"; rows are stored one after the other and an access outside
    the array has no defined result. *)
Record Array2D (T : Type) : Type := mkArray2D {
  a2_height : Z;
  a2_width : Z;
  a2_values : list T;
}.
Arguments mkArray2D {T} _ _ _.
Arguments a2_height {T} _.
Arguments a2_width {T} _.
Arguments a2_values {T} _.

Definition Array2D_at {T} (m : Array2D T) (row col : Z) : outcome T :=
  if decide (0 <= row < a2_height m /\ 0 <= col < a2_width m) then
    match a2_values m !! Z.to_nat (row * a2_width m + col) with
    | Some x => Ok x
    | None => Undefined
    end
  else Undefined.

Section Array4D.
Context `{FL : Floating} {T : Type} {SC : Scalar T} {RN : Random}.

(** Defined when the build has [NDEBUG]. *)
Variable NDEBUG : bool.

Definition planes (a : Array4D T) : Z := planes_ a.
Definition depth (a : Array4D T) : Z := depth_ a.
Definition height (a : Array4D T) : Z := height_ a.
Definition width (a : Array4D T) : Z := width_ a.
Definition n1 (a : Array4D T) : Z := planes_ a.
Definition n2 (a : Array4D T) : Z := depth_ a.
Definition n3 (a : Array4D T) : Z := height_ a.
Definition n4 (a : Array4D T) : Z := width_ a.
Definition num_elements (a : Array4D T) : Z := Z.of_nat (length (values_ a)).
Definition flatten (a : Array4D T) : list T := values_ a.

(** Modelled from the spec: the base class [TensorArray] (tensor_array.h is
    not part of the sources), "a base tensor shape type supplying dimension
    storage", built by every constructor from the same four dimensions; its
    accessors give these back, [size(k)] in major-to-minor order. *)
Definition Batch (a : Array4D T) : Z := planes_ a.
Definition Depth (a : Array4D T) : Z := depth_ a.
Definition Height (a : Array4D T) : Z := height_ a.
Definition Width (a : Array4D T) : Z := width_ a.
Definition size (a : Array4D T) (k : nat) : Z :=
  nth k [planes_ a; depth_ a; height_ a; width_ a] 0.

(** [std::vector<T>(n, x)] for an [int64] count [n]: a negative count
    converts to a [size_t] above [max_size()]. *)
Definition vector_fill (n : Z) (x : T) : outcome (list T) :=
  if decide (0 <= n <= vector_max_size)
  then Ok (replicate (Z.to_nat n) x)
  else Stop LengthError.

(** *** Constructors *)

(** [Array4D(planes, depth, height, width)] *)
Definition Array4D_sized (planes depth height width : Z) : outcome (Array4D T) :=
  n ← product4 planes depth height width;
  v ← vector_fill n T_default;
  Ok (mkArray4D planes depth height width v).

(** [Array4D(planes, depth, height, width, value)] *)
Definition Array4D_filled (planes depth height width : Z) (value : T)
  : outcome (Array4D T) :=
  n ← product4 planes depth height width;
  v ← vector_fill n value;
  Ok (mkArray4D planes depth height width v).

(** [Array4D(planes, depth, height, width, const std::vector<T>&)]: the
    vector is copied, then its size is checked. *)
Definition Array4D_of_vector (planes depth height width : Z) (input_array : list T)
  : outcome (Array4D T) :=
  n ← product4 planes depth height width;
  CHECK_EQ ShapeMismatch n (Z.of_nat (length input_array));;
  Ok (mkArray4D planes depth height width input_array).

(** [SetValues(container)], for a container that is no part of the object:
    [assign] is given iterators that do not point into [values_]. *)
Definition SetValues (container : list T) : M (Array4D T) unit := fun this =>
  match CHECK_EQ ShapeMismatch (Z.of_nat (length container)) (num_elements this) with
  | Ok _ => Ret tt (set_values_ this container)
  | Stop e => Halt e this
  | Undefined => UB
  end.

(** Runs the body of a constructor on the object under construction. *)
Definition construct (o : outcome (Array4D T)) (body : M (Array4D T) unit)
  : outcome (Array4D T) :=
  this ← o;
  match body this with
  | Ret _ this' => Ok this'
  | Halt e _ => Stop e
  | UB => Undefined
  end.

(** [Array4D(planes, depth, height, width, const Container&)] *)
Definition Array4D_of_container (planes depth height width : Z) (values : list T)
  : outcome (Array4D T) :=
  construct (Array4D_sized planes depth height width) (SetValues values).

(** *** Element access *)

(** [operator()(plane, depth, height, width)]: the four checks, the linear
    index in [int64], and the subscript into [values_]; the result is the
    position of the element referred to. *)
Definition linear_index (a : Array4D T) (plane depth height width : Z) : outcome Z :=
  dh ← mul64 (depth_ a) (height_ a);
  dhw ← mul64 dh (width_ a);
  t1 ← mul64 plane dhw;
  hw ← mul64 (height_ a) (width_ a);
  t2 ← mul64 depth hw;
  s1 ← add64 t1 t2;
  t3 ← mul64 height (width_ a);
  s2 ← add64 s1 t3;
  add64 s2 width.

Definition subscript (v : list T) (i : Z) : outcome nat :=
  if decide (0 <= i < Z.of_nat (length v)) then Ok (Z.to_nat i) else Undefined.

Definition op_call (a : Array4D T) (plane depth height width : Z) : outcome nat :=
  CHECK_LT IndexOutOfRange plane (planes_ a);;
  CHECK_LT IndexOutOfRange depth (depth_ a);;
  CHECK_LT IndexOutOfRange height (height_ a);;
  CHECK_LT IndexOutOfRange width (width_ a);;
  i ← linear_index a plane depth height width;
  subscript (values_ a) i.

(** Reading and writing through the reference [operator()] returns. *)
Definition load (a : Array4D T) (pos : nat) : outcome T :=
  match values_ a !! pos with
  | Some x => Ok x
  | None => Undefined
  end.

Definition read (a : Array4D T) (plane depth height width : Z) : outcome T :=
  pos ← op_call a plane depth height width;
  load a pos.

Definition write (plane depth height width : Z) (x : T) : M (Array4D T) unit :=
  fun this =>
    match op_call this plane depth height width with
    | Ok pos => Ret tt (set_values_ this (<[pos := x]> (values_ this)))
    | Stop e => Halt e this
    | Undefined => UB
    end.

(** [values_[i]] for a [size_t] or non-negative [int64] index. *)
Definition vec_at (v : list T) (i : Z) : outcome T :=
  pos ← subscript v i;
  match v !! pos with
  | Some x => Ok x
  | None => Undefined
  end.

(** [values_[i] = f(values_[i])] *)
Definition vec_update (i : Z) (f : T -> T) : M (Array4D T) unit := fun this =>
  match vec_at (values_ this) i with
  | Ok x => Ret tt (set_values_ this (<[Z.to_nat i := f x]> (values_ this)))
  | Stop e => Halt e this
  | Undefined => UB
  end.

(** [this(plane, depth, height, width) += x] *)
Definition add_assign (plane depth height width : Z) (x : T) : M (Array4D T) unit :=
  fun this =>
    match op_call this plane depth height width with
    | Ok pos =>
        match values_ this !! pos with
        | Some y => Ret tt (set_values_ this (<[pos := T_add y x]> (values_ this)))
        | None => UB
        end
    | Stop e => Halt e this
    | Undefined => UB
    end.

(** *** The nested-literal constructor *)

Definition len {A} (l : list A) : Z := Z.of_nat (length l).

Definition nested_assign (values : list (list (list (list T)))) : M (Array4D T) unit :=
  foreach values 0 (fun plane values_in_plane =>
    this ← get;
    lift (DCHECK_EQ NDEBUG RaggedShape (len values_in_plane) (depth_ this));;
    foreach values_in_plane 0 (fun depth values_in_depth =>
      this ← get;
      lift (DCHECK_EQ NDEBUG RaggedShape (len values_in_depth) (height_ this));;
      foreach values_in_depth 0 (fun height values_in_height =>
        this ← get;
        lift (DCHECK_EQ NDEBUG RaggedShape (len values_in_height) (width_ this));;
        foreach values_in_height 0 (fun width element_value =>
          write plane depth height width element_value)))).

(** [Array4D(std::initializer_list<...> values)]: the arguments of the
    delegated constructor dereference [begin()] of [values], of its first
    element and of that one's first element. *)
Definition Array4D_nested (values : list (list (list (list T)))) : outcome (Array4D T) :=
  match values with
  | [] => Undefined
  | plane0 :: _ =>
      match plane0 with
      | [] => Undefined
      | depth0 :: _ =>
          match depth0 with
          | [] => Undefined
          | row0 :: _ =>
              construct
                (Array4D_sized (len values) (len plane0) (len depth0) (len row0))
                (nested_assign values)
          end
      end
  end.

(** *** Comparison *)

(** The loop of [operator==]: [count] elements remain from index [i] on. *)
Fixpoint eq_loop (a rhs : Array4D T) (count : nat) (i : Z) (result : bool)
  : outcome bool :=
  match count with
  | O => Ok result
  | Datatypes.S c =>
      if result then
        x ← vec_at (values_ a) i;
        y ← vec_at (values_ rhs) i;
        eq_loop a rhs c (i + 1) (T_lt_float (T_abs (T_sub x y)) float_tolerance)
      else Ok result
  end.

(** [operator==(rhs)] *)
Definition operator_eq (a rhs : Array4D T) : outcome bool :=
  let result := bool_decide (num_elements a = num_elements rhs) in
  let result :=
    result
    && bool_decide (planes a = planes rhs)
    && bool_decide (depth a = depth rhs)
    && bool_decide (height a = height rhs)
    && bool_decide (width a = width rhs) in
  if result then eq_loop a rhs (length (values_ a)) 0 result else Ok result.

(** *** Fills *)

(** [Fill(value)]: [std::fill] over the vector. *)
Definition Fill (value : T) (this : Array4D T) : Array4D T :=
  set_values_ this ((fun _ => value) <$> values_ this).

(** [std::iota(first, last, value)] *)
Fixpoint iota (l : list T) (value : T) : list T :=
  match l with
  | [] => []
  | _ :: l' => value :: iota l' (T_succ value)
  end.

(** [FillIota(value)] *)
Definition FillIota (value : T) (this : Array4D T) : Array4D T :=
  set_values_ this (iota (values_ this) value).

(** [for (auto& v : values_) v = static_cast<T>(distribution(g));] *)
Fixpoint random_fill (l : list T) (distribution : normal_distribution) (g : mt19937)
  : list T :=
  match l with
  | [] => []
  | _ :: l' =>
      let '(x, (distribution', g')) := normal_distribution_call distribution g in
      T_of_double x :: random_fill l' distribution' g'
  end.

(** [FillRandom(value, mean, seed)]; the defaults are [mean = 0.0] and
    [seed = 12345]. *)
Definition FillRandom (value : T) (mean : double) (seed : Z) (this : Array4D T)
  : Array4D T :=
  let g := mt19937_seed seed in
  let distribution := normal_distribution_init mean (T_to_double value) in
  set_values_ this (random_fill (values_ this) distribution g).

Definition FillRandom_default (value : T) : Array4D T -> Array4D T :=
  FillRandom value double_zero 12345.

(** [FillWithMultiples(multiplier)] *)
Definition FillWithMultiples (multiplier : float) : M (Array4D T) unit :=
  this ← get;
  for_ (num_elements this) (fun i =>
    vec_update i (fun _ => T_of_float (float_mul (float_of_int64 i) multiplier))).

(** [mul(multiplier)] *)
Definition mul (multiplier : float) : M (Array4D T) unit :=
  this ← get;
  for_ (num_elements this) (fun i =>
    vec_update i (fun x => T_scale x multiplier)).

(** [FillWithYX(value)] *)
Definition FillWithYX (value : Array2D T) : M (Array4D T) unit :=
  this ← get;
  lift (CHECK_EQ ShapeMismatch (a2_height value) (height this));;
  lift (CHECK_EQ ShapeMismatch (a2_width value) (width this));;
  for_ (planes this) (fun plane =>
    for_ (depth this) (fun depth =>
      for_ (height this) (fun height =>
        for_ (width this) (fun width =>
          x ← lift (Array2D_at value height width);
          write plane depth height width x)))).

(** [FillWithPZ(value)] *)
Definition FillWithPZ (value : Array2D T) : M (Array4D T) unit :=
  this ← get;
  lift (CHECK_EQ ShapeMismatch (a2_height value) (planes this));;
  lift (CHECK_EQ ShapeMismatch (a2_width value) (depth this));;
  for_ (height this) (fun height =>
    for_ (width this) (fun width =>
      for_ (planes this) (fun plane =>
        for_ (depth this) (fun depth =>
          x ← lift (Array2D_at value plane depth);
          write plane depth height width x)))).

(** [FillWithMinorDimNum()]; the log lines have no effect on the object. *)
Definition FillWithMinorDimNum : M (Array4D T) unit :=
  this ← get;
  for_ (height this) (fun height =>
    for_ (width this) (fun width =>
      for_ (planes this) (fun plane =>
        for_ (depth this) (fun depth =>
          pd ← lift (mul64 plane (depth_ this));
          n ← lift (add64 pd depth);
          let this_val := float_of_int64 n in
          write plane depth height width (T_of_float this_val))))).

(** [operator*(rhs)]: the element-wise product, in place.  [rhs] is read
    through a const reference and may be the object itself; iteration [i]
    reads its element [i] before that element is written and reads no other,
    so the contents of [rhs] at the call stand for it. *)
Definition operator_mul (rhs : Array4D T) : M (Array4D T) unit :=
  this ← get;
  if bool_decide (size rhs 0 = size this 0)
     && bool_decide (size rhs 1 = size this 1)
     && bool_decide (size rhs 2 = size this 2)
     && bool_decide (size rhs 3 = size this 3)
  then
    for_ (num_elements this) (fun i =>
      y ← lift (vec_at (values_ rhs) i);
      vec_update i (fun x => T_mul x y))
  else lift (assert_ NDEBUG ShapeMismatch false).

(** *** Matrix product *)

(** Objects live in a store and are passed by address. *)
Definition deref (r : nat) : M (list (Array4D T)) (Array4D T) := fun σ =>
  match σ !! r with
  | Some a => Ret a σ
  | None => UB
  end.

Definition on_object {A} (r : nat) (m : M (Array4D T) A) : M (list (Array4D T)) A :=
  fun σ =>
    match σ !! r with
    | Some a =>
        match m a with
        | Ret x a' => Ret x (<[r := a']> σ)
        | Halt e a' => Halt e (<[r := a']> σ)
        | UB => UB
        end
    | None => UB
    end.

Definition at_ (r : nat) (plane depth height width : Z) : M (list (Array4D T)) T :=
  a ← deref r; lift (read a plane depth height width).

(** [MatrixMul(lhs, rhs, result)] *)
Definition MatrixMul (lhs rhs result : nat) : M (list (Array4D T)) unit :=
  l ← deref lhs;
  r ← deref rhs;
  o ← deref result;
  lift (CHECK_EQ ShapeMismatch (Width l) (Height r));;
  lift (CHECK_EQ ShapeMismatch (Height l) (Height o));;
  lift (CHECK_EQ ShapeMismatch (Width r) (Width o));;
  lift (CHECK_EQ ShapeMismatch (Depth l) (Depth r));;
  lift (CHECK_EQ ShapeMismatch (Depth r) (Depth o));;
  lift (CHECK_EQ ShapeMismatch (Batch l) (Batch r));;
  lift (CHECK_EQ ShapeMismatch (Batch r) (Batch o));;
  lift (assert_ NDEBUG ShapeMismatch (bool_decide (Width l = Height r)));;
  lift (assert_ NDEBUG ShapeMismatch (bool_decide (Height l = Height o)));;
  lift (assert_ NDEBUG ShapeMismatch (bool_decide (Width r = Width o)));;
  for_ (Batch o) (fun b =>
    for_ (Depth o) (fun d =>
      for_ (Height l) (fun i =>
        for_ (Width r) (fun j =>
          on_object result (write b d i j (T_of_float float_zero));;
          for_ (Width l) (fun r' =>
            x ← at_ lhs b d i r';
            y ← at_ rhs b d r' j;
            on_object result (add_assign b d i j (T_mul x y))))))).

(** [MakeMatrixMul(lhs, rhs)]: the result is a new object. *)
Definition MakeMatrixMul (lhs rhs : nat) : M (list (Array4D T)) nat :=
  l ← deref lhs;
  r ← deref rhs;
  lift (assert_ NDEBUG ShapeMismatch (bool_decide (n1 l = n1 r)));;
  lift (assert_ NDEBUG ShapeMismatch (bool_decide (n2 l = n2 r)));;
  a ← lift (Array4D_sized (n1 l) (n2 l) (n3 l) (n4 r));
  σ ← get;
  let result := length σ in
  put (σ ++ [a]);;
  MatrixMul lhs rhs result;;
  mret result.

End Array4D.

(** ** Well-formed containers *)

Section Shape.
Context {T : Type}.

(** The invariant of the data model: the vector holds exactly one element
    per coordinate. *)
Definition invariant (a : Array4D T) : Prop :=
  Z.of_nat (length (values_ a)) = planes_ a * depth_ a * height_ a * width_ a.

(** A vector's size is representable as an [int64]. *)
Definition wf (a : Array4D T) : Prop :=
  invariant a /\ Z.of_nat (length (values_ a)) <= INT64_MAX.

Definition same_shape {U} (a : Array4D T) (b : Array4D U) : Prop :=
  planes_ a = planes_ b /\ depth_ a = depth_ b /\
  height_ a = height_ b /\ width_ a = width_ b.

Definition in_range (a : Array4D T) (p d h w : Z) : Prop :=
  0 <= p < planes_ a /\ 0 <= d < depth_ a /\
  0 <= h < height_ a /\ 0 <= w < width_ a.

(** The layout contract: the linear index of a coordinate. *)
Definition offset (a : Array4D T) (p d h w : Z) : Z :=
  p * (depth_ a * height_ a * width_ a) + d * (height_ a * width_ a)
  + h * width_ a + w.

(** The element at a coordinate, [dflt] outside the vector. *)
Definition elem (dflt : T) (a : Array4D T) (p d h w : Z) : T :=
  nth (Z.to_nat (offset a p d h w)) (values_ a) dflt.

(** The positions before linear index [K] hold the values [F] assigns to
    their coordinates. *)
Definition filled_below (a : Array4D T) (F : Z -> Z -> Z -> Z -> T) (K : Z)
    (v : list T) : Prop :=
  length v = length (values_ a) /\
  forall p d h w, in_range a p d h w -> offset a p d h w < K ->
    v !! Z.to_nat (offset a p d h w) = Some (F p d h w).

Definition wf2 (m : Array2D T) : Prop :=
  Z.of_nat (length (a2_values m)) = a2_height m * a2_width m.

(** A constructor never returns an ill-formed container. *)
Definition establishes (o : outcome (Array4D T)) : Prop :=
  match o with
  | Ok a => wf a
  | _ => True
  end.

(** A member function, run on a well-formed container, has a defined
    behaviour and leaves a well-formed container of the same shape, whether
    it returns or stops on a check. *)
Definition preserves (m : M (Array4D T) unit) : Prop :=
  forall a, wf a ->
    match m a with
    | Ret _ a' | Halt _ a' => wf a' /\ same_shape a' a
    | UB => False
    end.

(** The states a member function goes through on [a0]: well formed, with
    the shape of [a0]. *)
Definition shaped (a0 a : Array4D T) : Prop :=
  wf a /\ same_shape a a0 /\ length (values_ a) = length (values_ a0).

Definition returns (m : M (Array4D T) unit) : Prop :=
  forall a, wf a -> exists a', m a = Ret tt a'.
End Shape.

(** Triples for statements: from a state in [I] the statement has a defined
    behaviour, returns in [Q] and stops in [E]. *)
Definition hoare {S A} (I : S -> Prop) (m : M S A) (Q : A -> S -> Prop)
    (E : S -> Prop) : Prop :=
  forall s, I s ->
    match m s with
    | Ret a s' => Q a s'
    | Halt _ s' => E s'
    | UB => False
    end.

(** ** The matrix product, as the spec states it *)

Section Product.
Context `{FL : Floating} {T : Type} {SC : Scalar T}.

(** [Σ_r lhs(b,d,i,r) * rhs(b,d,r,j)]: the terms are added in increasing [r]
    to the element type's zero, the value of the literal [0.f]. *)
Definition dot_product (lhs rhs : Array4D T) (b d i j : Z) : T :=
  foldl (fun acc r =>
           T_add acc (T_mul (elem T_default lhs b d i r) (elem T_default rhs b d r j)))
        (T_of_float float_zero)
        (seqZ 0 (width_ lhs)).

(** The shape preconditions of the product. *)
Definition matmul_shapes (lhs rhs result : Array4D T) : Prop :=
  width_ lhs = height_ rhs /\
  height_ lhs = height_ result /\ width_ rhs = width_ result /\
  depth_ lhs = depth_ rhs /\ depth_ rhs = depth_ result /\
  planes_ lhs = planes_ rhs /\ planes_ rhs = planes_ result.
End Product.

(** ** The random fill, as a function of the number of elements *)

Section Draws.
Context `{FL : Floating} {T : Type} {SC : Scalar T} {RN : Random}.

(** The first [n] draws of a distribution and a generator, converted to
    [T]. *)
Fixpoint random_sequence (n : nat) (distribution : normal_distribution)
    (g : mt19937) : list T :=
  match n with
  | O => []
  | Datatypes.S n' =>
      let '(x, (distribution', g')) := normal_distribution_call distribution g in
      T_of_double x :: random_sequence n' distribution' g'
  end.
End Draws.

(** ** Nested literals *)

Section Literal.
Context {T : Type}.

(** The element of a literal at a coordinate. *)
Definition nested_at (values : list (list (list (list T)))) (p d h w : nat)
  : option T :=
  vp ← values !! p; vd ← vp !! d; vh ← vd !! h; vh !! w.

Definition nested_elem (dflt : T) (values : list (list (list (list T))))
    (p d h w : Z) : T :=
  nth (Z.to_nat w)
    (nth (Z.to_nat h) (nth (Z.to_nat d) (nth (Z.to_nat p) values []) []) []) dflt.

(** What the three [DCHECK_EQ] of the constructor ask: every plane has [nd]
    lists of rows, each of these [nh] rows, each row [nw] elements. *)
Definition row_ok (nw : Z) (vh : list T) : bool := len vh =? nw.
Definition depth_ok (nh nw : Z) (vd : list (list T)) : bool :=
  (len vd =? nh) && forallb (row_ok nw) vd.
Definition plane_ok (nd nh nw : Z) (vp : list (list (list T))) : bool :=
  (len vp =? nd) && forallb (depth_ok nh nw) vp.
Definition rectangular (nd nh nw : Z) (values : list (list (list (list T)))) : bool :=
  forallb (plane_ok nd nh nw) values.

(** The order in which the constructor walks the coordinates. *)
Definition before (p d h w p' d' h' w' : Z) : Prop :=
  p < p' \/ (p = p' /\ (d < d' \/ (d = d' /\ (h < h' \/ (h = h' /\ w < w'))))).

(** The elements of the literal that come before a coordinate are in the
    vector [v], each at the linear index of its own coordinate. *)
Definition placed (a : Array4D T) (values : list (list (list (list T))))
    (P D H W : Z) (v : list T) : Prop :=
  length v = length (values_ a) /\
  forall (p d h w : nat) x,
    nested_at values p d h w = Some x ->
    before (Z.of_nat p) (Z.of_nat d) (Z.of_nat h) (Z.of_nat w) P D H W ->
    in_range a (Z.of_nat p) (Z.of_nat d) (Z.of_nat h) (Z.of_nat w)
    /\ v !! Z.to_nat (offset a (Z.of_nat p) (Z.of_nat d) (Z.of_nat h) (Z.of_nat w))
       = Some x.

(** The spec's words: some sub-sequence has a length other than that of
    its first sibling, at some level. *)
Definition siblings_differ {A} (l : list (list A)) : bool :=
  match l with
  | [] => false
  | first :: rest => existsb (fun s => negb (len s =? len first)) rest
  end.

Definition ragged (values : list (list (list (list T)))) : bool :=
  siblings_differ values
  || existsb siblings_differ values
  || existsb (existsb siblings_differ) values.
End Literal.

(** ** Instances used to run the model

    Exact rationals stand in for [float] and [double], and unbounded integers
    for an integral [T].  They have no NaN, no infinity, no rounding and no
    overflow, so they give the results of the machine types only where the
    machine computes exactly: on binary fractions of a few bits and on small
    integers, as in the examples.  Nothing is stated of the machine types
    through them beyond such inputs. *)

Definition Qltb (x y : Q) : bool := negb (Qle_bool y x).

(** Conversion of a floating-point value to an integer: towards zero. *)
Definition Qtrunc (q : Q) : Z := Z.quot (Qnum q) (Zpos (Qden q)).

Global Instance Q_floating : Floating := {|
  float := Q;
  double := Q;
  float_zero := 0%Q;
  float_tolerance := (8796093 # 8796093022208)%Q;   (* 0.000001f = 8796093/2^43 *)
  double_zero := 0%Q;
  float_of_int64 := inject_Z;
  float_mul := fun x y => Qred (x * y)%Q;
|}.

(** [T = int64]-like elements. *)
Global Instance Z_scalar : Scalar Z := {|
  T_default := 0;
  T_of_float := Qtrunc;
  T_of_double := Qtrunc;
  T_to_double := inject_Z;
  T_add := Z.add;
  T_mul := Z.mul;
  T_sub := Z.sub;
  T_abs := Z.abs;
  T_lt_float := fun x f => Qltb (inject_Z x) f;
  T_succ := Z.succ;
  T_scale := fun x f => Qtrunc (inject_Z x * f)%Q;
  vector_max_size := 2 ^ 60 - 1;
  vector_max_size_int64 := ltac:(unfold INT64_MAX; lia);
|}.

(** [T = float]-like elements. *)
Global Instance Q_scalar : Scalar Q := {|
  T_default := 0%Q;
  T_of_float := fun x => x;
  T_of_double := fun x => x;
  T_to_double := fun x => x;
  T_add := fun x y => Qred (x + y)%Q;
  T_mul := fun x y => Qred (x * y)%Q;
  T_sub := fun x y => Qred (x - y)%Q;
  T_abs := Qabs;
  T_lt_float := Qltb;
  T_succ := fun x => Qred (x + 1)%Q;
  T_scale := fun x f => Qred (x * f)%Q;
  vector_max_size := 2 ^ 60 - 1;
  vector_max_size_int64 := ltac:(unfold INT64_MAX; lia);
|}.

(** A linear congruential generator stands in for the Mersenne twister, and
    a three-point distribution for the normal one. *)
Global Instance lcg_random : Random := {|
  mt19937 := Z;
  mt19937_seed := fun seed => seed mod 2 ^ 32;
  normal_distribution := Q * Q;
  normal_distribution_init := fun mean stddev => (mean, stddev);
  normal_distribution_call := fun d g =>
    let g' := (1103515245 * g + 12345) mod 2 ^ 31 in
    (Qred (fst d + snd d * inject_Z (g' mod 3 - 1))%Q, (d, g'));
|}.

(** The operands of the spec's example: a 2x3 and a 3x2 matrix, one batch. *)
Definition example_lhs : Array4D Z := mkArray4D 1 1 2 3 [1; 2; 3; 4; 5; 6].
Definition example_rhs : Array4D Z := mkArray4D 1 1 3 2 [7; 8; 9; 10; 11; 12].
Definition example_result (x1 x2 x3 x4 : Z) : Array4D Z :=
  mkArray4D 1 1 2 2 [x1; x2; x3; x4].

(** ** Visiting the cells *)

Section Each.
Context `{FL : Floating} {T : Type} {SC : Scalar T}.

(** [auto& value = this(plane, depth, height, width);
     f({plane, depth, height, width}, &value);]
    The callback is handed the coordinates and a pointer to the cell: it
    reads and writes that cell, and the state [C] it has captured. *)
Definition visit {C} (f : list Z -> T -> C -> T * C) (plane depth height width : Z)
  : M (Array4D T * C) unit :=
  fun s =>
    let '(this, c) := s in
    match op_call this plane depth height width with
    | Ok pos =>
        match values_ this !! pos with
        | Some x =>
            let '(y, c') := f [plane; depth; height; width] x c in
            Ret tt (set_values_ this (<[pos := y]> (values_ this)), c')
        | None => UB
        end
    | Stop e => Halt e s
    | Undefined => UB
    end.

(** [Each(f)] *)
Definition Each {C} (f : list Z -> T -> C -> T * C) : M (Array4D T * C) unit :=
  s ← get;
  let this := fst s in
  for_ (planes this) (fun plane =>
    for_ (depth this) (fun depth =>
      for_ (height this) (fun height =>
        for_ (width this) (fun width =>
          visit f plane depth height width)))).

(** The coordinates of a container, in the order of the four loops. *)
Definition coordinates (a : Array4D T) : list (Z * Z * Z * Z) :=
  p ← seqZ 0 (planes_ a);
  d ← seqZ 0 (depth_ a);
  h ← seqZ 0 (height_ a);
  w ← seqZ 0 (width_ a);
  [(p, d, h, w)].

(** A callback called on the cells [xs], one after the other, with the
    coordinates [cs]: the values it leaves in the cells and its final
    state. *)
Fixpoint calls {C} (f : list Z -> T -> C -> T * C) (cs : list (Z * Z * Z * Z))
    (xs : list T) (c : C) : list T * C :=
  match cs, xs with
  | (p, d, h, w) :: cs', x :: xs' =>
      let '(y, c') := f [p; d; h; w] x c in
      let '(ys, c'') := calls f cs' xs' c' in
      (y :: ys, c'')
  | _, _ => ([], c)
  end.
End Each.

(** ** Converting the elements *)

Section Convert.
Context `{FL : Floating} {T U : Type} {SCT : Scalar T} {SCU : Scalar U}.

(** [U(x)], the conversion of an element. *)
Variable cast : T -> U.

(** [to[i] = y] *)
Definition vec_store (i : Z) (y : U) : M (Array4D U) unit := fun to =>
  match subscript (values_ to) i with
  | Ok pos => Ret tt (set_values_ to (<[pos := y]> (values_ to)))
  | Stop e => Halt e to
  | Undefined => UB
  end.

(** [convert<U>()]: the result is a new object. *)
Definition convert (this : Array4D T) : outcome (Array4D U) :=
  construct (Array4D_sized (size this 0) (size this 1) (size this 2) (size this 3))
    (for_ (num_elements this) (fun i =>
       x ← lift (vec_at (values_ this) i);
       vec_store i (cast x))).
End Convert.

(** ** Cells written in any order *)

Section Written.
Context {T : Type}.

(** The cells of [a] selected by [P] hold in [v] the values [F] assigns to
    their coordinates. *)
Definition filled_where (a : Array4D T) (F : Z -> Z -> Z -> Z -> T)
    (P : Z -> Z -> Z -> Z -> Prop) (v : list T) : Prop :=
  length v = length (values_ a) /\
  forall p d h w, in_range a p d h w -> P p d h w ->
    v !! Z.to_nat (offset a p d h w) = Some (F p d h w).

(** The element of a two-dimensional array at a row and a column, [dflt]
    outside the array. *)
Definition elem2 (dflt : T) (m : Array2D T) (row col : Z) : T :=
  nth (Z.to_nat (row * a2_width m + col)) (a2_values m) dflt.
End Written.

(** ** Stepping through statements *)

Lemma bind_Ret {S A B} (m : M S A) (f : A -> M S B) s a s' :
  m s = Ret a s' -> (m ≫= f) s = f a s'.
Proof. intros E. unfold mbind, M_bind. now rewrite E. Qed.

Lemma bind_Halt {S A B} (m : M S A) (f : A -> M S B) s e s' :
  m s = Halt e s' -> (m ≫= f) s = Halt e s'.
Proof. intros E. unfold mbind, M_bind. now rewrite E. Qed.

Lemma bind_UB {S A B} (m : M S A) (f : A -> M S B) s :
  m s = UB -> (m ≫= f) s = UB.
Proof. intros E. unfold mbind, M_bind. now rewrite E. Qed.

Lemma bind_get {S B} (f : S -> M S B) s : (get ≫= f) s = f s s.
Proof. reflexivity. Qed.

Lemma bind_lift_Ok {S A B} (o : outcome A) (f : A -> M S B) s a :
  o = Ok a -> (lift o ≫= f) s = f a s.
Proof. intros ->. reflexivity. Qed.

(** A loop whose body always returns, with an invariant indexed by the
    counter. *)
Lemma for_from_inv {S} (I : Z -> S -> Prop) (body : Z -> M S unit) count k s :
  I k s ->
  (forall j t, k <= j < k + Z.of_nat count -> I j t ->
     exists t', body j t = Ret tt t' /\ I (j + 1) t') ->
  exists s', for_from count k body s = Ret tt s' /\ I (k + Z.of_nat count) s'.
Proof.
  revert k s. induction count as [|c IH]; intros k s H0 Hstep.
  - exists s. split; [reflexivity|]. now replace (k + Z.of_nat 0) with k by lia.
  - destruct (Hstep k s) as (t & Hb & Ht); [lia|assumption|].
    destruct (IH (k + 1) t Ht) as (s' & Hl & Hs').
    { intros j u Hj. apply Hstep. lia. }
    exists s'. split.
    + cbn [for_from]. rewrite (bind_Ret _ _ _ _ _ Hb). exact Hl.
    + now replace (k + Z.of_nat (Datatypes.S c)) with (k + 1 + Z.of_nat c) by lia.
Qed.

Lemma for_inv {S} (I : Z -> S -> Prop) (body : Z -> M S unit) n s :
  I 0 s ->
  (forall j t, 0 <= j < n -> I j t ->
     exists t', body j t = Ret tt t' /\ I (j + 1) t') ->
  exists s', for_ n body s = Ret tt s' /\ I (Z.max 0 n) s'.
Proof.
  intros H0 Hstep. unfold for_.
  destruct (for_from_inv I body (Z.to_nat n) 0 s H0) as (s' & E & H).
  - intros j t Hj. apply Hstep. lia.
  - exists s'. split; [exact E|]. now replace (Z.max 0 n) with (0 + Z.of_nat (Z.to_nat n)) by lia.
Qed.

(** A loop that runs no iteration. *)
Lemma for_nonpos {S} (body : Z -> M S unit) n s : n <= 0 -> for_ n body s = Ret tt s.
Proof. intros H. unfold for_. now replace (Z.to_nat n) with O by lia. Qed.

(** ** Arithmetic of the layout *)

Lemma int64_Ok z : in_int64 z -> int64 z = Ok z.
Proof. intros H. unfold int64. now rewrite decide_True. Qed.

Lemma mul64_Ok a b : in_int64 (a * b) -> mul64 a b = Ok (a * b).
Proof. apply int64_Ok. Qed.

Lemma add64_Ok a b : in_int64 (a + b) -> add64 a b = Ok (a + b).
Proof. apply int64_Ok. Qed.

Lemma in_int64_between z hi : 0 <= z <= hi -> hi <= INT64_MAX -> in_int64 z.
Proof. unfold in_int64, INT64_MIN, INT64_MAX. lia. Qed.

(** Bounds on the summands of the linear index of a coordinate in range. *)
Lemma layout_bounds n1 n2 n3 n4 p d h w :
  0 <= p < n1 -> 0 <= d < n2 -> 0 <= h < n3 -> 0 <= w < n4 ->
  let N := n1 * n2 * n3 * n4 in
  0 <= n2 * n3 <= N /\ 0 <= n2 * n3 * n4 <= N /\ 0 <= n3 * n4 <= N /\
  0 <= p * (n2 * n3 * n4) <= N /\ 0 <= d * (n3 * n4) <= N /\
  0 <= h * n4 <= N /\
  0 <= p * (n2 * n3 * n4) + d * (n3 * n4) <= N /\
  0 <= p * (n2 * n3 * n4) + d * (n3 * n4) + h * n4 <= N /\
  0 <= p * (n2 * n3 * n4) + d * (n3 * n4) + h * n4 + w < N.
Proof.
  intros Hp Hd Hh Hw N.
  assert (H34 : 1 <= n3 * n4) by nia.
  assert (H234 : 1 <= n2 * n3 * n4) by nia.
  assert (H23 : 1 <= n2 * n3) by nia.
  assert (Hh4 : 0 <= h * n4 <= (n3 - 1) * n4) by nia.
  assert (Hd34 : 0 <= d * (n3 * n4) <= (n2 - 1) * (n3 * n4)) by nia.
  assert (Hp234 : 0 <= p * (n2 * n3 * n4) <= (n1 - 1) * (n2 * n3 * n4)) by nia.
  assert (EN : N = (n1 - 1) * (n2 * n3 * n4) + (n2 - 1) * (n3 * n4) + (n3 - 1) * n4 + n4)
    by (unfold N; ring).
  assert (H23N : n2 * n3 <= n2 * n3 * n4) by nia.
  assert (H34N : n3 * n4 <= n2 * n3 * n4) by nia.
  assert (H234N : n2 * n3 * n4 <= N) by (unfold N; nia).
  repeat split; try lia.
Qed.

(** ** Element access on a well-formed container *)

Section Access.
Context `{FL : Floating} {T : Type} {SC : Scalar T}.
Implicit Types a : Array4D T.

Lemma CHECK_LT_Ok e x y : x < y -> CHECK_LT e x y = Ok tt.
Proof. intros H. unfold CHECK_LT. now rewrite decide_True. Qed.

Lemma CHECK_LT_Stop e x y : y <= x -> CHECK_LT e x y = Stop e.
Proof. intros H. unfold CHECK_LT. rewrite decide_False; [reflexivity|lia]. Qed.

Lemma CHECK_EQ_Ok e x y : x = y -> CHECK_EQ e x y = Ok tt.
Proof. intros H. unfold CHECK_EQ. now rewrite decide_True. Qed.

Lemma CHECK_EQ_Stop e x y : x <> y -> CHECK_EQ e x y = Stop e.
Proof. intros H. unfold CHECK_EQ. now rewrite decide_False. Qed.

Lemma offset_bounds a p d h w :
  invariant a -> in_range a p d h w ->
  0 <= offset a p d h w < Z.of_nat (length (values_ a)).
Proof.
  intros Hinv (Hp & Hd & Hh & Hw). rewrite Hinv. unfold offset.
  pose proof (layout_bounds _ _ _ _ _ _ _ _ Hp Hd Hh Hw) as B. cbv zeta in B. lia.
Qed.

Lemma linear_index_Ok a p d h w :
  wf a -> in_range a p d h w ->
  linear_index a p d h w = Ok (offset a p d h w).
Proof.
  intros [Hinv Hmax] (Hp & Hd & Hh & Hw).
  pose proof (layout_bounds _ _ _ _ _ _ _ _ Hp Hd Hh Hw) as B. cbv zeta in B.
  rewrite <- Hinv in B.
  destruct B as (B1 & B2 & B3 & B4 & B5 & B6 & B7 & B8 & B9).
  unfold linear_index, offset.
  repeat (first [rewrite mul64_Ok by (eapply in_int64_between; eauto; lia)
                |rewrite add64_Ok by (eapply in_int64_between; eauto; lia)];
          cbn [mbind outcome_bind]).
  reflexivity.
Qed.

Lemma op_call_Ok a p d h w :
  wf a -> in_range a p d h w ->
  op_call a p d h w = Ok (Z.to_nat (offset a p d h w)).
Proof.
  intros Hwf Hr. pose proof Hr as (Hp & Hd & Hh & Hw).
  unfold op_call.
  rewrite !CHECK_LT_Ok by lia. cbn [mbind outcome_bind].
  rewrite linear_index_Ok by assumption. cbn [mbind outcome_bind].
  unfold subscript. rewrite decide_True; [reflexivity|].
  apply offset_bounds; [apply Hwf | assumption].
Qed.

Lemma op_call_out_of_range a p d h w :
  planes_ a <= p \/ depth_ a <= d \/ height_ a <= h \/ width_ a <= w ->
  op_call a p d h w = Stop IndexOutOfRange.
Proof.
  intros H. unfold op_call, CHECK_LT.
  destruct (decide (p < planes_ a)); [|reflexivity].
  destruct (decide (d < depth_ a)); [|reflexivity].
  destruct (decide (h < height_ a)); [|reflexivity].
  destruct (decide (w < width_ a)); [|reflexivity].
  lia.
Qed.

Lemma lookup_offset dflt a p d h w :
  invariant a -> in_range a p d h w ->
  values_ a !! Z.to_nat (offset a p d h w) = Some (elem dflt a p d h w).
Proof.
  intros Hinv Hr. pose proof (offset_bounds a p d h w Hinv Hr) as B.
  unfold elem.
  destruct (lookup_lt_is_Some_2 (values_ a) (Z.to_nat (offset a p d h w))) as [x Hx];
    [lia|].
  rewrite Hx. f_equal. symmetry. now apply nth_lookup_Some.
Qed.

Lemma read_Ok dflt a p d h w :
  wf a -> in_range a p d h w -> read a p d h w = Ok (elem dflt a p d h w).
Proof.
  intros Hwf Hr. unfold read. rewrite op_call_Ok by assumption.
  cbn [mbind outcome_bind]. unfold load.
  now rewrite (lookup_offset dflt) by (try apply Hwf; assumption).
Qed.

Lemma write_Ret a p d h w x :
  wf a -> in_range a p d h w ->
  write p d h w x a =
    Ret tt (set_values_ a (<[Z.to_nat (offset a p d h w) := x]> (values_ a))).
Proof. intros Hwf Hr. unfold write. now rewrite op_call_Ok. Qed.

Lemma wf_set_values_ a v :
  wf a -> length v = length (values_ a) -> wf (set_values_ a v).
Proof. intros [Hi Hm] E. unfold wf, invariant in *. cbn. rewrite E. auto. Qed.

Lemma wf_write a p d h w x :
  wf a -> in_range a p d h w ->
  exists a', write p d h w x a = Ret tt a' /\ wf a' /\ same_shape a' a /\
             length (values_ a') = length (values_ a).
Proof.
  intros Hwf Hr. eexists. split; [now apply write_Ret|].
  split; [|split].
  - apply wf_set_values_; [assumption|]. apply length_insert.
  - repeat split.
  - cbn. apply length_insert.
Qed.

End Access.

(** ** The layout is one-to-one *)

Lemma radix_inj n x y x' y' :
  0 <= y < n -> 0 <= y' < n -> x * n + y = x' * n + y' -> x = x' /\ y = y'.
Proof. intros Hy Hy' E. assert (x = x') by nia. subst. lia. Qed.

Lemma offset_horner {T} (a : Array4D T) p d h w :
  offset a p d h w = ((p * depth_ a + d) * height_ a + h) * width_ a + w.
Proof. unfold offset. ring. Qed.

Lemma offset_inj {T} (a : Array4D T) p d h w p' d' h' w' :
  in_range a p d h w -> in_range a p' d' h' w' ->
  offset a p d h w = offset a p' d' h' w' ->
  p = p' /\ d = d' /\ h = h' /\ w = w'.
Proof.
  intros (Hp & Hd & Hh & Hw) (Hp' & Hd' & Hh' & Hw') E.
  rewrite !offset_horner in E.
  apply radix_inj in E as [E ->]; [|assumption..].
  apply radix_inj in E as [E ->]; [|assumption..].
  apply radix_inj in E as [-> ->]; [|assumption..].
  auto.
Qed.

(** ** The matrix product on distinct objects *)

Lemma seqZ_snoc n : 0 <= n -> seqZ 0 (n + 1) = seqZ 0 n ++ [n].
Proof.
  intros H. rewrite seqZ_app by lia.
  rewrite (seqZ_cons (0 + n) 1) by lia. now rewrite (seqZ_nil _ (Z.pred 1)) by lia.
Qed.

Lemma seqZ_max n : seqZ 0 (Z.max 0 n) = seqZ 0 n.
Proof.
  destruct (Z_le_gt_dec n 0).
  - now rewrite !seqZ_nil by lia.
  - now rewrite Z.max_r by lia.
Qed.

Lemma assert_true nd e c : c = true -> assert_ nd e c = Ok tt.
Proof. intros ->. now destruct nd. Qed.

Lemma set_values_id {T} (a : Array4D T) : set_values_ a (values_ a) = a.
Proof. now destruct a. Qed.

Lemma filled_below_weaken {T} (a : Array4D T) F K K' v :
  (forall p d h w, in_range a p d h w -> offset a p d h w < K' -> offset a p d h w < K) ->
  filled_below a F K v -> filled_below a F K' v.
Proof. intros HK [E H]. split; [exact E|]. intros p d h w Hr Hlt. apply H; auto. Qed.

(** Writing the next cell extends the filled prefix by one position. *)
Lemma filled_below_insert {T} (a : Array4D T) F p d h w v :
  invariant a -> in_range a p d h w ->
  filled_below a F (offset a p d h w) v ->
  filled_below a F (offset a p d h w + 1)
    (<[Z.to_nat (offset a p d h w) := F p d h w]> v).
Proof.
  intros Hinv Hr [E H]. split; [now rewrite length_insert|].
  intros p' d' h' w' Hr' Hlt.
  pose proof (offset_bounds a _ _ _ _ Hinv Hr) as B.
  pose proof (offset_bounds a _ _ _ _ Hinv Hr') as B'.
  destruct (decide (offset a p' d' h' w' = offset a p d h w)) as [Eo|Ne].
  - destruct (offset_inj a _ _ _ _ _ _ _ _ Hr' Hr Eo) as (-> & -> & -> & ->).
    apply list_lookup_insert_eq. lia.
  - rewrite list_lookup_insert_ne by lia. apply H; [assumption|lia].
Qed.

Section MatrixMul.
Context `{FL : Floating} {T : Type} {SC : Scalar T}.
Variable NDEBUG : bool.
Variables (σ0 : list (Array4D T)) (l r o : nat) (L R O : Array4D T).
Hypothesis Hl : σ0 !! l = Some L.
Hypothesis Hr : σ0 !! r = Some R.
Hypothesis Ho : σ0 !! o = Some O.
Hypothesis Hol : o <> l.
Hypothesis Hor : o <> r.
Hypothesis WL : wf L.
Hypothesis WR : wf R.
Hypothesis WO : wf O.
Hypothesis HS : matmul_shapes L R O.

(** The store once the vector of the result has become [v]. *)
Local Abbreviation st v := (<[o := set_values_ O v]> σ0).
Local Abbreviation zero := (T_of_float float_zero).
Local Abbreviation dot := (dot_product L R).

Lemma st_result v : st v !! o = Some (set_values_ O v).
Proof. apply list_lookup_insert_eq. now apply lookup_lt_Some in Ho. Qed.

Lemma st_other v k : o <> k -> st v !! k = σ0 !! k.
Proof. intros. now apply list_lookup_insert_ne. Qed.

Lemma st_again v v' : <[o := set_values_ O v']> (st v) = st v'.
Proof. apply list_insert_insert_eq. Qed.

Lemma st_initial : st (values_ O) = σ0.
Proof. rewrite set_values_id. now apply list_insert_id. Qed.

Lemma at_lhs v b d i k :
  in_range L b d i k -> at_ l b d i k (st v) = Ret (elem T_default L b d i k) (st v).
Proof.
  intros H. unfold at_.
  erewrite bind_Ret; [|unfold deref; now rewrite st_other, Hl].
  now rewrite (read_Ok T_default).
Qed.

Lemma at_rhs v b d k j :
  in_range R b d k j -> at_ r b d k j (st v) = Ret (elem T_default R b d k j) (st v).
Proof.
  intros H. unfold at_.
  erewrite bind_Ret; [|unfold deref; now rewrite st_other, Hr].
  now rewrite (read_Ok T_default).
Qed.

Lemma result_write v b d i j x :
  length v = length (values_ O) -> in_range O b d i j ->
  on_object o (write b d i j x) (st v)
  = Ret tt (st (<[Z.to_nat (offset O b d i j) := x]> v)).
Proof.
  intros E H. unfold on_object. rewrite st_result.
  rewrite write_Ret; [|now apply wf_set_values_|exact H].
  f_equal. exact (st_again v _).
Qed.

Lemma result_add_assign v b d i j x y :
  length v = length (values_ O) -> in_range O b d i j ->
  v !! Z.to_nat (offset O b d i j) = Some y ->
  on_object o (add_assign b d i j x) (st v)
  = Ret tt (st (<[Z.to_nat (offset O b d i j) := T_add y x]> v)).
Proof.
  intros E H Hy. unfold on_object. rewrite st_result.
  unfold add_assign. rewrite op_call_Ok; [|now apply wf_set_values_|exact H].
  change (offset (set_values_ O v) b d i j) with (offset O b d i j).
  change (values_ (set_values_ O v)) with v.
  rewrite Hy. f_equal. exact (st_again v _).
Qed.

(** The statements of the innermost two levels: one cell of the result. *)
Lemma cell_Ret v b d i j :
  length v = length (values_ O) -> in_range O b d i j ->
  (on_object o (write b d i j zero) ;;
   for_ (Width L) (fun r' =>
     x ← at_ l b d i r';
     y ← at_ r b d r' j;
     on_object o (add_assign b d i j (T_mul x y)))) (st v)
  = Ret tt (st (<[Z.to_nat (offset O b d i j) := dot b d i j]> v)).
Proof.
  intros E H.
  destruct HS as (S1 & S2 & S3 & S4 & S5 & S6 & S7).
  destruct H as (Hb & Hd & Hi & Hj).
  pose proof (offset_bounds O b d i j (proj1 WO) (conj Hb (conj Hd (conj Hi Hj)))) as B.
  set (k := Z.to_nat (offset O b d i j)) in *.
  set (f := fun acc r' =>
    T_add acc (T_mul (elem T_default L b d i r') (elem T_default R b d r' j))).
  erewrite bind_Ret; [|now apply result_write].
  fold k.
  destruct (for_inv
    (fun n σ => σ = st (<[k := foldl f zero (seqZ 0 n)]> v))
    (fun r' => x ← at_ l b d i r'; y ← at_ r b d r' j;
               on_object o (add_assign b d i j (T_mul x y)))
    (Width L) (st (<[k := zero]> v))) as (σ' & Hrun & Hσ').
  - reflexivity.
  - intros n σ Hn ->. eexists. split.
    + erewrite bind_Ret; [|apply at_lhs; unfold in_range, Width in *; lia].
      erewrite bind_Ret; [|apply at_rhs; unfold in_range, Width in *; lia].
      rewrite (result_add_assign _ _ _ _ _ _ (foldl f zero (seqZ 0 n)));
        [reflexivity|now rewrite length_insert|repeat split; lia|].
      apply list_lookup_insert_eq. lia.
    + fold k. rewrite list_insert_insert_eq.
      rewrite seqZ_snoc by lia. rewrite foldl_snoc. reflexivity.
  - rewrite Hrun, Hσ'. rewrite seqZ_max. reflexivity.
Qed.

Local Abbreviation cell b d i j :=
  (on_object o (write b d i j zero) ;;
   for_ (Width L) (fun r' =>
     x ← at_ l b d i r';
     y ← at_ r b d r' j;
     on_object o (add_assign b d i j (T_mul x y)))).
Local Abbreviation row b d i := (for_ (Width R) (fun j => cell b d i j)).
Local Abbreviation matrix b d := (for_ (Height L) (fun i => row b d i)).
Local Abbreviation batch b := (for_ (Depth O) (fun d => matrix b d)).

(** Each loop fills the cells of its range, in the order of the layout. *)
Lemma row_Ret v b d i :
  0 <= b < planes_ O -> 0 <= d < depth_ O -> 0 <= i < height_ O ->
  filled_below O dot (offset O b d i 0) v ->
  exists v', row b d i (st v) = Ret tt (st v')
             /\ filled_below O dot (offset O b d (i + 1) 0) v'.
Proof.
  intros Hb Hd Hi Hv.
  destruct HS as (S1 & S2 & S3 & S4 & S5 & S6 & S7).
  destruct (for_inv
    (fun j σ => exists v', σ = st v' /\ filled_below O dot (offset O b d i j) v')
    (fun j => cell b d i j) (Width R) (st v)) as (σ' & Hrun & v' & -> & Hv').
  - now exists v.
  - intros j σ Hj (u & -> & Hu). unfold Width in Hj.
    assert (Hin : in_range O b d i j) by (unfold in_range; lia).
    eexists. split; [apply cell_Ret; [apply Hu|exact Hin]|].
    eexists. split; [reflexivity|].
    replace (offset O b d i (j + 1)) with (offset O b d i j + 1)
      by (unfold offset; ring).
    apply filled_below_insert; [apply WO|exact Hin|exact Hu].
  - exists v'. split; [exact Hrun|].
    revert Hv'. apply filled_below_weaken.
    intros p' d' h' w' (_ & _ & _ & Hw) Hlt. unfold Width.
    rewrite Z.max_r by lia.
    replace (offset O b d i (width_ R)) with (offset O b d (i + 1) 0)
      by (unfold offset; rewrite S3; ring).
    exact Hlt.
Qed.

Lemma matrix_Ret v b d :
  0 <= b < planes_ O -> 0 <= d < depth_ O ->
  filled_below O dot (offset O b d 0 0) v ->
  exists v', matrix b d (st v) = Ret tt (st v')
             /\ filled_below O dot (offset O b (d + 1) 0 0) v'.
Proof.
  intros Hb Hd Hv.
  destruct HS as (S1 & S2 & S3 & S4 & S5 & S6 & S7).
  destruct (for_inv
    (fun i σ => exists v', σ = st v' /\ filled_below O dot (offset O b d i 0) v')
    (fun i => row b d i) (Height L) (st v)) as (σ' & Hrun & v' & -> & Hv').
  - now exists v.
  - intros i σ Hi (u & -> & Hu). unfold Height in Hi.
    destruct (row_Ret u b d i) as (u' & Hrow & Hu'); [lia..|exact Hu|].
    eexists. split; [exact Hrow|]. now exists u'.
  - exists v'. split; [exact Hrun|].
    revert Hv'. apply filled_below_weaken.
    intros p' d' h' w' (_ & _ & Hh & _) Hlt. unfold Height.
    rewrite Z.max_r by lia.
    replace (offset O b d (height_ L) 0) with (offset O b (d + 1) 0 0)
      by (unfold offset; rewrite S2; ring).
    exact Hlt.
Qed.

Lemma batch_Ret v b :
  0 <= b < planes_ O ->
  filled_below O dot (offset O b 0 0 0) v ->
  exists v', batch b (st v) = Ret tt (st v')
             /\ filled_below O dot (offset O (b + 1) 0 0 0) v'.
Proof.
  intros Hb Hv.
  destruct (for_inv
    (fun d σ => exists v', σ = st v' /\ filled_below O dot (offset O b d 0 0) v')
    (fun d => matrix b d) (Depth O) (st v)) as (σ' & Hrun & v' & -> & Hv').
  - now exists v.
  - intros d σ Hd (u & -> & Hu). unfold Depth in Hd.
    destruct (matrix_Ret u b d) as (u' & Hm & Hu'); [lia..|exact Hu|].
    eexists. split; [exact Hm|]. now exists u'.
  - exists v'. split; [exact Hrun|].
    revert Hv'. apply filled_below_weaken.
    intros p' d' h' w' (_ & Hd & _ & _) Hlt. unfold Depth.
    rewrite Z.max_r by lia.
    replace (offset O b (depth_ O) 0 0) with (offset O (b + 1) 0 0 0)
      by (unfold offset; ring).
    exact Hlt.
Qed.

Lemma loops_Ret :
  exists v', for_ (Batch O) (fun b => batch b) σ0 = Ret tt (st v')
             /\ length v' = length (values_ O)
             /\ forall b d i j, in_range O b d i j ->
                  v' !! Z.to_nat (offset O b d i j) = Some (dot b d i j).
Proof.
  destruct (for_inv
    (fun b σ => exists v', σ = st v' /\ filled_below O dot (offset O b 0 0 0) v')
    (fun b => batch b) (Batch O) σ0) as (σ' & Hrun & v' & -> & Hv').
  - exists (values_ O). split; [now rewrite st_initial|].
    split; [reflexivity|]. intros p d h w Hin Hlt.
    pose proof (offset_bounds O p d h w (proj1 WO) Hin). unfold offset in *. lia.
  - intros b σ Hb (u & -> & Hu). unfold Batch in Hb.
    destruct (batch_Ret u b) as (u' & Hm & Hu'); [lia|exact Hu|].
    eexists. split; [exact Hm|]. now exists u'.
  - exists v'. split; [exact Hrun|]. destruct Hv' as [E H].
    split; [exact E|]. intros b d i j Hin. apply H; [exact Hin|].
    pose proof (offset_bounds O b d i j (proj1 WO) Hin) as B.
    destruct Hin as (Hb & _). unfold Batch. rewrite Z.max_r by lia.
    rewrite (proj1 WO) in B. unfold offset in *. lia.
Qed.

(** The whole call: every check passes and the loops fill the result. *)
Lemma MatrixMul_Ret :
  exists v', MatrixMul NDEBUG l r o σ0 = Ret tt (st v')
             /\ length v' = length (values_ O)
             /\ forall b d i j, in_range O b d i j ->
                  v' !! Z.to_nat (offset O b d i j) = Some (dot b d i j).
Proof.
  destruct loops_Ret as (v' & Hrun & E & H).
  exists v'. split; [|split; assumption].
  destruct HS as (S1 & S2 & S3 & S4 & S5 & S6 & S7).
  unfold MatrixMul.
  erewrite bind_Ret; [|unfold deref; now rewrite Hl].
  erewrite bind_Ret; [|unfold deref; now rewrite Hr].
  erewrite bind_Ret; [|unfold deref; now rewrite Ho].
  unfold Width, Height, Depth, Batch in *.
  rewrite !(bind_lift_Ok _ _ _ tt) by (apply CHECK_EQ_Ok; assumption).
  rewrite !(bind_lift_Ok _ _ _ tt)
    by (apply assert_true, bool_decide_eq_true; assumption).
  exact Hrun.
Qed.

End MatrixMul.

(** ** Element access, checked *)

(** C8.  [operator()] stops on its bounds checks (IndexOutOfRange) as soon as
    one coordinate is greater than or equal to its dimension; on a
    well-formed container and coordinates in range it returns the element at
    linear index [p*(n2*n3*n4) + d*(n3*n4) + h*n4 + w], which lies inside the
    vector. *)
Theorem op_call_spec `{FL : Floating} {T : Type} {SC : Scalar T}
    (a : Array4D T) (p d h w : Z) :
  (n1 a <= p \/ n2 a <= d \/ n3 a <= h \/ n4 a <= w ->
     op_call a p d h w = Stop IndexOutOfRange) /\
  (wf a -> 0 <= p < n1 a -> 0 <= d < n2 a -> 0 <= h < n3 a -> 0 <= w < n4 a ->
     let i := p * (n2 a * n3 a * n4 a) + d * (n3 a * n4 a) + h * n4 a + w in
     op_call a p d h w = Ok (Z.to_nat i) /\
     0 <= i < num_elements a /\
     read a p d h w = Ok (nth (Z.to_nat i) (flatten a) T_default)).
Proof.
  split.
  - apply op_call_out_of_range.
  - intros Hwf Hp Hd Hh Hw i.
    assert (Hin : in_range a p d h w) by (repeat split; tauto).
    split; [now apply op_call_Ok|].
    split; [apply offset_bounds; [apply Hwf|exact Hin]|].
    now apply (read_Ok T_default).
Qed.

Lemma op_call_spec_witness :
  op_call example_lhs 0 0 1 2 = Ok 5%nat /\ read example_lhs 0 0 1 2 = Ok 6.
Proof.
  destruct (op_call_spec example_lhs 0 0 1 2) as [_ H].
  destruct H as (H1 & _ & H2).
  - unfold wf, invariant, INT64_MAX. cbn. lia.
  - cbn. lia.
  - cbn. lia.
  - cbn. lia.
  - cbn. lia.
  - split; [exact H1 | exact H2].
Defined.

(** C3.  When one of the shape preconditions of [MatrixMul] is violated the
    call stops on a [CHECK_EQ] (ShapeMismatch) and the store it stops in is
    the store it was called in: no element of the result has been written.
    The three arguments may be the same object. *)
Theorem MatrixMul_shape_mismatch `{FL : Floating} {T : Type} {SC : Scalar T}
    (NDEBUG : bool) (σ : list (Array4D T)) (lhs rhs result : nat)
    (L R O : Array4D T) :
  σ !! lhs = Some L -> σ !! rhs = Some R -> σ !! result = Some O ->
  Width L <> Height R \/ Height L <> Height O \/ Width R <> Width O \/
  Depth L <> Depth R \/ Depth R <> Depth O \/
  Batch L <> Batch R \/ Batch R <> Batch O ->
  MatrixMul NDEBUG lhs rhs result σ = Halt ShapeMismatch σ.
Proof.
  intros Hl Hr Ho Hbad. unfold MatrixMul.
  erewrite bind_Ret; [|unfold deref; now rewrite Hl].
  erewrite bind_Ret; [|unfold deref; now rewrite Hr].
  erewrite bind_Ret; [|unfold deref; now rewrite Ho].
  unfold CHECK_EQ.
  repeat match goal with
  | |- context [decide (?x = ?y)] =>
      destruct (decide (x = y)); [rewrite (bind_lift_Ok _ _ _ tt) by reflexivity|reflexivity]
  end.
  exfalso. tauto.
Qed.

Lemma MatrixMul_shape_mismatch_witness :
  MatrixMul false 0 0 1 [example_lhs; example_result 9 9 9 9]
  = Halt ShapeMismatch [example_lhs; example_result 9 9 9 9].
Proof.
  apply (MatrixMul_shape_mismatch false _ 0%nat 0%nat 1%nat
           example_lhs example_lhs (example_result 9 9 9 9)).
  - reflexivity.
  - reflexivity.
  - reflexivity.
  - left. cbn. lia.
Defined.

(** Every position of the vector is the linear index of a coordinate. *)
Lemma offset_surj {T} (a : Array4D T) q :
  0 <= planes_ a -> 0 <= depth_ a -> 0 <= height_ a -> 0 <= width_ a ->
  0 <= q < planes_ a * depth_ a * height_ a * width_ a ->
  exists p d h w, in_range a p d h w /\ offset a p d h w = q.
Proof.
  intros H1 H2 H3 H4 Hq.
  assert (P4 : 0 < width_ a) by nia.
  assert (P3 : 0 < height_ a) by nia.
  assert (P2 : 0 < depth_ a) by nia.
  set (q1 := q / width_ a). set (w := q mod width_ a).
  set (q2 := q1 / height_ a). set (h := q1 mod height_ a).
  set (p := q2 / depth_ a). set (d := q2 mod depth_ a).
  assert (Ew : q = q1 * width_ a + w)
    by (unfold q1, w; rewrite (Z.mul_comm _ (width_ a)); apply Z.div_mod; lia).
  assert (Eh : q1 = q2 * height_ a + h)
    by (unfold q2, h; rewrite (Z.mul_comm _ (height_ a)); apply Z.div_mod; lia).
  assert (Ed : q2 = p * depth_ a + d)
    by (unfold p, d; rewrite (Z.mul_comm _ (depth_ a)); apply Z.div_mod; lia).
  assert (Bw : 0 <= w < width_ a) by (apply Z.mod_pos_bound; lia).
  assert (Bh : 0 <= h < height_ a) by (apply Z.mod_pos_bound; lia).
  assert (Bd : 0 <= d < depth_ a) by (apply Z.mod_pos_bound; lia).
  assert (B1 : 0 <= q1 < planes_ a * depth_ a * height_ a).
  { split; [apply Z.div_pos; lia|]. apply Z.div_lt_upper_bound; [lia|].
    rewrite Z.mul_comm. lia. }
  assert (B2 : 0 <= q2 < planes_ a * depth_ a).
  { split; [apply Z.div_pos; lia|]. apply Z.div_lt_upper_bound; [lia|].
    rewrite Z.mul_comm. lia. }
  assert (Bp : 0 <= p < planes_ a).
  { split; [apply Z.div_pos; lia|]. apply Z.div_lt_upper_bound; [lia|].
    rewrite Z.mul_comm. lia. }
  exists p, d, h, w. split; [repeat split; lia|].
  rewrite offset_horner. rewrite <- Ed, <- Eh, <- Ew. reflexivity.
Qed.

(** A vector filled cell by cell is determined by the values of the cells. *)
Lemma filled_determined {T} (a : Array4D T) (F : Z -> Z -> Z -> Z -> T) (v v' : list T) :
  invariant a ->
  0 <= planes_ a -> 0 <= depth_ a -> 0 <= height_ a -> 0 <= width_ a ->
  length v = length (values_ a) -> length v' = length (values_ a) ->
  (forall p d h w, in_range a p d h w -> v !! Z.to_nat (offset a p d h w) = Some (F p d h w)) ->
  (forall p d h w, in_range a p d h w -> v' !! Z.to_nat (offset a p d h w) = Some (F p d h w)) ->
  v = v'.
Proof.
  intros Hinv H1 H2 H3 H4 E E' Hv Hv'.
  apply list_eq. intros i.
  destruct (decide (i < length (values_ a))%nat) as [Hi|Hi].
  - destruct (offset_surj a (Z.of_nat i)) as (p & d & h & w & Hin & Eo); try assumption.
    { rewrite <- Hinv. lia. }
    specialize (Hv p d h w Hin). specialize (Hv' p d h w Hin).
    rewrite Eo, Nat2Z.id in Hv, Hv'. congruence.
  - rewrite !lookup_ge_None_2 by lia. reflexivity.
Qed.

(** C1 (as stated, refuted).  The claim quantifies over every triple of
    operands that satisfies the shape preconditions.  [MatrixMul] takes its
    operands by reference, and nothing keeps a caller from passing one
    object as [rhs] and as [result]: with [lhs] the 2x2 matrix of ones and
    that object another 2x2 matrix of ones, every shape check passes, each
    cell is cleared before it is read as an operand, and the call leaves
    [[1,1],[2,2]] in [result]; its first cell is 1, where the product of
    the operands has 2 before the call and 3 after it. *)
Lemma MatrixMul_aliased_counterexample :
  let ones : Array4D Z := mkArray4D 1 1 2 2 [1; 1; 1; 1] in
  let after : Array4D Z := mkArray4D 1 1 2 2 [1; 1; 2; 2] in
  wf ones /\ matmul_shapes ones ones ones /\ in_range ones 0 0 0 0
  /\ MatrixMul false 0 1 1 [ones; ones] = Ret tt [ones; after]
  /\ read after 0 0 0 0 = Ok 1
  /\ dot_product ones ones 0 0 0 0 = 2
  /\ dot_product ones after 0 0 0 0 = 3
  /\ ~ (exists σ' L' R' O',
          MatrixMul false 0 1 1 [ones; ones] = Ret tt σ'
          /\ σ' !! 0%nat = Some L' /\ σ' !! 1%nat = Some R' /\ σ' !! 1%nat = Some O'
          /\ (read O' 0 0 0 0 = Ok (dot_product ones ones 0 0 0 0)
              \/ read O' 0 0 0 0 = Ok (dot_product L' R' 0 0 0 0))).
Proof.
  cbv zeta. split; [|split; [|split; [|split; [|split; [|split; [|split]]]]]].
  - unfold wf, invariant, INT64_MAX. cbn. lia.
  - repeat split.
  - unfold in_range. cbn. lia.
  - reflexivity.
  - reflexivity.
  - reflexivity.
  - reflexivity.
  - intros (σ' & L' & R' & O' & Hrun & HL & HR & HO & Hread).
    vm_compute in Hrun. injection Hrun as <-.
    injection HL as <-. injection HR as <-. injection HO as <-.
    vm_compute in Hread. destruct Hread; discriminate.
Qed.

(** On integers the accumulation is the sum of the products. *)
Lemma foldl_add_sum {A} (f : A -> Z) (l : list A) (acc : Z) :
  foldl (fun acc r => acc + f r) acc l = acc + foldr Z.add 0 (f <$> l).
Proof.
  revert acc. induction l as [|x l IH]; intros acc; cbn; [lia|].
  rewrite IH. lia.
Qed.

Lemma dot_product_sum (lhs rhs : Array4D Z) b d i j :
  dot_product lhs rhs b d i j
  = foldr Z.add 0 ((fun r => elem 0 lhs b d i r * elem 0 rhs b d r j) <$> seqZ 0 (width_ lhs)).
Proof.
  unfold dot_product.
  change (T_of_float float_zero) with 0.
  change (@T_default _ Z _) with 0.
  rewrite (foldl_add_sum (fun r => elem 0 lhs b d i r * elem 0 rhs b d r j)). lia.
Qed.

(** C1 (amended).  For operands that satisfy the shape preconditions, with
    [result] an object other than [lhs] and [rhs], [MatrixMul] returns, keeps
    the shape of [result] and leaves in each of its cells the sum over [r] of
    [lhs(b,d,i,r) * rhs(b,d,r,j)], accumulated from zero: the former contents
    of [result] do not appear, and two calls that differ only in these end in
    the same store.  On integer elements the accumulated value is the sum
    of the products.  For the 2x3 matrix [[1,2,3],[4,5,6]] and the
    3x2 matrix [[7,8],[9,10],[11,12]] the result is [[58,64],[139,154]]
    whatever it held before. *)
Theorem MatrixMul_correct :
  (forall `{FL : Floating} {T : Type} {SC : Scalar T} (NDEBUG : bool)
          (σ : list (Array4D T)) (lhs rhs result : nat) (L R O : Array4D T),
     σ !! lhs = Some L -> σ !! rhs = Some R -> σ !! result = Some O ->
     result <> lhs -> result <> rhs ->
     wf L -> wf R -> wf O -> matmul_shapes L R O ->
     exists O',
       MatrixMul NDEBUG lhs rhs result σ = Ret tt (<[result := O']> σ)
       /\ same_shape O' O /\ wf O'
       /\ forall b d i j, in_range O b d i j ->
            read O' b d i j = Ok (dot_product L R b d i j))
  /\
  (forall `{FL : Floating} {T : Type} {SC : Scalar T} (NDEBUG : bool)
          (σ : list (Array4D T)) (lhs rhs result : nat) (L R O O2 : Array4D T),
     σ !! lhs = Some L -> σ !! rhs = Some R -> σ !! result = Some O ->
     result <> lhs -> result <> rhs ->
     wf L -> wf R -> wf O -> matmul_shapes L R O ->
     0 <= n1 O -> 0 <= n2 O -> 0 <= n3 O -> 0 <= n4 O ->
     wf O2 -> same_shape O2 O ->
     exists O',
       MatrixMul NDEBUG lhs rhs result σ = Ret tt (<[result := O']> σ)
       /\ MatrixMul NDEBUG lhs rhs result (<[result := O2]> σ)
          = Ret tt (<[result := O']> σ))
  /\
  (forall (lhs rhs : Array4D Z) b d i j,
     dot_product lhs rhs b d i j
     = foldr Z.add 0
         ((fun r => elem 0 lhs b d i r * elem 0 rhs b d r j) <$> seqZ 0 (width_ lhs)))
  /\
  (forall (NDEBUG : bool) (x1 x2 x3 x4 : Z),
     MatrixMul NDEBUG 0 1 2 [example_lhs; example_rhs; example_result x1 x2 x3 x4]
     = Ret tt [example_lhs; example_rhs; example_result 58 64 139 154]).
Proof.
  split; [|split; [|split]].
  - intros FL T SC NDEBUG σ lhs rhs result L R O Hl Hr Ho Hol Hor WL WR WO HS.
    destruct (MatrixMul_Ret NDEBUG σ lhs rhs result L R O Hl Hr Ho Hol Hor WL WR WO HS)
      as (v' & Hrun & E & H).
    exists (set_values_ O v'). split; [exact Hrun|].
    split; [repeat split|].
    assert (W' : wf (set_values_ O v')) by now apply wf_set_values_.
    split; [exact W'|].
    intros b d i j Hin. unfold read.
    rewrite op_call_Ok by assumption. cbn [mbind outcome_bind].
    unfold load.
    change (offset (set_values_ O v') b d i j) with (offset O b d i j).
    change (values_ (set_values_ O v')) with v'.
    now rewrite (H b d i j Hin).
  - intros FL T SC NDEBUG σ lhs rhs result L R O O2 Hl Hr Ho Hol Hor WL WR WO HS
      N1 N2 N3 N4 WO2 Hsame.
    destruct (MatrixMul_Ret NDEBUG σ lhs rhs result L R O Hl Hr Ho Hol Hor WL WR WO HS)
      as (v & Hrun & E & H).
    pose proof (lookup_lt_Some _ _ _ Ho) as Hlt.
    destruct O as [p d h w vO], O2 as [p2 d2 h2 w2 vO2].
    destruct Hsame as (E1 & E2 & E3 & E4). cbn in E1, E2, E3, E4. subst p2 d2 h2 w2.
    destruct (MatrixMul_Ret NDEBUG (<[result := mkArray4D p d h w vO2]> σ)
                lhs rhs result L R (mkArray4D p d h w vO2)) as (v2 & Hrun2 & E' & H');
      try assumption.
    { now rewrite list_lookup_insert_ne. }
    { now rewrite list_lookup_insert_ne. }
    { now apply list_lookup_insert_eq. }
    rewrite list_insert_insert_eq in Hrun2.
    assert (Ev : v2 = v).
    { apply (filled_determined (mkArray4D p d h w vO) (dot_product L R));
        try assumption; try apply WO.
      destruct WO as [I1 _], WO2 as [I2 _]. unfold invariant in I1, I2. cbn in *. lia. }
    subst v2. exists (set_values_ (mkArray4D p d h w vO) v).
    split; [exact Hrun|exact Hrun2].
  - apply dot_product_sum.
  - intros [] x1 x2 x3 x4; reflexivity.
Qed.

Lemma MatrixMul_correct_witness :
  exists O',
    MatrixMul false 0 1 2 [example_lhs; example_rhs; example_result 0 0 0 0]
    = Ret tt (<[2%nat := O']> [example_lhs; example_rhs; example_result 0 0 0 0])
    /\ read O' 0 0 1 1 = Ok (dot_product example_lhs example_rhs 0 0 1 1).
Proof.
  destruct (proj1 MatrixMul_correct Q_floating Z Z_scalar false
              [example_lhs; example_rhs; example_result 0 0 0 0]
              0%nat 1%nat 2%nat example_lhs example_rhs (example_result 0 0 0 0))
    as (O' & Hrun & _ & _ & H).
  - reflexivity.
  - reflexivity.
  - reflexivity.
  - lia.
  - lia.
  - unfold wf, invariant, INT64_MAX. cbn. lia.
  - unfold wf, invariant, INT64_MAX. cbn. lia.
  - unfold wf, invariant, INT64_MAX. cbn. lia.
  - repeat split.
  - exists O'. split; [exact Hrun|]. apply H. unfold in_range. cbn. lia.
Defined.

(** ** Triples *)

Section Hoare.
Context {S : Type}.
Implicit Types I E : S -> Prop.

Lemma hoare_bind {A B} I (m : M S A) (f : A -> M S B) Q Q' E :
  hoare I m Q E -> (forall a, hoare (Q a) (f a) Q' E) -> hoare I (m ≫= f) Q' E.
Proof.
  intros Hm Hf s Hs. specialize (Hm s Hs). unfold mbind, M_bind.
  destruct (m s) as [a s'| |]; [|assumption..]. now apply Hf.
Qed.

Lemma hoare_ret {A} I (a : A) (Q : A -> S -> Prop) E :
  (forall s, I s -> Q a s) -> hoare I (mret a) Q E.
Proof. intros H s Hs. now apply H. Qed.

Lemma hoare_get I E : hoare I get (fun a s => a = s /\ I s) E.
Proof. intros s Hs. now split. Qed.

Lemma hoare_lift {A} I (o : outcome A) E :
  o <> Undefined -> (forall s, I s -> E s) ->
  hoare I (lift o) (fun a s => o = Ok a /\ I s) E.
Proof.
  intros Ho HE s Hs. unfold lift. destruct o; [now split|now apply HE|congruence].
Qed.

Lemma hoare_pre I I' {A} (m : M S A) Q E :
  (forall s, I' s -> I s) -> hoare I m Q E -> hoare I' m Q E.
Proof. intros H Hm s Hs. apply Hm. now apply H. Qed.

Lemma hoare_post I {A} (m : M S A) (Q Q' : A -> S -> Prop) E E' :
  (forall a s, Q a s -> Q' a s) -> (forall s, E s -> E' s) ->
  hoare I m Q E -> hoare I m Q' E'.
Proof.
  intros HQ HE Hm s Hs. specialize (Hm s Hs).
  destruct (m s); [now apply HQ|now apply HE|assumption].
Qed.

Lemma hoare_for_from I E (body : Z -> M S unit) count k :
  (forall j, k <= j < k + Z.of_nat count -> hoare I (body j) (fun _ => I) E) ->
  hoare I (for_from count k body) (fun _ => I) E.
Proof.
  revert k. induction count as [|c IH]; intros k Hb.
  - now apply hoare_ret.
  - cbn [for_from]. eapply hoare_bind; [apply Hb; lia|].
    intros u. apply IH. intros j Hj. apply Hb. lia.
Qed.

Lemma hoare_for I E (body : Z -> M S unit) n :
  (forall j, 0 <= j < n -> hoare I (body j) (fun _ => I) E) ->
  hoare I (for_ n body) (fun _ => I) E.
Proof. intros Hb. apply hoare_for_from. intros j Hj. apply Hb. lia. Qed.

Lemma hoare_foreach {A} I E (body : Z -> A -> M S unit) (l : list A) k :
  (forall j x, k <= j -> hoare I (body j x) (fun _ => I) E) ->
  hoare I (foreach l k body) (fun _ => I) E.
Proof.
  revert k. induction l as [|x l IH]; intros k Hb.
  - now apply hoare_ret.
  - cbn [foreach]. eapply hoare_bind; [apply Hb; lia|].
    intros u. apply IH. intros j y Hj. apply Hb. lia.
Qed.
End Hoare.

(** ** Constructors and member functions keep the container well formed *)

Section Invariant.
Context `{FL : Floating} {T : Type} {SC : Scalar T} {RN : Random}.
Variable NDEBUG : bool.
Implicit Types a : Array4D T.

Lemma product4_Ok p d h w n :
  product4 p d h w = Ok n -> n = p * d * h * w /\ in_int64 n.
Proof.
  unfold product4, mul64, int64.
  destruct (decide (in_int64 (p * d))); [|discriminate]. cbn [mbind outcome_bind].
  destruct (decide (in_int64 (p * d * h))); [|discriminate]. cbn [mbind outcome_bind].
  destruct (decide (in_int64 (p * d * h * w))); [|discriminate].
  intros [= <-]. auto.
Qed.

Lemma product4_no_overflow p d h w :
  in_int64 (p * d) -> in_int64 (p * d * h) -> in_int64 (p * d * h * w) ->
  product4 p d h w = Ok (p * d * h * w).
Proof.
  intros H1 H2 H3. unfold product4.
  rewrite mul64_Ok by assumption. cbn [mbind outcome_bind].
  rewrite mul64_Ok by assumption. cbn [mbind outcome_bind].
  now apply mul64_Ok.
Qed.

Lemma vector_fill_Ok n (x : T) v :
  vector_fill n x = Ok v -> Z.of_nat (length v) = n /\ n <= INT64_MAX.
Proof.
  unfold vector_fill. destruct (decide (0 <= n <= vector_max_size)); [|discriminate].
  intros [= <-]. rewrite length_replicate.
  pose proof (vector_max_size_int64 (T := T)). lia.
Qed.

Lemma allocated_wf p d h w (x : T) :
  establishes (n ← product4 p d h w; v ← vector_fill n x;
               Ok (mkArray4D p d h w v)).
Proof.
  destruct (product4 p d h w) as [n| |] eqn:En; cbn; [|exact I..].
  destruct (vector_fill n x) as [v| |] eqn:Ev; cbn; [|exact I..].
  apply product4_Ok in En as [-> _]. apply vector_fill_Ok in Ev as [El Hm].
  split; [exact El|]. cbn. lia.
Qed.

Lemma Array4D_sized_wf p d h w : establishes (Array4D_sized (T:=T) p d h w).
Proof. apply allocated_wf. Qed.

Lemma Array4D_filled_wf p d h w (x : T) : establishes (Array4D_filled p d h w x).
Proof. apply allocated_wf. Qed.

(** On dimensions that are not negative, whose product is computed without
    overflow and can be allocated, the sized constructors return. *)
Lemma allocated_Ok p d h w (x : T) :
  0 <= p -> 0 <= d -> 0 <= h -> 0 <= w ->
  in_int64 (p * d) -> in_int64 (p * d * h) -> p * d * h * w <= vector_max_size (T := T) ->
  (n ← product4 p d h w; v ← vector_fill n x; Ok (mkArray4D p d h w v))
  = Ok (mkArray4D p d h w (replicate (Z.to_nat (p * d * h * w)) x)).
Proof.
  intros Hp Hd Hh Hw O1 O2 O3.
  pose proof (vector_max_size_int64 (T := T)) as Hmax.
  assert (Hnn : 0 <= p * d * h * w) by (repeat apply Z.mul_nonneg_nonneg; assumption).
  rewrite product4_no_overflow;
    [|assumption|assumption|unfold in_int64, INT64_MIN in *; lia].
  cbn [mbind outcome_bind]. unfold vector_fill.
  rewrite decide_True by lia. reflexivity.
Qed.

Lemma Array4D_of_vector_wf p d h w (input : list T) : establishes (Array4D_of_vector p d h w input).
Proof.
  unfold Array4D_of_vector.
  destruct (product4 p d h w) as [n| |] eqn:En; cbn; [|exact I..].
  unfold CHECK_EQ. destruct (decide (n = Z.of_nat (length input))) as [E|]; cbn; [|exact I].
  apply product4_Ok in En as [En Hn]. split.
  - unfold invariant. cbn. lia.
  - cbn. unfold in_int64 in Hn. lia.
Qed.

End Invariant.

Section Members.
Context `{FL : Floating} {T : Type} {SC : Scalar T} {RN : Random}.
Variable NDEBUG : bool.
Implicit Types a : Array4D T.

Lemma shaped_refl a : wf a -> shaped a a.
Proof. intros H. repeat split; apply H. Qed.

Lemma shaped_set_values_ a0 a v :
  shaped a0 a -> length v = length (values_ a) -> shaped a0 (set_values_ a v).
Proof.
  intros (Hwf & Hsh & El) E. split; [now apply wf_set_values_|].
  split; [exact Hsh|]. cbn. congruence.
Qed.

Lemma shaped_in_range a0 a p d h w : shaped a0 a -> in_range a0 p d h w -> in_range a p d h w.
Proof.
  intros (_ & (E1 & E2 & E3 & E4) & _) H. unfold in_range.
  rewrite E1, E2, E3, E4. exact H.
Qed.

Lemma preserves_of_hoare (m : M (Array4D T) unit) :
  (forall a0, wf a0 -> hoare (shaped a0) m (fun _ => shaped a0) (shaped a0)) ->
  preserves m.
Proof.
  intros H a Hwf. specialize (H a Hwf a (shaped_refl a Hwf)).
  destruct (m a); [| |exact H]; destruct H as (? & ? & ?); auto.
Qed.

Lemma returns_of_hoare (m : M (Array4D T) unit) :
  (forall a0, wf a0 -> hoare (shaped a0) m (fun _ => shaped a0) (fun _ => False)) ->
  returns m /\ preserves m.
Proof.
  intros H. split.
  - intros a Hwf. specialize (H a Hwf a (shaped_refl a Hwf)).
    destruct (m a) as [[] a'| |]; [now exists a'|contradiction..].
  - apply preserves_of_hoare. intros a0 Hwf.
    eapply hoare_post; [| |apply H; exact Hwf]; [auto|contradiction].
Qed.

(** A write at non-negative coordinates either passes the bounds checks,
    and then stays inside the vector, or stops on one of them. *)
Lemma hoare_write a0 p d h w x :
  0 <= p -> 0 <= d -> 0 <= h -> 0 <= w ->
  hoare (shaped a0) (write p d h w x) (fun _ => shaped a0) (shaped a0).
Proof.
  intros Hp Hd Hh Hw a Ha. unfold write.
  destruct (decide (p < planes_ a /\ d < depth_ a /\ h < height_ a /\ w < width_ a))
    as [Hin|Hout].
  - rewrite op_call_Ok; [|apply Ha|unfold in_range; lia].
    apply shaped_set_values_; [exact Ha|apply length_insert].
  - rewrite op_call_out_of_range by lia. exact Ha.
Qed.

Lemma hoare_write_in_range a0 p d h w x :
  in_range a0 p d h w ->
  hoare (shaped a0) (write p d h w x) (fun _ => shaped a0) (fun _ => False).
Proof.
  intros Hin a Ha. unfold write.
  rewrite op_call_Ok; [|apply Ha|now apply (shaped_in_range a0)].
  apply shaped_set_values_; [exact Ha|apply length_insert].
Qed.

Lemma vec_at_Ok (v : list T) i :
  0 <= i < Z.of_nat (length v) -> exists x, vec_at v i = Ok x.
Proof.
  intros Hi. unfold vec_at, subscript. rewrite decide_True by assumption.
  cbn [mbind outcome_bind].
  destruct (lookup_lt_is_Some_2 v (Z.to_nat i)) as [x ->]; [lia|]. now exists x.
Qed.

Lemma hoare_vec_update a0 i f :
  0 <= i < Z.of_nat (length (values_ a0)) ->
  hoare (shaped a0) (vec_update i f) (fun _ => shaped a0) (fun _ => False).
Proof.
  intros Hi a Ha. unfold vec_update.
  destruct (vec_at_Ok (values_ a) i) as [x ->].
  { destruct Ha as (_ & _ & ->). exact Hi. }
  apply shaped_set_values_; [exact Ha|apply length_insert].
Qed.

Lemma Array2D_at_Ok (m : Array2D T) row col :
  wf2 m -> 0 <= row < a2_height m -> 0 <= col < a2_width m ->
  exists x, Array2D_at m row col = Ok x.
Proof.
  intros Hm Hr Hc. unfold Array2D_at. rewrite decide_True by tauto.
  destruct (lookup_lt_is_Some_2 (a2_values m) (Z.to_nat (row * a2_width m + col)))
    as [x ->]; [|now exists x].
  unfold wf2 in Hm. nia.
Qed.

(** *** The member functions *)

Lemma SetValues_preserves (container : list T) : preserves (SetValues container).
Proof.
  intros a Hwf. unfold SetValues, CHECK_EQ, num_elements.
  destruct (decide _) as [E|].
  - split; [|repeat split]. apply wf_set_values_; [exact Hwf|lia].
  - split; [exact Hwf|repeat split].
Qed.

Lemma length_iota (l : list T) x : length (iota l x) = length l.
Proof. revert x. induction l; intros x; cbn; auto. Qed.

Lemma length_random_fill (l : list T) dist g : length (random_fill l dist g) = length l.
Proof.
  revert dist g. induction l as [|y l IH]; intros dist g; cbn; [reflexivity|].
  destruct (normal_distribution_call dist g) as [x [dist' g']]. cbn. now rewrite IH.
Qed.

Lemma Fill_wf value a : wf a -> wf (Fill value a) /\ same_shape (Fill value a) a.
Proof.
  intros H. split; [|repeat split]. apply wf_set_values_; [exact H|apply length_fmap].
Qed.

Lemma FillIota_wf value a : wf a -> wf (FillIota value a) /\ same_shape (FillIota value a) a.
Proof.
  intros H. split; [|repeat split]. apply wf_set_values_; [exact H|apply length_iota].
Qed.

Lemma FillRandom_wf value mean seed a :
  wf a -> wf (FillRandom value mean seed a) /\ same_shape (FillRandom value mean seed a) a.
Proof.
  intros H. split; [|repeat split].
  apply wf_set_values_; [exact H|apply length_random_fill].
Qed.

Lemma FillWithMultiples_preserves multiplier :
  returns (FillWithMultiples multiplier) /\ preserves (FillWithMultiples multiplier).
Proof.
  apply returns_of_hoare. intros a0 Hwf a Ha. unfold FillWithMultiples.
  rewrite bind_get. apply (hoare_for (shaped a0)); [|exact Ha].
  intros i Hi. apply hoare_vec_update.
  unfold num_elements in Hi. destruct Ha as (_ & _ & <-). exact Hi.
Qed.

Lemma mul_preserves multiplier : returns (mul multiplier) /\ preserves (mul multiplier).
Proof.
  apply returns_of_hoare. intros a0 Hwf a Ha. unfold mul.
  rewrite bind_get. apply (hoare_for (shaped a0)); [|exact Ha].
  intros i Hi. apply hoare_vec_update.
  unfold num_elements in Hi. destruct Ha as (_ & _ & <-). exact Hi.
Qed.

End Members.

Section Loops.
Context `{FL : Floating} {T : Type} {SC : Scalar T}.
Variable NDEBUG : bool.
Implicit Types a : Array4D T.

Lemma FillWithYX_preserves (value : Array2D T) :
  wf2 value -> preserves (FillWithYX value).
Proof.
  intros Hv. apply preserves_of_hoare. intros a0 Hwf a Ha. unfold FillWithYX.
  rewrite bind_get. unfold CHECK_EQ, height, width, planes, depth.
  destruct (decide (a2_height value = height_ a)) as [Eh|]; [|exact Ha].
  rewrite (bind_lift_Ok _ _ _ tt) by reflexivity.
  destruct (decide (a2_width value = width_ a)) as [Ew|]; [|exact Ha].
  rewrite (bind_lift_Ok _ _ _ tt) by reflexivity.
  assert (Hsh : same_shape a a0) by apply Ha.
  destruct Hsh as (E1 & E2 & E3 & E4).
  eapply (hoare_post (shaped a0) _ (fun _ => shaped a0) _ (fun _ => False));
    [auto|contradiction| |exact Ha].
  apply hoare_for; intros p Hp. apply hoare_for; intros d Hd.
  apply hoare_for; intros h Hh. apply hoare_for; intros w Hw.
  destruct (Array2D_at_Ok value h w Hv) as [x Hx]; [lia..|].
  intros s Hs. rewrite (bind_lift_Ok _ _ _ x) by exact Hx.
  apply (hoare_write_in_range a0); [|exact Hs].
  unfold in_range. lia.
Qed.

Lemma FillWithPZ_preserves (value : Array2D T) :
  wf2 value -> preserves (FillWithPZ value).
Proof.
  intros Hv. apply preserves_of_hoare. intros a0 Hwf a Ha. unfold FillWithPZ.
  rewrite bind_get. unfold CHECK_EQ, height, width, planes, depth.
  destruct (decide (a2_height value = planes_ a)) as [Eh|]; [|exact Ha].
  rewrite (bind_lift_Ok _ _ _ tt) by reflexivity.
  destruct (decide (a2_width value = depth_ a)) as [Ew|]; [|exact Ha].
  rewrite (bind_lift_Ok _ _ _ tt) by reflexivity.
  assert (Hsh : same_shape a a0) by apply Ha.
  destruct Hsh as (E1 & E2 & E3 & E4).
  eapply (hoare_post (shaped a0) _ (fun _ => shaped a0) _ (fun _ => False));
    [auto|contradiction| |exact Ha].
  apply hoare_for; intros h Hh. apply hoare_for; intros w Hw.
  apply hoare_for; intros p Hp. apply hoare_for; intros d Hd.
  destruct (Array2D_at_Ok value p d Hv) as [x Hx]; [lia..|].
  intros s Hs. rewrite (bind_lift_Ok _ _ _ x) by exact Hx.
  apply (hoare_write_in_range a0); [|exact Hs].
  unfold in_range. lia.
Qed.

(** With the sizes the checks ask for, the two broadcasts return. *)
Lemma FillWithYX_returns (value : Array2D T) a :
  wf2 value -> wf a ->
  a2_height value = height a -> a2_width value = width a ->
  exists a', FillWithYX value a = Ret tt a' /\ wf a' /\ same_shape a' a.
Proof.
  intros Hv Hwf Eh Ew. unfold FillWithYX, height, width, planes, depth in *.
  rewrite bind_get.
  rewrite !(bind_lift_Ok _ _ _ tt) by (now apply CHECK_EQ_Ok).
  assert (Hloops : hoare (shaped a)
    (for_ (planes_ a) (fun plane =>
       for_ (depth_ a) (fun depth =>
         for_ (height_ a) (fun height =>
           for_ (width_ a) (fun width =>
             x ← lift (Array2D_at value height width);
             write plane depth height width x)))))
    (fun _ => shaped a) (fun _ => False)).
  { apply hoare_for; intros p Hp. apply hoare_for; intros d Hd.
    apply hoare_for; intros h Hh. apply hoare_for; intros w Hw.
    destruct (Array2D_at_Ok value h w Hv) as [x Hx]; [lia..|].
    intros s Hs. rewrite (bind_lift_Ok _ _ _ x) by exact Hx.
    apply (hoare_write_in_range a); [|exact Hs]. unfold in_range. lia. }
  specialize (Hloops a (shaped_refl a Hwf)).
  destruct (for_ (planes_ a) _ a) as [[] a'| |]; [|contradiction..].
  exists a'. split; [reflexivity|]. split; apply Hloops.
Qed.

Lemma FillWithPZ_returns (value : Array2D T) a :
  wf2 value -> wf a ->
  a2_height value = planes a -> a2_width value = depth a ->
  exists a', FillWithPZ value a = Ret tt a' /\ wf a' /\ same_shape a' a.
Proof.
  intros Hv Hwf Eh Ew. unfold FillWithPZ, height, width, planes, depth in *.
  rewrite bind_get.
  rewrite !(bind_lift_Ok _ _ _ tt) by (now apply CHECK_EQ_Ok).
  assert (Hloops : hoare (shaped a)
    (for_ (height_ a) (fun height =>
       for_ (width_ a) (fun width =>
         for_ (planes_ a) (fun plane =>
           for_ (depth_ a) (fun depth =>
             x ← lift (Array2D_at value plane depth);
             write plane depth height width x)))))
    (fun _ => shaped a) (fun _ => False)).
  { apply hoare_for; intros h Hh. apply hoare_for; intros w Hw.
    apply hoare_for; intros p Hp. apply hoare_for; intros d Hd.
    destruct (Array2D_at_Ok value p d Hv) as [x Hx]; [lia..|].
    intros s Hs. rewrite (bind_lift_Ok _ _ _ x) by exact Hx.
    apply (hoare_write_in_range a); [|exact Hs]. unfold in_range. lia. }
  specialize (Hloops a (shaped_refl a Hwf)).
  destruct (for_ (height_ a) _ a) as [[] a'| |]; [|contradiction..].
  exists a'. split; [reflexivity|]. split; apply Hloops.
Qed.

Lemma SetValues_returns (container : list T) a :
  Z.of_nat (length container) = num_elements a ->
  SetValues container a = Ret tt (set_values_ a container).
Proof. intros E. unfold SetValues. now rewrite CHECK_EQ_Ok. Qed.

Lemma FillWithMinorDimNum_preserves :
  returns (FillWithMinorDimNum (T := T)) /\ preserves (FillWithMinorDimNum (T := T)).
Proof.
  apply returns_of_hoare. intros a0 Hwf a Ha. unfold FillWithMinorDimNum.
  rewrite bind_get. unfold height, width, planes, depth.
  assert (Hsh : same_shape a a0) by apply Ha.
  destruct Hsh as (E1 & E2 & E3 & E4).
  apply (hoare_for (shaped a0)); [|exact Ha]. intros h Hh.
  apply hoare_for; intros w Hw.
  apply hoare_for; intros p Hp. apply hoare_for; intros d Hd.
  assert (B0 : 0 <= p * depth_ a) by (apply Z.mul_nonneg_nonneg; lia).
  assert (B1 : (p + 1) * depth_ a <= planes_ a * depth_ a)
    by (apply Z.mul_le_mono_nonneg_r; lia).
  assert (B : 0 <= p * depth_ a /\ p * depth_ a + d < planes_ a * depth_ a) by lia.
  assert (N : planes_ a * depth_ a <= INT64_MAX).
  { destruct Ha as ((Hinv & Hmax) & _). rewrite Hinv in Hmax.
    assert (1 <= height_ a * width_ a) by nia.
    assert (planes_ a * depth_ a * 1 <= planes_ a * depth_ a * (height_ a * width_ a))
      by (apply Z.mul_le_mono_nonneg_l; lia).
    lia. }
  intros s Hs.
  rewrite (bind_lift_Ok _ _ _ (p * depth_ a))
    by (apply mul64_Ok; eapply in_int64_between; [|exact N]; lia).
  rewrite (bind_lift_Ok _ _ _ (p * depth_ a + d))
    by (apply add64_Ok; eapply in_int64_between; [|exact N]; lia).
  apply (hoare_write_in_range a0); [|exact Hs].
  unfold in_range. lia.
Qed.

Lemma operator_mul_preserves (rhs : Array4D T) :
  invariant rhs -> preserves (operator_mul NDEBUG rhs).
Proof.
  intros Hrhs. apply preserves_of_hoare. intros a0 Hwf a Ha. unfold operator_mul.
  rewrite bind_get. unfold size. cbn [nth].
  destruct (bool_decide (planes_ rhs = planes_ a)) eqn:E1; cbn [andb];
    [apply bool_decide_eq_true in E1|destruct NDEBUG; exact Ha].
  destruct (bool_decide (depth_ rhs = depth_ a)) eqn:E2; cbn [andb];
    [apply bool_decide_eq_true in E2|destruct NDEBUG; exact Ha].
  destruct (bool_decide (height_ rhs = height_ a)) eqn:E3; cbn [andb];
    [apply bool_decide_eq_true in E3|destruct NDEBUG; exact Ha].
  destruct (bool_decide (width_ rhs = width_ a)) eqn:E4; cbn [andb];
    [apply bool_decide_eq_true in E4|destruct NDEBUG; exact Ha].
  eapply (hoare_post (shaped a0) _ (fun _ => shaped a0) _ (fun _ => False));
    [auto|contradiction| |exact Ha].
  apply hoare_for. intros i Hi. unfold num_elements in Hi.
  assert (El : length (values_ rhs) = length (values_ a)).
  { destruct Ha as ((Hinv & _) & _). unfold invariant in *.
    apply Nat2Z.inj. rewrite Hrhs, Hinv, E1, E2, E3, E4. reflexivity. }
  destruct (vec_at_Ok (values_ rhs) i) as [y Hy]; [lia|].
  intros s Hs. rewrite (bind_lift_Ok _ _ _ y) by exact Hy.
  apply (hoare_vec_update a0); [|exact Hs].
  destruct Ha as (_ & _ & <-). exact Hi.
Qed.

(** *** Constructors that run a body *)

Lemma construct_wf (o : outcome (Array4D T)) body :
  establishes o ->
  (forall a0, wf a0 -> hoare (shaped a0) body (fun _ => shaped a0) (shaped a0)) ->
  establishes (construct o body).
Proof.
  intros Ho Hb. unfold construct. destruct o as [a0| |]; cbn; [|exact I..].
  specialize (Hb a0 Ho a0 (shaped_refl a0 Ho)).
  destruct (body a0); cbn; [apply Hb|exact I|exact I].
Qed.

Lemma hoare_SetValues a0 (c : list T) :
  hoare (shaped a0) (SetValues c) (fun _ => shaped a0) (shaped a0).
Proof.
  intros a Ha. unfold SetValues, CHECK_EQ, num_elements.
  destruct (decide _) as [E|]; [|exact Ha].
  apply shaped_set_values_; [exact Ha|lia].
Qed.

Lemma Array4D_of_container_wf p d h w (values : list T) :
  establishes (Array4D_of_container p d h w values).
Proof.
  apply construct_wf; [apply Array4D_sized_wf|]. intros a0 _. apply hoare_SetValues.
Qed.

Lemma hoare_DCHECK_EQ a0 e x y {B} (k : M (Array4D T) B) Q :
  hoare (shaped a0) k Q (shaped a0) ->
  hoare (shaped a0) (lift (DCHECK_EQ NDEBUG e x y) ;; k) Q (shaped a0).
Proof.
  intros Hk s Hs. unfold DCHECK_EQ, CHECK_EQ.
  destruct NDEBUG; [|destruct (decide (x = y))].
  - rewrite (bind_lift_Ok _ _ _ tt) by reflexivity. now apply Hk.
  - rewrite (bind_lift_Ok _ _ _ tt) by reflexivity. now apply Hk.
  - exact Hs.
Qed.

Lemma hoare_nested_assign a0 values :
  hoare (shaped a0) (nested_assign NDEBUG values) (fun _ => shaped a0) (shaped a0).
Proof.
  unfold nested_assign.
  apply hoare_foreach. intros p vp Hp s Hs. rewrite bind_get.
  apply (fun H => hoare_DCHECK_EQ a0 _ _ _ _ (fun _ => shaped a0) H s Hs).
  clear s Hs.
  apply hoare_foreach. intros d vd Hd s Hs. rewrite bind_get.
  apply (fun H => hoare_DCHECK_EQ a0 _ _ _ _ (fun _ => shaped a0) H s Hs).
  clear s Hs.
  apply hoare_foreach. intros h vh Hh s Hs. rewrite bind_get.
  apply (fun H => hoare_DCHECK_EQ a0 _ _ _ _ (fun _ => shaped a0) H s Hs).
  clear s Hs.
  apply hoare_foreach. intros w x Hw.
  now apply hoare_write.
Qed.

Lemma Array4D_nested_wf (values : list (list (list (list T)))) :
  establishes (Array4D_nested NDEBUG values).
Proof.
  unfold Array4D_nested.
  destruct values as [|[|[|row0 depth0] plane0] rest]; try exact I.
  apply construct_wf; [apply Array4D_sized_wf|]. intros a0 _.
  apply hoare_nested_assign.
Qed.

End Loops.

(** ** The element-wise product *)

Section ElementWise.
Context `{FL : Floating} {T : Type} {SC : Scalar T}.
Implicit Types this rhs : Array4D T.

Lemma vec_at_lookup (v : list T) i x :
  0 <= i -> v !! Z.to_nat i = Some x -> vec_at v i = Ok x.
Proof.
  intros Hi Hx. unfold vec_at, subscript.
  pose proof (lookup_lt_Some _ _ _ Hx).
  rewrite decide_True by lia. cbn [mbind outcome_bind]. now rewrite Hx.
Qed.

Lemma operator_mul_mismatch NDEBUG rhs this :
  ~ same_shape rhs this ->
  operator_mul NDEBUG rhs this
  = if NDEBUG then Ret tt this else Halt ShapeMismatch this.
Proof.
  intros Hne. unfold operator_mul. rewrite bind_get. unfold size. cbn [nth].
  destruct (bool_decide (planes_ rhs = planes_ this)) eqn:E1; cbn [andb];
    [|now destruct NDEBUG].
  destruct (bool_decide (depth_ rhs = depth_ this)) eqn:E2; cbn [andb];
    [|now destruct NDEBUG].
  destruct (bool_decide (height_ rhs = height_ this)) eqn:E3; cbn [andb];
    [|now destruct NDEBUG].
  destruct (bool_decide (width_ rhs = width_ this)) eqn:E4; cbn [andb];
    [|now destruct NDEBUG].
  apply bool_decide_eq_true in E1, E2, E3, E4. exfalso. apply Hne.
  repeat split; assumption.
Qed.

Lemma operator_mul_same_shape NDEBUG rhs this :
  invariant this -> invariant rhs -> same_shape rhs this ->
  exists v', operator_mul NDEBUG rhs this = Ret tt (set_values_ this v')
    /\ length v' = length (values_ this)
    /\ forall i x y, values_ this !! i = Some x -> values_ rhs !! i = Some y ->
         v' !! i = Some (T_mul x y).
Proof.
  intros Ha Hb (E1 & E2 & E3 & E4).
  assert (El : length (values_ rhs) = length (values_ this)).
  { apply Nat2Z.inj. unfold invariant in *. rewrite Ha, Hb, E1, E2, E3, E4. reflexivity. }
  unfold operator_mul. rewrite bind_get. unfold size. cbn [nth].
  rewrite !bool_decide_eq_true_2 by assumption. cbn [andb].
  set (v := values_ this) in *. set (vr := values_ rhs) in *.
  destruct (for_inv
    (fun k s => exists v', s = set_values_ this v' /\ length v' = length v
       /\ forall i,
            (Z.of_nat i < k -> forall x y, v !! i = Some x -> vr !! i = Some y ->
               v' !! i = Some (T_mul x y))
            /\ (k <= Z.of_nat i -> v' !! i = v !! i))
    (fun i => y ← lift (vec_at vr i); vec_update i (fun x => T_mul x y))
    (num_elements this) this) as (s' & Hrun & v' & -> & Hlen & Hv').
  - exists v. split; [symmetry; apply set_values_id|]. split; [reflexivity|].
    intros i. split; [lia|reflexivity].
  - intros j s Hj (u & -> & Hlen & Hu). unfold num_elements in Hj. fold v in Hj.
    destruct (lookup_lt_is_Some_2 vr (Z.to_nat j)) as [y Hy]; [lia|].
    destruct (lookup_lt_is_Some_2 v (Z.to_nat j)) as [x Hx]; [lia|].
    assert (Hux : u !! Z.to_nat j = Some x).
    { rewrite <- Hx. apply (Hu (Z.to_nat j)). lia. }
    eexists. split.
    + rewrite (bind_lift_Ok _ _ _ y) by (apply vec_at_lookup; [lia|exact Hy]).
      unfold vec_update. cbn [values_ set_values_].
      rewrite (vec_at_lookup u j x) by (lia || exact Hux). reflexivity.
    + eexists. split; [reflexivity|]. split; [now rewrite length_insert|].
      intros i. split.
      * intros Hi x' y' Hx' Hy'.
        destruct (decide (i = Z.to_nat j)) as [->|Hne].
        -- rewrite list_lookup_insert_eq by lia. congruence.
        -- rewrite list_lookup_insert_ne by lia. apply (Hu i); [lia|assumption..].
      * intros Hi. rewrite list_lookup_insert_ne by lia. apply (Hu i). lia.
  - exists v'. split; [exact Hrun|]. split; [exact Hlen|].
    intros i x y Hx Hy. apply (Hv' i); [|exact Hx|exact Hy].
    apply lookup_lt_Some in Hx. unfold num_elements. fold v. lia.
Qed.
End ElementWise.

(** C2.  Every constructor (sized, value-filled, from a vector, from a
    container, from a nested literal) that returns, returns a container whose
    vector has exactly [n1*n2*n3*n4] elements, and every mutating member
    function ([SetValues], [Fill], [FillIota], [FillRandom],
    [FillWithMultiples], [mul], [FillWithYX], [FillWithPZ],
    [FillWithMinorDimNum], [operator*]), called on such a container, has a
    defined behaviour and leaves such a container, of the same shape;
    [num_elements()] is that product.  The sized constructors return such a
    container whenever the dimensions are not negative and their product is
    computed without overflow and can be allocated, and the member functions
    that start with a check return when what they check holds. *)
Theorem invariant_maintained
    `{FL : Floating} {T : Type} {SC : Scalar T} {RN : Random} (NDEBUG : bool) :
  (forall p d h w, establishes (Array4D_sized (T := T) p d h w)) /\
  (forall p d h w (value : T), establishes (Array4D_filled p d h w value)) /\
  (forall p d h w (input_array : list T),
     establishes (Array4D_of_vector p d h w input_array)) /\
  (forall p d h w (values : list T), establishes (Array4D_of_container p d h w values)) /\
  (forall values : list (list (list (list T))),
     establishes (Array4D_nested NDEBUG values)) /\
  (forall container : list T,
     preserves (SetValues container)
     /\ forall a, Z.of_nat (length container) = num_elements a ->
          exists a', SetValues container a = Ret tt a' /\ flatten a' = container) /\
  (forall (value : T) a, wf a -> wf (Fill value a) /\ same_shape (Fill value a) a) /\
  (forall (value : T) a, wf a -> wf (FillIota value a) /\ same_shape (FillIota value a) a) /\
  (forall (value : T) mean seed a,
     wf a -> wf (FillRandom value mean seed a)
             /\ same_shape (FillRandom value mean seed a) a) /\
  (forall multiplier,
     returns (FillWithMultiples (T := T) multiplier)
     /\ preserves (FillWithMultiples (T := T) multiplier)) /\
  (forall multiplier,
     returns (mul (T := T) multiplier) /\ preserves (mul (T := T) multiplier)) /\
  (forall value : Array2D T,
     wf2 value ->
     preserves (FillWithYX value)
     /\ forall a, wf a -> a2_height value = height a -> a2_width value = width a ->
          exists a', FillWithYX value a = Ret tt a') /\
  (forall value : Array2D T,
     wf2 value ->
     preserves (FillWithPZ value)
     /\ forall a, wf a -> a2_height value = planes a -> a2_width value = depth a ->
          exists a', FillWithPZ value a = Ret tt a') /\
  (returns (FillWithMinorDimNum (T := T)) /\ preserves (FillWithMinorDimNum (T := T))) /\
  (forall rhs : Array4D T,
     invariant rhs ->
     preserves (operator_mul NDEBUG rhs)
     /\ forall a, wf a -> same_shape rhs a ->
          exists a', operator_mul NDEBUG rhs a = Ret tt a') /\
  (forall a : Array4D T, invariant a -> num_elements a = n1 a * n2 a * n3 a * n4 a) /\
  (forall p d h w (value : T),
     0 <= p -> 0 <= d -> 0 <= h -> 0 <= w ->
     in_int64 (p * d) -> in_int64 (p * d * h) ->
     p * d * h * w <= vector_max_size (T := T) ->
     (exists a, Array4D_sized p d h w = Ok a /\ num_elements a = p * d * h * w) /\
     (exists a, Array4D_filled p d h w value = Ok a /\ num_elements a = p * d * h * w)).
Proof.
  repeat match goal with |- _ /\ _ => split end.
  - apply Array4D_sized_wf.
  - apply Array4D_filled_wf.
  - apply Array4D_of_vector_wf.
  - apply Array4D_of_container_wf.
  - apply Array4D_nested_wf.
  - intros container. split; [apply SetValues_preserves|].
    intros a E. eexists. split; [now apply SetValues_returns|reflexivity].
  - apply Fill_wf.
  - apply FillIota_wf.
  - apply FillRandom_wf.
  - apply FillWithMultiples_preserves.
  - apply mul_preserves.
  - intros value Hv. split; [now apply FillWithYX_preserves|].
    intros a Hwf Eh Ew.
    destruct (FillWithYX_returns value a Hv Hwf Eh Ew) as (a' & E & _). now exists a'.
  - intros value Hv. split; [now apply FillWithPZ_preserves|].
    intros a Hwf Eh Ew.
    destruct (FillWithPZ_returns value a Hv Hwf Eh Ew) as (a' & E & _). now exists a'.
  - apply FillWithMinorDimNum_preserves.
  - apply FillWithMinorDimNum_preserves.
  - intros rhs Hrhs. split; [now apply operator_mul_preserves|].
    intros a Hwf Hs.
    destruct (operator_mul_same_shape NDEBUG rhs a (proj1 Hwf) Hrhs Hs) as (v' & E & _).
    eexists. exact E.
  - intros a H. exact H.
  - intros p d h w value Hp Hd Hh Hw O1 O2 O3.
    assert (Hnn : 0 <= p * d * h * w) by (repeat apply Z.mul_nonneg_nonneg; assumption).
    split; eexists; (split; [now apply allocated_Ok|]);
      unfold num_elements; cbn [values_]; rewrite length_replicate; lia.
Qed.

Lemma invariant_maintained_witness :
  wf (Fill 7 example_lhs) /\ num_elements example_lhs = 6
  /\ match operator_mul true example_lhs example_lhs with
     | Ret _ a' | Halt _ a' => wf a' /\ same_shape a' example_lhs
     | UB => False
     end.
Proof.
  pose proof (invariant_maintained (T := Z) true) as H.
  destruct H as (_ & _ & _ & _ & _ & _ & HFill & _ & _ & _ & _ & _ & _ & _ & Hmul & Hnum & _).
  assert (W : wf example_lhs) by (unfold wf, invariant, INT64_MAX; cbn; lia).
  split; [apply HFill; exact W|].
  split; [apply Hnum; apply W|].
  apply (proj1 (Hmul example_lhs (proj1 W)) example_lhs W).
Defined.

(** C4.  The constructor from dimensions and a vector [S] stops on its
    [CHECK_EQ] (ShapeMismatch) when the length of [S] differs from
    [n1*n2*n3*n4]; when the lengths agree it returns a container of these
    dimensions whose [flatten()] is [S], element [i] of [S] at linear index
    [i].  The product is the one the constructor computes in [int64].  The
    constructor from a container does the same once its vector of
    [n1*n2*n3*n4] default elements has been allocated. *)
Theorem Array4D_of_vector_spec `{FL : Floating} {T : Type} {SC : Scalar T}
    (p d h w : Z) (S : list T) :
  in_int64 (p * d) -> in_int64 (p * d * h) -> in_int64 (p * d * h * w) ->
  (Z.of_nat (length S) <> p * d * h * w ->
     Array4D_of_vector p d h w S = Stop ShapeMismatch) /\
  (Z.of_nat (length S) = p * d * h * w ->
     exists a, Array4D_of_vector p d h w S = Ok a
               /\ n1 a = p /\ n2 a = d /\ n3 a = h /\ n4 a = w
               /\ flatten a = S
               /\ forall i, flatten a !! i = S !! i) /\
  (0 <= p * d * h * w <= vector_max_size (T := T) ->
     (Z.of_nat (length S) <> p * d * h * w ->
        Array4D_of_container p d h w S = Stop ShapeMismatch) /\
     (Z.of_nat (length S) = p * d * h * w ->
        Array4D_of_container p d h w S = Ok (mkArray4D p d h w S))).
Proof.
  intros H1 H2 H3. split; [|split].
  - intros E. unfold Array4D_of_vector.
    rewrite product4_no_overflow by assumption. cbn [mbind outcome_bind].
    rewrite CHECK_EQ_Stop by congruence. reflexivity.
  - intros E. unfold Array4D_of_vector.
    rewrite product4_no_overflow by assumption. cbn [mbind outcome_bind].
    rewrite CHECK_EQ_Ok by congruence. cbn [mbind outcome_bind].
    eexists. split; [reflexivity|]. repeat split.
  - intros HN. unfold Array4D_of_container, Array4D_sized, construct.
    rewrite product4_no_overflow by assumption. cbn [mbind outcome_bind].
    unfold vector_fill. rewrite decide_True by assumption. cbn [mbind outcome_bind].
    unfold SetValues, num_elements. cbn [values_]. rewrite length_replicate.
    split; intros E.
    + rewrite CHECK_EQ_Stop by lia. reflexivity.
    + rewrite CHECK_EQ_Ok by lia. reflexivity.
Qed.

Lemma Array4D_of_vector_spec_witness :
  Array4D_of_vector 1 1 2 3 [1; 2; 3; 4; 5] = Stop ShapeMismatch
  /\ exists a, Array4D_of_vector 1 1 2 3 [1; 2; 3; 4; 5; 6] = Ok a
               /\ flatten a = [1; 2; 3; 4; 5; 6].
Proof.
  split.
  - apply (Array4D_of_vector_spec 1 1 2 3 [1; 2; 3; 4; 5]).
    + unfold in_int64, INT64_MIN, INT64_MAX. lia.
    + unfold in_int64, INT64_MIN, INT64_MAX. lia.
    + unfold in_int64, INT64_MIN, INT64_MAX. lia.
    + cbn. lia.
  - destruct (Array4D_of_vector_spec 1 1 2 3 [1; 2; 3; 4; 5; 6]) as [_ H].
    + unfold in_int64, INT64_MIN, INT64_MAX. lia.
    + unfold in_int64, INT64_MIN, INT64_MAX. lia.
    + unfold in_int64, INT64_MIN, INT64_MAX. lia.
    + destruct H as [H _]. destruct H as (a & Ha & _ & _ & _ & _ & Hf & _); [cbn; lia|].
      exists a. split; [exact Ha|exact Hf].
Defined.

(** ** The random fill *)

Lemma random_fill_sequence `{FL : Floating} {T : Type} {SC : Scalar T} {RN : Random}
    (l : list T) distribution g :
  random_fill l distribution g = random_sequence (length l) distribution g.
Proof.
  revert distribution g. induction l as [|y l IH]; intros distribution g; cbn;
    [reflexivity|].
  destruct (normal_distribution_call distribution g) as [x [distribution' g']].
  now rewrite IH.
Qed.

(** C9.  [FillRandom] with the same deviation, mean and seed gives two
    containers of the same shape the same sequence of elements: the sequence
    is that of the first [num_elements()] draws of the seeded generator,
    whatever the containers held. *)
Theorem FillRandom_deterministic
    `{FL : Floating} {T : Type} {SC : Scalar T} {RN : Random}
    (a b : Array4D T) (value : T) (mean : double) (seed : Z) :
  invariant a -> invariant b -> same_shape a b ->
  flatten (FillRandom value mean seed a) = flatten (FillRandom value mean seed b)
  /\ flatten (FillRandom value mean seed a)
     = random_sequence (length (flatten a))
         (normal_distribution_init mean (T_to_double value)) (mt19937_seed seed).
Proof.
  intros Ha Hb (E1 & E2 & E3 & E4).
  assert (El : length (values_ a) = length (values_ b)).
  { apply Nat2Z.inj. unfold invariant in *. rewrite Ha, Hb, E1, E2, E3, E4. reflexivity. }
  unfold flatten, FillRandom. cbn [values_ set_values_].
  rewrite !random_fill_sequence. split; [now rewrite El|reflexivity].
Qed.

Lemma FillRandom_deterministic_witness :
  flatten (FillRandom 2 0%Q 12345 example_lhs)
  = flatten (FillRandom 2 0%Q 12345 (mkArray4D 1 1 2 3 [9; 9; 9; 9; 9; 9])).
Proof.
  apply (FillRandom_deterministic example_lhs (mkArray4D 1 1 2 3 [9; 9; 9; 9; 9; 9])).
  - unfold invariant. cbn. lia.
  - unfold invariant. cbn. lia.
  - repeat split.
Defined.

(** ** Comparison *)

Section Equality.
Context `{FL : Floating} {T : Type} {SC : Scalar T}.
Implicit Types a b : Array4D T.

(** The test of one pair of elements: [std::abs(x - y) < 0.000001f]. *)
Local Abbreviation close x y := (T_lt_float (T_abs (T_sub x y)) float_tolerance).

Lemma eq_loop_spec a b count i result :
  0 <= i -> i + Z.of_nat count = Z.of_nat (length (values_ a)) ->
  length (values_ a) = length (values_ b) ->
  exists res, eq_loop a b count i result = Ok res
    /\ (res = true <->
          result = true
          /\ forall k x y, (Z.to_nat i <= k)%nat ->
               values_ a !! k = Some x -> values_ b !! k = Some y ->
               close x y = true).
Proof.
  revert i result. induction count as [|c IH]; intros i result Hi Hc El.
  - exists result. split; [reflexivity|]. split; [|tauto].
    intros ->. split; [reflexivity|]. intros k x y Hk Hx _.
    apply lookup_lt_Some in Hx. lia.
  - cbn [eq_loop]. destruct result.
    + destruct (lookup_lt_is_Some_2 (values_ a) (Z.to_nat i)) as [x Hx]; [lia|].
      destruct (lookup_lt_is_Some_2 (values_ b) (Z.to_nat i)) as [y Hy]; [lia|].
      unfold vec_at, subscript.
      rewrite !decide_True by lia. cbn [mbind outcome_bind]. rewrite Hx, Hy.
      destruct (IH (i + 1) (close x y)) as (res & Hres & Hiff); [lia..|exact El|].
      exists res. split; [exact Hres|]. rewrite Hiff. split.
      * intros [Hxy Hrest]. split; [reflexivity|]. intros k x' y' Hk Hx' Hy'.
        destruct (decide (k = Z.to_nat i)) as [->|Hne].
        -- congruence.
        -- apply (Hrest k); [lia|assumption..].
      * intros [_ Hall]. split; [now apply (Hall (Z.to_nat i))|].
        intros k x' y' Hk. apply Hall. lia.
    + exists false. split; [reflexivity|]. split; [discriminate|]. intros [? _].
      discriminate.
Qed.

Lemma operator_eq_shape a b : ~ same_shape a b -> operator_eq a b = Ok false.
Proof.
  intros Hne. unfold operator_eq, planes, depth, height, width.
  destruct (bool_decide (num_elements a = num_elements b)); [|reflexivity].
  cbn [andb].
  destruct (bool_decide (planes_ a = planes_ b)) eqn:E1; [|reflexivity].
  destruct (bool_decide (depth_ a = depth_ b)) eqn:E2; [|reflexivity].
  destruct (bool_decide (height_ a = height_ b)) eqn:E3; [|reflexivity].
  destruct (bool_decide (width_ a = width_ b)) eqn:E4; [|reflexivity].
  apply bool_decide_eq_true in E1, E2, E3, E4. exfalso. apply Hne. repeat split; assumption.
Qed.

Lemma operator_eq_elements a b :
  invariant a -> invariant b -> same_shape a b ->
  exists res, operator_eq a b = Ok res
    /\ (res = true <->
          forall i x y, values_ a !! i = Some x -> values_ b !! i = Some y ->
            close x y = true).
Proof.
  intros Ha Hb (E1 & E2 & E3 & E4).
  assert (El : length (values_ a) = length (values_ b)).
  { apply Nat2Z.inj. unfold invariant in *. rewrite Ha, Hb, E1, E2, E3, E4. reflexivity. }
  unfold operator_eq, planes, depth, height, width, num_elements.
  rewrite !bool_decide_eq_true_2 by congruence. cbn [andb].
  destruct (eq_loop_spec a b (length (values_ a)) 0 true) as (res & Hres & Hiff);
    [lia|lia|exact El|].
  exists res. split; [exact Hres|]. rewrite Hiff. split.
  - intros [_ H] i x y. apply H. lia.
  - intros H. split; [reflexivity|]. intros k x y _. apply H.
Qed.
End Equality.

Lemma Qltb_lt x y : Qltb x y = true <-> (x < y)%Q.
Proof.
  unfold Qltb. rewrite negb_true_iff. split.
  - intros H. apply Qnot_le_lt. intros Hle. apply Qle_bool_iff in Hle. congruence.
  - intros H. destruct (Qle_bool y x) eqn:E; [|reflexivity].
    apply Qle_bool_iff in E. exfalso. exact (Qlt_not_le _ _ H E).
Qed.

(** C5 (as stated, refuted).  The claim takes the tolerance for the number
    1/1000000.  The code compares with the literal [0.000001f], which is the
    [float] next to that number, 8796093/2^43, and is smaller.  Two [float]
    containers of one element, 0.000001f and 0, have the same dimensions, and
    their elements differ by less than 1/1000000; their difference is
    computed exactly and is not less than the literal, so [operator==] is
    false. *)
Lemma operator_eq_tolerance_counterexample :
  let a : Array4D Q := mkArray4D 1 1 1 1 [(8796093 # 8796093022208)%Q] in
  let b : Array4D Q := mkArray4D 1 1 1 1 [0%Q] in
  invariant a /\ invariant b /\ same_shape a b
  /\ (forall i x y, flatten a !! i = Some x -> flatten b !! i = Some y ->
        (Qabs (x - y) < 1 # 1000000)%Q)
  /\ operator_eq a b = Ok false.
Proof.
  cbv zeta. split; [reflexivity|]. split; [reflexivity|]. split; [repeat split|].
  split; [|reflexivity].
  intros [|i] x y Hx Hy; cbn in Hx, Hy; [|discriminate].
  injection Hx as <-. injection Hy as <-. reflexivity.
Qed.

(** C5 (amended).  [operator==] is false as soon as one of the four
    dimensions differs, whatever the vectors hold; on containers of the same
    shape it returns, and it is true exactly when every pair of elements at
    the same linear index passes the test of the source,
    [std::abs(x - y) < 0.000001f], the difference and the absolute value
    taken in the element type and the bound being the [float] literal. *)
Theorem operator_eq_spec `{FL : Floating} {T : Type} {SC : Scalar T}
    (a b : Array4D T) :
  (n1 a <> n1 b \/ n2 a <> n2 b \/ n3 a <> n3 b \/ n4 a <> n4 b ->
     operator_eq a b = Ok false) /\
  (invariant a -> invariant b -> same_shape a b ->
     exists res, operator_eq a b = Ok res
       /\ (res = true <->
             forall i x y, flatten a !! i = Some x -> flatten b !! i = Some y ->
               T_lt_float (T_abs (T_sub x y)) float_tolerance = true)).
Proof.
  split.
  - intros H. apply operator_eq_shape. unfold n1, n2, n3, n4 in H.
    intros (E1 & E2 & E3 & E4). tauto.
  - apply operator_eq_elements.
Qed.

Lemma operator_eq_spec_witness :
  operator_eq (mkArray4D 1 1 1 2 [(1 # 2)%Q; 3%Q])
              (mkArray4D 1 1 1 2 [(1048577 # 2097152)%Q; 3%Q]) = Ok true.
Proof.
  destruct (operator_eq_spec (mkArray4D 1 1 1 2 [(1 # 2)%Q; 3%Q])
              (mkArray4D 1 1 1 2 [(1048577 # 2097152)%Q; 3%Q])) as [_ H].
  destruct H as (res & Hres & Hiff).
  - unfold invariant. cbn. lia.
  - unfold invariant. cbn. lia.
  - repeat split.
  - rewrite Hres. f_equal. apply Hiff.
    intros [|[|i]] x y Hx Hy; cbn in Hx, Hy; try discriminate.
    + injection Hx as <-. injection Hy as <-. reflexivity.
    + injection Hx as <-. injection Hy as <-. reflexivity.
Defined.

Example operator_eq_far :
  operator_eq (mkArray4D 1 1 1 2 [(1 # 2)%Q; 3%Q])
              (mkArray4D 1 1 1 2 [(262145 # 524288)%Q; 3%Q]) = Ok false.
Proof. reflexivity. Qed.

Example operator_eq_reshaped :
  operator_eq (mkArray4D 1 1 2 3 [1; 2; 3; 4; 5; 6])
              (mkArray4D 1 1 3 2 [1; 2; 3; 4; 5; 6]) = Ok false.
Proof. reflexivity. Qed.

(** C6 (the code at the failing input).  In a build with [NDEBUG] the
    [assert(false)] of the mismatch branch of [operator*] is compiled out:
    for operands of shapes (1,1,1,1) and (1,1,1,2) the call returns and
    leaves the container as it was, where a build with assertions stops. *)
Theorem operator_mul_mismatch_ignored :
  let this : Array4D Z := mkArray4D 1 1 1 1 [2] in
  let rhs : Array4D Z := mkArray4D 1 1 1 2 [3; 4] in
  wf this /\ wf rhs /\ ~ same_shape rhs this
  /\ operator_mul true rhs this = Ret tt this
  /\ operator_mul false rhs this = Halt ShapeMismatch this.
Proof.
  cbv zeta. repeat split.
  - unfold INT64_MAX. cbn. lia.
  - unfold INT64_MAX. cbn. lia.
  - intros (_ & _ & _ & H). discriminate H.
Qed.

(** ** The empty levels of a nested literal *)

(** Once the three dereferences and the product are defined, so is the whole
    construction. *)
Lemma Array4D_nested_defined `{FL : Floating} {T : Type} {SC : Scalar T}
    (NDEBUG : bool) (values : list (list (list (list T)))) :
  let plane0 := hd [] values in
  let depth0 := hd [] plane0 in
  let row0 := hd [] depth0 in
  values <> [] -> plane0 <> [] -> depth0 <> [] ->
  in_int64 (len values * len plane0) ->
  in_int64 (len values * len plane0 * len depth0) ->
  in_int64 (len values * len plane0 * len depth0 * len row0) ->
  Array4D_nested NDEBUG values <> Undefined.
Proof.
  intros plane0 depth0 row0 Hv Hp Hd O1 O2 O3.
  subst plane0 depth0 row0. unfold Array4D_nested.
  destruct values as [|[|[|r0 d0] p0] rest]; try contradiction.
  cbn [hd] in *. set (values' := ((r0 :: d0) :: p0) :: rest) in *.
  pose proof (Array4D_sized_wf (T := T)
                (len values') (len ((r0 :: d0) :: p0)) (len (r0 :: d0)) (len r0)) as W0.
  unfold construct.
  destruct (Array4D_sized _ _ _ _) as [a0| |] eqn:E0; cbn [mbind outcome_bind].
  - cbn in W0.
    pose proof (hoare_nested_assign NDEBUG a0 values' a0 (shaped_refl a0 W0)) as H.
    destruct (nested_assign NDEBUG values' a0); [discriminate|discriminate|contradiction].
  - discriminate.
  - exfalso. unfold Array4D_sized in E0.
    rewrite product4_no_overflow in E0 by assumption. cbn [mbind outcome_bind] in E0.
    unfold vector_fill in E0. destruct (decide _); discriminate.
Qed.

(** C10 (as stated, refuted).  The claim counts the first height-list, the
    first row of the literal, among the lists that must not be empty.  The
    constructor only asks that row for its size: the literal with one plane,
    one depth and one empty row is a container of width zero. *)
Lemma Array4D_nested_empty_row_counterexample :
  let values : list (list (list (list Z))) := [[[[]]]] in
  hd [] (hd [] (hd [] values)) = []
  /\ Array4D_nested false values = Ok (mkArray4D 1 1 1 0 [])
  /\ Array4D_nested true values = Ok (mkArray4D 1 1 1 0 [])
  /\ Array4D_nested false values <> Undefined
  /\ Array4D_nested true values <> Undefined.
Proof. cbv zeta. repeat split; discriminate. Qed.

(** C10 (amended).  The nested-literal constructor reads the size of the
    first element of [values], of that element's first element and of that
    one's first element before any check: when [values], its first plane or
    the first depth-list of that plane is empty, the behaviour is undefined,
    and no failure is reported (there is no such case among the failures).
    When these three lists are not empty and the product of the four sizes
    is computed without overflow, the behaviour is defined, whether the
    first row is empty or not. *)
Theorem Array4D_nested_empty `{FL : Floating} {T : Type} {SC : Scalar T}
    (NDEBUG : bool) (values : list (list (list (list T)))) :
  let plane0 := hd [] values in
  let depth0 := hd [] plane0 in
  let row0 := hd [] depth0 in
  (values = [] \/ plane0 = [] \/ depth0 = [] ->
     Array4D_nested NDEBUG values = Undefined
     /\ forall e, Array4D_nested NDEBUG values <> Stop e)
  /\ (values <> [] -> plane0 <> [] -> depth0 <> [] ->
      in_int64 (len values * len plane0) ->
      in_int64 (len values * len plane0 * len depth0) ->
      in_int64 (len values * len plane0 * len depth0 * len row0) ->
      Array4D_nested NDEBUG values <> Undefined).
Proof.
  intros plane0 depth0 row0. split.
  - subst plane0 depth0 row0. intros H.
    assert (E : Array4D_nested NDEBUG values = Undefined).
    { destruct values as [|[|[|r0 d0] p0] rest]; try reflexivity.
      cbn [hd] in H. destruct H as [H|[H|H]]; discriminate. }
    rewrite E. split; [reflexivity|discriminate].
  - apply Array4D_nested_defined.
Qed.

Lemma Array4D_nested_empty_witness :
  Array4D_nested (T := Z) false [] = Undefined
  /\ Array4D_nested (T := Z) false [[]; [[[1]]]] = Undefined
  /\ Array4D_nested (T := Z) true [[[]; [[1]]]] = Undefined
  /\ Array4D_nested (T := Z) true [[[[]; [1]]]] <> Undefined.
Proof.
  split; [|split; [|split]].
  - apply (Array4D_nested_empty false []). now left.
  - apply (Array4D_nested_empty false [[]; [[[1]]]]). right. now left.
  - apply (Array4D_nested_empty true [[[]; [[1]]]]). right. now right.
  - apply (Array4D_nested_empty true [[[[]; [1]]]]).
    + discriminate.
    + discriminate.
    + discriminate.
    + vm_compute. split; discriminate.
    + vm_compute. split; discriminate.
    + vm_compute. split; discriminate.
Defined.


(** ** Loops over a list that may stop *)

(** Each element is either good, and then the body returns and keeps the
    invariant, or bad, and then (when [strict]) the body stops with [e]: the
    loop returns when all elements are good and stops at the first bad one. *)
Lemma foreach_decide {S A} (strict : Prop) (good : A -> bool) (I : Z -> S -> Prop)
    (e : failure) (body : Z -> A -> M S unit) (l : list A) (k0 : Z) (s : S) :
  I k0 s ->
  (forall (j : nat) x t, l !! j = Some x -> I (k0 + Z.of_nat j) t ->
     if good x
     then exists t', body (k0 + Z.of_nat j) x t = Ret tt t' /\ I (k0 + Z.of_nat j + 1) t'
     else strict -> exists t', body (k0 + Z.of_nat j) x t = Halt e t') ->
  if forallb good l
  then exists s', foreach l k0 body s = Ret tt s' /\ I (k0 + len l) s'
  else strict -> exists s', foreach l k0 body s = Halt e s'.
Proof.
  revert k0 s. induction l as [|x l IH]; intros k0 s H0 Hstep.
  - cbn. exists s. split; [reflexivity|].
    replace (k0 + len []) with k0 by (unfold len; cbn; lia). exact H0.
  - pose proof (Hstep O x s eq_refl) as Hx. cbn [forallb foreach].
    replace (k0 + Z.of_nat 0) with k0 in Hx by lia.
    specialize (Hx H0).
    destruct (good x); cbn [andb].
    + destruct Hx as (t & Hb & Ht).
      specialize (IH (k0 + 1) t Ht).
      assert (Hstep' : forall (j : nat) y u, l !! j = Some y -> I (k0 + 1 + Z.of_nat j) u ->
                if good y
                then exists t', body (k0 + 1 + Z.of_nat j) y u = Ret tt t'
                                /\ I (k0 + 1 + Z.of_nat j + 1) t'
                else strict -> exists t', body (k0 + 1 + Z.of_nat j) y u = Halt e t').
      { intros j y u Hy Hu. specialize (Hstep (Datatypes.S j) y u Hy).
        replace (k0 + Z.of_nat (Datatypes.S j)) with (k0 + 1 + Z.of_nat j) in Hstep by lia.
        now apply Hstep. }
      specialize (IH Hstep').
      destruct (forallb good l).
      * destruct IH as (s' & Hl & Hs'). exists s'. split.
        -- now rewrite (bind_Ret _ _ _ _ _ Hb).
        -- unfold len in *. cbn [length].
           now replace (k0 + Z.of_nat (Datatypes.S (length l)))
             with (k0 + 1 + Z.of_nat (length l)) by lia.
      * intros Hs. destruct (IH Hs) as (s' & Hl). exists s'.
        now rewrite (bind_Ret _ _ _ _ _ Hb).
    + intros Hs. destruct (Hx Hs) as (t & Hb). exists t.
      now rewrite (bind_Halt _ _ _ _ _ Hb).
Qed.

Lemma foreach_inv {S A} (I : Z -> S -> Prop) (body : Z -> A -> M S unit)
    (l : list A) (k0 : Z) (s : S) :
  I k0 s ->
  (forall (j : nat) x t, l !! j = Some x -> I (k0 + Z.of_nat j) t ->
     exists t', body (k0 + Z.of_nat j) x t = Ret tt t' /\ I (k0 + Z.of_nat j + 1) t') ->
  exists s', foreach l k0 body s = Ret tt s' /\ I (k0 + len l) s'.
Proof.
  intros H0 Hstep.
  pose proof (foreach_decide True (fun _ => true) I ShapeMismatch body l k0 s H0) as H.
  replace (forallb (fun _ => true) l) with true in H
    by (symmetry; apply forallb_forall; auto).
  apply H. intros j x t Hx Ht. now apply Hstep.
Qed.

(** ** The nested-literal constructor on a literal of known shape *)

Lemma DCHECK_EQ_refl nd e x : DCHECK_EQ nd e x x = Ok tt.
Proof. unfold DCHECK_EQ. destruct nd; [reflexivity|now apply CHECK_EQ_Ok]. Qed.

Lemma DCHECK_EQ_strict e x y : x <> y -> DCHECK_EQ false e x y = Stop e.
Proof. intros H. unfold DCHECK_EQ. now apply CHECK_EQ_Stop. Qed.

Section NestedLiteral.
Context `{FL : Floating} {T : Type} {SC : Scalar T}.
Variable NDEBUG : bool.
Variable values : list (list (list (list T))).
Variable a0 : Array4D T.
Hypothesis W0 : wf a0.
Hypothesis Hplanes : planes_ a0 = len values.

Local Abbreviation st v := (set_values_ a0 v).
Local Abbreviation F := (nested_elem T_default values).
Local Abbreviation filled K v := (filled_below a0 F K v).

Lemma wf_st v : length v = length (values_ a0) -> wf (st v).
Proof. now apply wf_set_values_. Qed.

Lemma literal_row v P D H vp vd vh :
  0 <= P -> 0 <= D -> 0 <= H ->
  values !! Z.to_nat P = Some vp -> vp !! Z.to_nat D = Some vd ->
  vd !! Z.to_nat H = Some vh ->
  len vp = depth_ a0 -> len vd = height_ a0 -> len vh = width_ a0 ->
  filled (offset a0 P D H 0) v ->
  exists v', foreach vh 0 (fun width x => write P D H width x) (st v) = Ret tt (st v')
             /\ filled (offset a0 P D (H + 1) 0) v'.
Proof.
  intros HP HD HH Hvp Hvd Hvh Lp Ld Lh Hv.
  pose proof (lookup_lt_Some _ _ _ Hvp) as BP.
  pose proof (lookup_lt_Some _ _ _ Hvd) as BD.
  pose proof (lookup_lt_Some _ _ _ Hvh) as BH.
  unfold len in *.
  destruct (foreach_inv
    (fun w s => exists v', s = st v' /\ filled (offset a0 P D H w) v')
    (fun width x => write P D H width x) vh 0 (st v)) as (s' & Hrun & v' & -> & Hv').
  - now exists v.
  - intros j x s Hx (u & -> & Hu).
    pose proof (lookup_lt_Some _ _ _ Hx) as BW.
    assert (Hin : in_range a0 P D H (0 + Z.of_nat j)) by (unfold in_range; lia).
    assert (HF : F P D H (0 + Z.of_nat j) = x).
    { unfold nested_elem.
      rewrite (nth_lookup_Some _ _ _ _ Hvp), (nth_lookup_Some _ _ _ _ Hvd),
        (nth_lookup_Some _ _ _ _ Hvh).
      apply nth_lookup_Some. now replace (Z.to_nat (0 + Z.of_nat j)) with j by lia. }
    eexists. split.
    + apply write_Ret; [apply wf_st, Hu|exact Hin].
    + eexists. split; [reflexivity|].
      change (offset (st u) P D H (0 + Z.of_nat j)) with (offset a0 P D H (0 + Z.of_nat j)).
      change (values_ (st u)) with u.
      replace (offset a0 P D H (0 + Z.of_nat j + 1))
        with (offset a0 P D H (0 + Z.of_nat j) + 1) by (unfold offset; ring).
      rewrite <- HF. apply filled_below_insert; [apply W0|exact Hin|exact Hu].
  - exists v'. split; [exact Hrun|].
    replace (offset a0 P D (H + 1) 0) with (offset a0 P D H (0 + len vh)); [exact Hv'|].
    unfold len, offset. rewrite Lh. ring.
Qed.

(** The body of the loop over the rows of one depth. *)
Lemma literal_row_decide v P D H vp vd vh :
  0 <= P -> 0 <= D -> 0 <= H ->
  values !! Z.to_nat P = Some vp -> vp !! Z.to_nat D = Some vd ->
  vd !! Z.to_nat H = Some vh ->
  len vp = depth_ a0 -> len vd = height_ a0 ->
  filled (offset a0 P D H 0) v ->
  let body : M (Array4D T) unit :=
    this ← get;
    lift (DCHECK_EQ NDEBUG RaggedShape (len vh) (width_ this));;
    foreach vh 0 (fun width x => write P D H width x) in
  if row_ok (width_ a0) vh
  then exists t', body (st v) = Ret tt t'
         /\ exists v', t' = st v' /\ filled (offset a0 P D (H + 1) 0) v'
  else NDEBUG = false -> exists t', body (st v) = Halt RaggedShape t'.
Proof.
  intros HP HD HH Hvp Hvd Hvh Lp Ld Hv body. unfold body, row_ok.
  destruct (Z.eqb_spec (len vh) (width_ a0)) as [Lh|Lh].
  - destruct (literal_row v P D H vp vd vh) as (v' & Hrun & Hv'); try assumption.
    eexists. split; [|exists v'; split; [reflexivity|exact Hv']].
    rewrite bind_get. cbn [width_ set_values_]. rewrite Lh.
    rewrite (bind_lift_Ok _ _ _ tt) by apply DCHECK_EQ_refl. exact Hrun.
  - intros ->. exists (st v). rewrite bind_get. cbn [width_ set_values_].
    apply bind_Halt. unfold lift. now rewrite DCHECK_EQ_strict.
Qed.

(** ... over the lists of rows of one plane ... *)
Lemma literal_depth_decide v P D vp vd :
  0 <= P -> 0 <= D ->
  values !! Z.to_nat P = Some vp -> vp !! Z.to_nat D = Some vd ->
  len vp = depth_ a0 ->
  filled (offset a0 P D 0 0) v ->
  let body : M (Array4D T) unit :=
    this ← get;
    lift (DCHECK_EQ NDEBUG RaggedShape (len vd) (height_ this));;
    foreach vd 0 (fun height vh =>
      this ← get;
      lift (DCHECK_EQ NDEBUG RaggedShape (len vh) (width_ this));;
      foreach vh 0 (fun width x => write P D height width x)) in
  if depth_ok (height_ a0) (width_ a0) vd
  then exists t', body (st v) = Ret tt t'
         /\ exists v', t' = st v' /\ filled (offset a0 P (D + 1) 0 0) v'
  else NDEBUG = false -> exists t', body (st v) = Halt RaggedShape t'.
Proof.
  intros HP HD Hvp Hvd Lp Hv body. unfold body, depth_ok.
  destruct (Z.eqb_spec (len vd) (height_ a0)) as [Ld|Ld]; cbn [andb].
  - pose proof (foreach_decide (NDEBUG = false) (row_ok (width_ a0))
      (fun h s => exists v', s = st v' /\ filled (offset a0 P D h 0) v')
      RaggedShape
      (fun height vh =>
         this ← get;
         lift (DCHECK_EQ NDEBUG RaggedShape (len vh) (width_ this));;
         foreach vh 0 (fun width x => write P D height width x))
      vd 0 (st v)) as Hloop.
    assert (Hstart : exists v', st v = st v' /\ filled (offset a0 P D 0 0) v')
      by now exists v.
    specialize (Hloop Hstart). clear Hstart.
    assert (Hstep : forall (j : nat) vh t, vd !! j = Some vh ->
      (exists v', t = st v' /\ filled (offset a0 P D (0 + Z.of_nat j) 0) v') ->
      if row_ok (width_ a0) vh
      then exists t',
        (this ← get;
         lift (DCHECK_EQ NDEBUG RaggedShape (len vh) (width_ this));;
         foreach vh 0 (fun width x => write P D (0 + Z.of_nat j) width x)) t = Ret tt t'
        /\ exists v', t' = st v'
             /\ filled (offset a0 P D (0 + Z.of_nat j + 1) 0) v'
      else NDEBUG = false -> exists t',
        (this ← get;
         lift (DCHECK_EQ NDEBUG RaggedShape (len vh) (width_ this));;
         foreach vh 0 (fun width x => write P D (0 + Z.of_nat j) width x)) t
        = Halt RaggedShape t').
    { intros j vh t Hvh (u & -> & Hu).
      apply (literal_row_decide u P D (0 + Z.of_nat j) vp vd vh); try assumption; try lia.
      now replace (Z.to_nat (0 + Z.of_nat j)) with j by lia. }
    specialize (Hloop Hstep). clear Hstep.
    destruct (forallb (row_ok (width_ a0)) vd).
    + destruct Hloop as (s' & Hrun & v' & -> & Hv').
      eexists. split.
      * rewrite bind_get. cbn [height_ set_values_]. rewrite Ld.
        rewrite (bind_lift_Ok _ _ _ tt) by apply DCHECK_EQ_refl. exact Hrun.
      * exists v'. split; [reflexivity|].
        replace (offset a0 P (D + 1) 0 0) with (offset a0 P D (0 + len vd) 0);
          [exact Hv'|].
        unfold offset. rewrite Ld. ring.
    + intros Hs. destruct (Hloop Hs) as (s' & Hrun). exists s'.
      rewrite bind_get. cbn [height_ set_values_]. rewrite Ld.
      rewrite (bind_lift_Ok _ _ _ tt) by apply DCHECK_EQ_refl. exact Hrun.
  - intros ->. exists (st v). rewrite bind_get. cbn [height_ set_values_].
    apply bind_Halt. unfold lift. now rewrite DCHECK_EQ_strict.
Qed.

(** ... over the planes. *)
Lemma literal_plane_decide v P vp :
  0 <= P -> values !! Z.to_nat P = Some vp ->
  filled (offset a0 P 0 0 0) v ->
  let body : M (Array4D T) unit :=
    this ← get;
    lift (DCHECK_EQ NDEBUG RaggedShape (len vp) (depth_ this));;
    foreach vp 0 (fun depth vd =>
      this ← get;
      lift (DCHECK_EQ NDEBUG RaggedShape (len vd) (height_ this));;
      foreach vd 0 (fun height vh =>
        this ← get;
        lift (DCHECK_EQ NDEBUG RaggedShape (len vh) (width_ this));;
        foreach vh 0 (fun width x => write P depth height width x))) in
  if plane_ok (depth_ a0) (height_ a0) (width_ a0) vp
  then exists t', body (st v) = Ret tt t'
         /\ exists v', t' = st v' /\ filled (offset a0 (P + 1) 0 0 0) v'
  else NDEBUG = false -> exists t', body (st v) = Halt RaggedShape t'.
Proof.
  intros HP Hvp Hv body. unfold body, plane_ok.
  destruct (Z.eqb_spec (len vp) (depth_ a0)) as [Lp|Lp]; cbn [andb].
  - pose proof (foreach_decide (NDEBUG = false) (depth_ok (height_ a0) (width_ a0))
      (fun d s => exists v', s = st v' /\ filled (offset a0 P d 0 0) v')
      RaggedShape
      (fun depth vd =>
         this ← get;
         lift (DCHECK_EQ NDEBUG RaggedShape (len vd) (height_ this));;
         foreach vd 0 (fun height vh =>
           this ← get;
           lift (DCHECK_EQ NDEBUG RaggedShape (len vh) (width_ this));;
           foreach vh 0 (fun width x => write P depth height width x)))
      vp 0 (st v)) as Hloop.
    assert (Hstart : exists v', st v = st v' /\ filled (offset a0 P 0 0 0) v')
      by now exists v.
    specialize (Hloop Hstart). clear Hstart.
    assert (Hstep : forall (j : nat) vd t, vp !! j = Some vd ->
      (exists v', t = st v' /\ filled (offset a0 P (0 + Z.of_nat j) 0 0) v') ->
      if depth_ok (height_ a0) (width_ a0) vd
      then exists t',
        (this ← get;
         lift (DCHECK_EQ NDEBUG RaggedShape (len vd) (height_ this));;
         foreach vd 0 (fun height vh =>
           this ← get;
           lift (DCHECK_EQ NDEBUG RaggedShape (len vh) (width_ this));;
           foreach vh 0 (fun width x => write P (0 + Z.of_nat j) height width x))) t
        = Ret tt t'
        /\ exists v', t' = st v'
             /\ filled (offset a0 P (0 + Z.of_nat j + 1) 0 0) v'
      else NDEBUG = false -> exists t',
        (this ← get;
         lift (DCHECK_EQ NDEBUG RaggedShape (len vd) (height_ this));;
         foreach vd 0 (fun height vh =>
           this ← get;
           lift (DCHECK_EQ NDEBUG RaggedShape (len vh) (width_ this));;
           foreach vh 0 (fun width x => write P (0 + Z.of_nat j) height width x))) t
        = Halt RaggedShape t').
    { intros j vd t Hvd (u & -> & Hu).
      apply (literal_depth_decide u P (0 + Z.of_nat j) vp vd); try assumption; try lia.
      now replace (Z.to_nat (0 + Z.of_nat j)) with j by lia. }
    specialize (Hloop Hstep). clear Hstep.
    destruct (forallb (depth_ok (height_ a0) (width_ a0)) vp).
    + destruct Hloop as (s' & Hrun & v' & -> & Hv').
      eexists. split.
      * rewrite bind_get. cbn [depth_ set_values_]. rewrite Lp.
        rewrite (bind_lift_Ok _ _ _ tt) by apply DCHECK_EQ_refl. exact Hrun.
      * exists v'. split; [reflexivity|].
        replace (offset a0 (P + 1) 0 0 0) with (offset a0 P (0 + len vp) 0 0);
          [exact Hv'|].
        unfold offset. rewrite Lp. ring.
    + intros Hs. destruct (Hloop Hs) as (s' & Hrun). exists s'.
      rewrite bind_get. cbn [depth_ set_values_]. rewrite Lp.
      rewrite (bind_lift_Ok _ _ _ tt) by apply DCHECK_EQ_refl. exact Hrun.
  - intros ->. exists (st v). rewrite bind_get. cbn [depth_ set_values_].
    apply bind_Halt. unfold lift. now rewrite DCHECK_EQ_strict.
Qed.

(** The whole body: a rectangular literal is copied cell by cell, and with
    the checks compiled in the first list of the wrong length stops it. *)
Lemma nested_assign_decide :
  if rectangular (depth_ a0) (height_ a0) (width_ a0) values
  then exists v', nested_assign NDEBUG values a0 = Ret tt (st v')
         /\ length v' = length (values_ a0)
         /\ forall p d h w, in_range a0 p d h w ->
              v' !! Z.to_nat (offset a0 p d h w) = Some (F p d h w)
  else NDEBUG = false ->
       exists t', nested_assign NDEBUG values a0 = Halt RaggedShape t'.
Proof.
  unfold rectangular, nested_assign.
  pose proof (foreach_decide (NDEBUG = false)
    (plane_ok (depth_ a0) (height_ a0) (width_ a0))
    (fun p s => exists v', s = st v' /\ filled (offset a0 p 0 0 0) v')
    RaggedShape
    (fun plane vp =>
       this ← get;
       lift (DCHECK_EQ NDEBUG RaggedShape (len vp) (depth_ this));;
       foreach vp 0 (fun depth vd =>
         this ← get;
         lift (DCHECK_EQ NDEBUG RaggedShape (len vd) (height_ this));;
         foreach vd 0 (fun height vh =>
           this ← get;
           lift (DCHECK_EQ NDEBUG RaggedShape (len vh) (width_ this));;
           foreach vh 0 (fun width x => write plane depth height width x))))
    values 0 a0) as Hloop.
  assert (Hstart : exists v', a0 = st v' /\ filled (offset a0 0 0 0 0) v').
  { exists (values_ a0). split; [symmetry; apply set_values_id|].
    split; [reflexivity|]. intros p d h w Hin Hlt.
    pose proof (offset_bounds a0 p d h w (proj1 W0) Hin). unfold offset in *. lia. }
  specialize (Hloop Hstart). clear Hstart.
  assert (Hstep : forall (j : nat) vp t, values !! j = Some vp ->
    (exists v', t = st v' /\ filled (offset a0 (0 + Z.of_nat j) 0 0 0) v') ->
    if plane_ok (depth_ a0) (height_ a0) (width_ a0) vp
    then exists t',
      (this ← get;
       lift (DCHECK_EQ NDEBUG RaggedShape (len vp) (depth_ this));;
       foreach vp 0 (fun depth vd =>
         this ← get;
         lift (DCHECK_EQ NDEBUG RaggedShape (len vd) (height_ this));;
         foreach vd 0 (fun height vh =>
           this ← get;
           lift (DCHECK_EQ NDEBUG RaggedShape (len vh) (width_ this));;
           foreach vh 0 (fun width x =>
             write (0 + Z.of_nat j) depth height width x)))) t
      = Ret tt t'
      /\ exists v', t' = st v'
           /\ filled (offset a0 (0 + Z.of_nat j + 1) 0 0 0) v'
    else NDEBUG = false -> exists t',
      (this ← get;
       lift (DCHECK_EQ NDEBUG RaggedShape (len vp) (depth_ this));;
       foreach vp 0 (fun depth vd =>
         this ← get;
         lift (DCHECK_EQ NDEBUG RaggedShape (len vd) (height_ this));;
         foreach vd 0 (fun height vh =>
           this ← get;
           lift (DCHECK_EQ NDEBUG RaggedShape (len vh) (width_ this));;
           foreach vh 0 (fun width x =>
             write (0 + Z.of_nat j) depth height width x)))) t
      = Halt RaggedShape t').
  { intros j vp t Hvp (u & -> & Hu).
    apply (literal_plane_decide u (0 + Z.of_nat j) vp); try assumption; try lia.
    now replace (Z.to_nat (0 + Z.of_nat j)) with j by lia. }
  specialize (Hloop Hstep). clear Hstep.
  destruct (forallb (plane_ok (depth_ a0) (height_ a0) (width_ a0)) values).
  - destruct Hloop as (s' & Hrun & v' & -> & Hlen & Hv').
    exists v'. split; [exact Hrun|]. split; [exact Hlen|].
    intros p d h w Hin. apply Hv'; [exact Hin|].
    pose proof (offset_bounds a0 p d h w (proj1 W0) Hin) as B.
    rewrite (proj1 W0) in B. rewrite <- Hplanes. unfold offset in *. lia.
  - exact Hloop.
Qed.

End NestedLiteral.

(** ** Rectangular and ragged literals *)

Section Rectangular.
Context {T : Type}.
Implicit Types values : list (list (list (list T))).

Lemma rectangular_lengths nd nh nw values :
  rectangular nd nh nw values = true ->
  forall vp, In vp values ->
    len vp = nd /\ forall vd, In vd vp ->
      len vd = nh /\ forall vh, In vh vd -> len vh = nw.
Proof.
  unfold rectangular. intros H vp Hvp.
  rewrite forallb_forall in H. specialize (H vp Hvp).
  unfold plane_ok in H. apply andb_true_iff in H as [H1 H2].
  apply Z.eqb_eq in H1. split; [exact H1|]. intros vd Hvd.
  rewrite forallb_forall in H2. specialize (H2 vd Hvd).
  unfold depth_ok in H2. apply andb_true_iff in H2 as [H2 H3].
  apply Z.eqb_eq in H2. split; [exact H2|]. intros vh Hvh.
  rewrite forallb_forall in H3. specialize (H3 vh Hvh).
  now apply Z.eqb_eq in H3.
Qed.

Lemma siblings_differ_spec {A} (l : list (list A)) :
  siblings_differ l = true ->
  exists first s, In first l /\ In s l /\ len s <> len first.
Proof.
  destruct l as [|first rest]; [discriminate|]. cbn [siblings_differ].
  intros H. apply existsb_exists in H as (s & Hs & Hne).
  apply negb_true_iff, Z.eqb_neq in Hne.
  exists first, s. split; [now left|]. split; [now right|exact Hne].
Qed.

(** A literal that is ragged in the spec's sense fails one of the checks. *)
Lemma ragged_not_rectangular nd nh nw values :
  ragged values = true -> rectangular nd nh nw values = false.
Proof.
  intros Hr. destruct (rectangular nd nh nw values) eqn:Hrect; [|reflexivity].
  exfalso. pose proof (rectangular_lengths _ _ _ _ Hrect) as HL.
  unfold ragged in Hr. apply orb_true_iff in Hr as [Hr|Hr];
    [apply orb_true_iff in Hr as [Hr|Hr]|].
  - apply siblings_differ_spec in Hr as (f & s & Hf & Hs & Hne).
    destruct (HL f Hf) as [Lf _], (HL s Hs) as [Ls _]. congruence.
  - apply existsb_exists in Hr as (vp & Hvp & Hr).
    apply siblings_differ_spec in Hr as (f & s & Hf & Hs & Hne).
    destruct (HL vp Hvp) as [_ HL'].
    destruct (HL' f Hf) as [Lf _], (HL' s Hs) as [Ls _]. congruence.
  - apply existsb_exists in Hr as (vp & Hvp & Hr).
    apply existsb_exists in Hr as (vd & Hvd & Hr).
    apply siblings_differ_spec in Hr as (f & s & Hf & Hs & Hne).
    destruct (HL vp Hvp) as [_ HL'].
    destruct (HL' vd Hvd) as [_ HL''].
    pose proof (HL'' f Hf). pose proof (HL'' s Hs). congruence.
Qed.

Lemma lookup_In {A} (l : list A) i x : l !! i = Some x -> In x l.
Proof. intros H. apply list_elem_of_In. eapply list_elem_of_lookup_2. exact H. Qed.
End Rectangular.

(** ** The nested-literal constructor on any literal *)

(** A loop over a list, as far as it returns. *)
Lemma foreach_partial {S A} (I : Z -> S -> Prop) (body : Z -> A -> M S unit)
    (l : list A) (k0 : Z) (s : S) :
  I k0 s ->
  (forall (j : nat) x t, l !! j = Some x -> I (k0 + Z.of_nat j) t ->
     match body (k0 + Z.of_nat j) x t with
     | Ret _ t' => I (k0 + Z.of_nat j + 1) t'
     | _ => True
     end) ->
  match foreach l k0 body s with
  | Ret _ s' => I (k0 + len l) s'
  | _ => True
  end.
Proof.
  revert k0 s. induction l as [|x l IH]; intros k0 s H0 Hstep.
  - cbn. replace (k0 + len []) with k0 by (unfold len; cbn; lia). exact H0.
  - pose proof (Hstep O x s eq_refl) as Hx. cbn [foreach].
    replace (k0 + Z.of_nat 0) with k0 in Hx by lia. specialize (Hx H0).
    unfold mbind, M_bind. destruct (body k0 x s) as [[] t| |]; [|trivial..].
    specialize (IH (k0 + 1) t Hx).
    replace (k0 + len (x :: l)) with (k0 + 1 + len l)
      by (unfold len; cbn [length]; lia).
    apply IH. intros j y u Hy Hu.
    specialize (Hstep (Datatypes.S j) y u Hy).
    replace (k0 + Z.of_nat (Datatypes.S j)) with (k0 + 1 + Z.of_nat j) in Hstep by lia.
    now apply Hstep.
Qed.

Lemma op_call_Ok_inv `{FL : Floating} {T : Type} {SC : Scalar T}
    (a : Array4D T) p d h w pos :
  wf a -> 0 <= p -> 0 <= d -> 0 <= h -> 0 <= w ->
  op_call a p d h w = Ok pos ->
  in_range a p d h w /\ pos = Z.to_nat (offset a p d h w).
Proof.
  intros Hwf Hp Hd Hh Hw E.
  destruct (decide (p < planes_ a /\ d < depth_ a /\ h < height_ a /\ w < width_ a))
    as [Hin|Hout].
  - assert (Hr : in_range a p d h w) by (unfold in_range; lia).
    rewrite op_call_Ok in E by assumption. injection E as <-. now split.
  - rewrite op_call_out_of_range in E by lia. discriminate.
Qed.

Section AnyLiteral.
Context `{FL : Floating} {T : Type} {SC : Scalar T}.
Variable NDEBUG : bool.
Variable values : list (list (list (list T))).
Variable a0 : Array4D T.
Hypothesis W0 : wf a0.

Local Abbreviation st v := (set_values_ a0 v).
Local Abbreviation at_state P D H W :=
  (fun s => exists v, s = st v /\ placed a0 values P D H W v).

(** Moving the frontier of the walk over coordinates that hold no element. *)
Lemma placed_weaken P D H W P' D' H' W' v :
  (forall (p d h w : nat) x, nested_at values p d h w = Some x ->
     before (Z.of_nat p) (Z.of_nat d) (Z.of_nat h) (Z.of_nat w) P' D' H' W' ->
     before (Z.of_nat p) (Z.of_nat d) (Z.of_nat h) (Z.of_nat w) P D H W) ->
  placed a0 values P D H W v -> placed a0 values P' D' H' W' v.
Proof.
  intros Hb [E Hv]. split; [exact E|]. intros p d h w x Hx Hbef.
  apply Hv; [exact Hx|]. now apply (Hb p d h w x).
Qed.

Lemma nested_at_path (p d h w : nat) x :
  nested_at values p d h w = Some x ->
  exists vp vd vh, values !! p = Some vp /\ vp !! d = Some vd /\ vd !! h = Some vh
                   /\ vh !! w = Some x.
Proof.
  unfold nested_at. intros Hx.
  destruct (values !! p) as [vp|] eqn:Hvp; [|discriminate]. cbn in Hx.
  destruct (vp !! d) as [vd|] eqn:Hvd; [|discriminate]. cbn in Hx.
  destruct (vd !! h) as [vh|] eqn:Hvh; [|discriminate]. cbn in Hx.
  exists vp, vd, vh. auto.
Qed.

Lemma placed_write (p d h w : nat) vp vd vh x :
  values !! p = Some vp -> vp !! d = Some vd -> vd !! h = Some vh -> vh !! w = Some x ->
  forall s, at_state (Z.of_nat p) (Z.of_nat d) (Z.of_nat h) (Z.of_nat w) s ->
  match write (Z.of_nat p) (Z.of_nat d) (Z.of_nat h) (Z.of_nat w) x s with
  | Ret _ s' => at_state (Z.of_nat p) (Z.of_nat d) (Z.of_nat h) (Z.of_nat w + 1) s'
  | _ => True
  end.
Proof.
  intros Hvp Hvd Hvh Hx s (v & -> & [E Hv]). unfold write.
  destruct (op_call (st v) _ _ _ _) as [pos| |] eqn:Ecall; [|exact I..].
  apply op_call_Ok_inv in Ecall as [Hin ->]; [|now apply wf_set_values_|lia..].
  change (offset (st v) (Z.of_nat p) (Z.of_nat d) (Z.of_nat h) (Z.of_nat w))
    with (offset a0 (Z.of_nat p) (Z.of_nat d) (Z.of_nat h) (Z.of_nat w)).
  change (values_ (st v)) with v.
  change (in_range a0 (Z.of_nat p) (Z.of_nat d) (Z.of_nat h) (Z.of_nat w)) in Hin.
  eexists. split; [reflexivity|]. split; [now rewrite length_insert|].
  intros p' d' h' w' x' Hx' Hbef.
  pose proof (offset_bounds a0 _ _ _ _ (proj1 W0) Hin) as B.
  destruct (decide (p' = p /\ d' = d /\ h' = h /\ w' = w)) as [(-> & -> & -> & ->)|Hne].
  - split; [exact Hin|].
    assert (x' = x) as ->.
    { unfold nested_at in Hx'. rewrite Hvp in Hx'. cbn in Hx'. rewrite Hvd in Hx'.
      cbn in Hx'. rewrite Hvh in Hx'. cbn in Hx'. congruence. }
    apply list_lookup_insert_eq. lia.
  - destruct (Hv p' d' h' w' x' Hx') as [Hin' Hl'].
    { unfold before in *. lia. }
    split; [exact Hin'|].
    rewrite list_lookup_insert_ne; [exact Hl'|].
    intros Eo.
    pose proof (offset_bounds a0 _ _ _ _ (proj1 W0) Hin') as B'.
    assert (Eo' : offset a0 (Z.of_nat p) (Z.of_nat d) (Z.of_nat h) (Z.of_nat w)
                  = offset a0 (Z.of_nat p') (Z.of_nat d') (Z.of_nat h') (Z.of_nat w'))
      by lia.
    apply offset_inj in Eo'; [|assumption..]. lia.
Qed.

Lemma skip_DCHECK_EQ e x y (k : M (Array4D T) unit) (Q : Array4D T -> Prop) s :
  match k s with Ret _ s' => Q s' | _ => True end ->
  match (lift (DCHECK_EQ NDEBUG e x y) ;; k) s with Ret _ s' => Q s' | _ => True end.
Proof.
  intros Hk. unfold DCHECK_EQ, CHECK_EQ, mbind, M_bind, lift.
  destruct NDEBUG; [exact Hk|]. destruct (decide (x = y)); [exact Hk|exact I].
Qed.

Lemma placed_row (p d h : nat) vp vd vh :
  values !! p = Some vp -> vp !! d = Some vd -> vd !! h = Some vh ->
  forall s, at_state (Z.of_nat p) (Z.of_nat d) (Z.of_nat h) 0 s ->
  match (this ← get;
         lift (DCHECK_EQ NDEBUG RaggedShape (len vh) (width_ this));;
         foreach vh 0 (fun width x =>
           write (Z.of_nat p) (Z.of_nat d) (Z.of_nat h) width x)) s with
  | Ret _ s' => at_state (Z.of_nat p) (Z.of_nat d) (Z.of_nat h + 1) 0 s'
  | _ => True
  end.
Proof.
  intros Hvp Hvd Hvh s Hs. rewrite bind_get. apply skip_DCHECK_EQ.
  pose proof (foreach_partial
    (fun w => at_state (Z.of_nat p) (Z.of_nat d) (Z.of_nat h) w)
    (fun width x => write (Z.of_nat p) (Z.of_nat d) (Z.of_nat h) width x)
    vh 0 s Hs) as Hloop.
  match type of Hloop with ?A -> _ => assert (Hstep : A) end.
  { intros j x t Hx Ht. replace (0 + Z.of_nat j) with (Z.of_nat j) in * by lia.
    now apply (placed_write p d h j vp vd vh x). }
  specialize (Hloop Hstep).
  destruct (foreach vh 0 _ s) as [[] s'| |]; [|exact I..].
  destruct Hloop as (v & -> & Hv). exists v. split; [reflexivity|].
  revert Hv. apply placed_weaken. intros p' d' h' w' x Hx Hbef.
  destruct (nested_at_path _ _ _ _ _ Hx) as (vp' & vd' & vh' & Hp' & Hd' & Hh' & Hw').
  apply lookup_lt_Some in Hw'.
  destruct (decide (p' = p /\ d' = d /\ h' = h)) as [(-> & -> & ->)|Hne].
  - assert (vh' = vh) as -> by congruence.
    unfold before, len. lia.
  - unfold before in *. lia.
Qed.

Lemma placed_depth (p d : nat) vp vd :
  values !! p = Some vp -> vp !! d = Some vd ->
  forall s, at_state (Z.of_nat p) (Z.of_nat d) 0 0 s ->
  match (this ← get;
         lift (DCHECK_EQ NDEBUG RaggedShape (len vd) (height_ this));;
         foreach vd 0 (fun height vh =>
           this ← get;
           lift (DCHECK_EQ NDEBUG RaggedShape (len vh) (width_ this));;
           foreach vh 0 (fun width x =>
             write (Z.of_nat p) (Z.of_nat d) height width x))) s with
  | Ret _ s' => at_state (Z.of_nat p) (Z.of_nat d + 1) 0 0 s'
  | _ => True
  end.
Proof.
  intros Hvp Hvd s Hs. rewrite bind_get. apply skip_DCHECK_EQ.
  pose proof (foreach_partial
    (fun h => at_state (Z.of_nat p) (Z.of_nat d) h 0)
    (fun height vh =>
       this ← get;
       lift (DCHECK_EQ NDEBUG RaggedShape (len vh) (width_ this));;
       foreach vh 0 (fun width x =>
         write (Z.of_nat p) (Z.of_nat d) height width x))
    vd 0 s Hs) as Hloop.
  match type of Hloop with ?A -> _ => assert (Hstep : A) end.
  { intros j vh t Hvh Ht. replace (0 + Z.of_nat j) with (Z.of_nat j) in * by lia.
    now apply (placed_row p d j vp vd vh). }
  specialize (Hloop Hstep).
  destruct (foreach vd 0 _ s) as [[] s'| |]; [|exact I..].
  destruct Hloop as (v & -> & Hv). exists v. split; [reflexivity|].
  revert Hv. apply placed_weaken. intros p' d' h' w' x Hx Hbef.
  destruct (nested_at_path _ _ _ _ _ Hx) as (vp' & vd' & vh' & Hp' & Hd' & Hh' & Hw').
  apply lookup_lt_Some in Hh'.
  destruct (decide (p' = p /\ d' = d)) as [(-> & ->)|Hne].
  - assert (vp' = vp) as -> by congruence. assert (vd' = vd) as -> by congruence.
    unfold before, len. lia.
  - unfold before in *. lia.
Qed.

Lemma placed_plane (p : nat) vp :
  values !! p = Some vp ->
  forall s, at_state (Z.of_nat p) 0 0 0 s ->
  match (this ← get;
         lift (DCHECK_EQ NDEBUG RaggedShape (len vp) (depth_ this));;
         foreach vp 0 (fun depth vd =>
           this ← get;
           lift (DCHECK_EQ NDEBUG RaggedShape (len vd) (height_ this));;
           foreach vd 0 (fun height vh =>
             this ← get;
             lift (DCHECK_EQ NDEBUG RaggedShape (len vh) (width_ this));;
             foreach vh 0 (fun width x =>
               write (Z.of_nat p) depth height width x)))) s with
  | Ret _ s' => at_state (Z.of_nat p + 1) 0 0 0 s'
  | _ => True
  end.
Proof.
  intros Hvp s Hs. rewrite bind_get. apply skip_DCHECK_EQ.
  pose proof (foreach_partial
    (fun d => at_state (Z.of_nat p) d 0 0)
    (fun depth vd =>
       this ← get;
       lift (DCHECK_EQ NDEBUG RaggedShape (len vd) (height_ this));;
       foreach vd 0 (fun height vh =>
         this ← get;
         lift (DCHECK_EQ NDEBUG RaggedShape (len vh) (width_ this));;
         foreach vh 0 (fun width x =>
           write (Z.of_nat p) depth height width x)))
    vp 0 s Hs) as Hloop.
  match type of Hloop with ?A -> _ => assert (Hstep : A) end.
  { intros j vd t Hvd Ht. replace (0 + Z.of_nat j) with (Z.of_nat j) in * by lia.
    now apply (placed_depth p j vp vd). }
  specialize (Hloop Hstep).
  destruct (foreach vp 0 _ s) as [[] s'| |]; [|exact I..].
  destruct Hloop as (v & -> & Hv). exists v. split; [reflexivity|].
  revert Hv. apply placed_weaken. intros p' d' h' w' x Hx Hbef.
  destruct (nested_at_path _ _ _ _ _ Hx) as (vp' & vd' & vh' & Hp' & Hd' & Hh' & Hw').
  apply lookup_lt_Some in Hd'.
  destruct (decide (p' = p)) as [->|Hne].
  - assert (vp' = vp) as -> by congruence.
    unfold before, len. lia.
  - unfold before in *. lia.
Qed.

(** Whenever the body returns, every element of the literal is in the cell of
    its own coordinate. *)
Lemma nested_assign_placed :
  match nested_assign NDEBUG values a0 with
  | Ret _ s' =>
      exists v, s' = st v /\ length v = length (values_ a0)
        /\ forall (p d h w : nat) x, nested_at values p d h w = Some x ->
             in_range a0 (Z.of_nat p) (Z.of_nat d) (Z.of_nat h) (Z.of_nat w)
             /\ v !! Z.to_nat (offset a0 (Z.of_nat p) (Z.of_nat d) (Z.of_nat h) (Z.of_nat w))
                = Some x
  | _ => True
  end.
Proof.
  unfold nested_assign.
  assert (Hs : at_state 0 0 0 0 a0).
  { exists (values_ a0). split; [symmetry; apply set_values_id|].
    split; [reflexivity|]. intros p d h w x _ Hbef. unfold before in Hbef. lia. }
  pose proof (foreach_partial
    (fun p => at_state p 0 0 0)
    (fun plane vp =>
       this ← get;
       lift (DCHECK_EQ NDEBUG RaggedShape (len vp) (depth_ this));;
       foreach vp 0 (fun depth vd =>
         this ← get;
         lift (DCHECK_EQ NDEBUG RaggedShape (len vd) (height_ this));;
         foreach vd 0 (fun height vh =>
           this ← get;
           lift (DCHECK_EQ NDEBUG RaggedShape (len vh) (width_ this));;
           foreach vh 0 (fun width x => write plane depth height width x))))
    values 0 a0 Hs) as Hloop.
  match type of Hloop with ?A -> _ => assert (Hstep : A) end.
  { intros j vp t Hvp Ht. replace (0 + Z.of_nat j) with (Z.of_nat j) in * by lia.
    now apply (placed_plane j vp). }
  specialize (Hloop Hstep).
  destruct (foreach values 0 _ a0) as [[] s'| |]; [|exact I..].
  destruct Hloop as (v & -> & [E Hv]). exists v. split; [reflexivity|].
  split; [exact E|]. intros p d h w x Hx. apply (Hv p d h w x Hx).
  destruct (nested_at_path _ _ _ _ _ Hx) as (vp & _ & _ & Hp & _).
  apply lookup_lt_Some in Hp. unfold before, len. lia.
Qed.

End AnyLiteral.

(** C7 (as stated, refuted).  In a build with [NDEBUG] the three [DCHECK_EQ]
    are compiled out: a literal whose second row is shorter than the first
    is accepted, the missing cell keeping the default value, and one whose
    second row is longer stops on the bounds check of [operator()]. *)
Lemma Array4D_nested_ragged_counterexample :
  let short : list (list (list (list Z))) := [[[[1; 2]; [3]]]] in
  let long : list (list (list (list Z))) := [[[[1; 2]; [3; 4; 5]]]] in
  ragged short = true /\ ragged long = true
  /\ Array4D_nested true short = Ok (mkArray4D 1 1 2 2 [1; 2; 3; 0])
  /\ Array4D_nested true long = Stop IndexOutOfRange
  /\ Array4D_nested true short <> Stop RaggedShape
  /\ Array4D_nested true long <> Stop RaggedShape.
Proof. cbv zeta. repeat split; discriminate. Qed.

Lemma Array4D_sized_dims `{FL : Floating} {T : Type} {SC : Scalar T} p d h w (a : Array4D T) :
  Array4D_sized p d h w = Ok a ->
  planes_ a = p /\ depth_ a = d /\ height_ a = h /\ width_ a = w.
Proof.
  unfold Array4D_sized.
  destruct (product4 p d h w) as [n| |]; cbn; try discriminate.
  destruct (vector_fill n T_default) as [v| |]; cbn; try discriminate.
  intros [= <-]. repeat split.
Qed.

(** C7 (amended).  The constructor takes the four dimensions from the first
    element of each level, and whenever it returns, in any build, each
    element of the literal is read back at the coordinate of its position
    (plane, depth, height, width).  For a literal whose three outer levels
    start with a non-empty list and whose inferred element count can be
    allocated: a rectangular literal is accepted, in any build; in a build
    without [NDEBUG] a literal that is not rectangular stops on a
    [DCHECK_EQ] (RaggedShape).  A literal in which some list differs in
    length from its first sibling is not rectangular. *)
Theorem Array4D_nested_spec `{FL : Floating} {T : Type} {SC : Scalar T}
    (NDEBUG : bool) (values : list (list (list (list T)))) :
  let plane0 := hd [] values in
  let depth0 := hd [] plane0 in
  let row0 := hd [] depth0 in
  let np := len values in
  let nd := len plane0 in
  let nh := len depth0 in
  let nw := len row0 in
  (forall a, Array4D_nested NDEBUG values = Ok a ->
     n1 a = np /\ n2 a = nd /\ n3 a = nh /\ n4 a = nw
     /\ forall (p d h w : nat) x, nested_at values p d h w = Some x ->
          read a (Z.of_nat p) (Z.of_nat d) (Z.of_nat h) (Z.of_nat w) = Ok x)
  /\ (values <> [] -> plane0 <> [] -> depth0 <> [] ->
      in_int64 (np * nd) -> in_int64 (np * nd * nh) ->
      np * nd * nh * nw <= vector_max_size (T := T) ->
      (rectangular nd nh nw values = true ->
         exists a, Array4D_nested NDEBUG values = Ok a)
      /\ (NDEBUG = false -> rectangular nd nh nw values = false ->
            Array4D_nested NDEBUG values = Stop RaggedShape))
  /\ (ragged values = true -> rectangular nd nh nw values = false).
Proof.
  intros plane0 depth0 row0 np nd nh nw. split; [|split].
  - intros a Ha. unfold Array4D_nested in Ha.
    subst plane0 depth0 row0 np nd nh nw.
    destruct values as [|[|[|r0 d0] p0] rest]; try discriminate.
    cbn [hd]. unfold construct in Ha.
    set (values' := ((r0 :: d0) :: p0) :: rest) in *.
    pose proof (Array4D_sized_wf (T := T)
                  (len values') (len ((r0 :: d0) :: p0)) (len (r0 :: d0)) (len r0)) as W0.
    destruct (Array4D_sized _ _ _ _) as [a0| |] eqn:E0; try discriminate.
    cbn [mbind outcome_bind] in Ha. cbn in W0.
    apply Array4D_sized_dims in E0 as (D1 & D2 & D3 & D4).
    pose proof (nested_assign_placed NDEBUG values' a0 W0) as Hplaced.
    destruct (nested_assign NDEBUG values' a0) as [[] s'| |]; try discriminate.
    injection Ha as <-. destruct Hplaced as (v & -> & Hlen & Hv).
    repeat (split; [assumption|]).
    intros p d h w x Hx. destruct (Hv p d h w x Hx) as [Hin Hl].
    unfold read. rewrite op_call_Ok; [|now apply wf_set_values_|exact Hin].
    cbn [mbind outcome_bind]. unfold load.
    change (offset (set_values_ a0 v) (Z.of_nat p) (Z.of_nat d) (Z.of_nat h) (Z.of_nat w))
      with (offset a0 (Z.of_nat p) (Z.of_nat d) (Z.of_nat h) (Z.of_nat w)).
    change (values_ (set_values_ a0 v)) with v. now rewrite Hl.
  - intros Hv Hp Hd O1 O2 O3.
    assert (Hnn : 0 <= np * nd * nh * nw).
    { unfold np, nd, nh, nw, len.
      repeat apply Z.mul_nonneg_nonneg; apply Nat2Z.is_nonneg. }
    pose proof (vector_max_size_int64 (T := T)) as Hmax.
    set (a0 := mkArray4D np nd nh nw (replicate (Z.to_nat (np * nd * nh * nw)) T_default)).
    assert (Hsized : Array4D_sized np nd nh nw = Ok a0).
    { apply allocated_Ok; try assumption; unfold np, nd, nh, nw, len; lia. }
    assert (W0 : wf a0).
    { unfold wf, invariant, a0. cbn [values_ planes_ depth_ height_ width_].
      rewrite length_replicate. lia. }
    assert (Hrun : Array4D_nested NDEBUG values
                   = construct (Ok a0) (nested_assign NDEBUG values)).
    { unfold Array4D_nested. rewrite <- Hsized.
      destruct values as [|[|[|r0 d0] p0] rest]; try contradiction. reflexivity. }
    pose proof (nested_assign_decide NDEBUG values a0 W0 eq_refl) as Hdec.
    change (depth_ a0) with nd in Hdec. change (height_ a0) with nh in Hdec.
    change (width_ a0) with nw in Hdec.
    split.
    + intros Hrect. rewrite Hrect in Hdec. destruct Hdec as (v' & Hbody & _).
      exists (set_values_ a0 v').
      rewrite Hrun. unfold construct. cbn [mbind outcome_bind]. now rewrite Hbody.
    + intros Hs Hrect. rewrite Hrect in Hdec. destruct (Hdec Hs) as (t' & Hbody).
      rewrite Hrun. unfold construct. cbn [mbind outcome_bind]. now rewrite Hbody.
  - apply ragged_not_rectangular.
Qed.

Lemma Array4D_nested_spec_witness :
  (exists a, Array4D_nested false [[[[1; 2]; [3; 4]]; [[5; 6]; [7; 8]]]] = Ok a
             /\ read a 0 1 1 0 = Ok 7)
  /\ Array4D_nested false [[[[1; 2]; [3]]]] = Stop RaggedShape.
Proof.
  split.
  - destruct (Array4D_nested_spec (T := Z) false [[[[1; 2]; [3; 4]]; [[5; 6]; [7; 8]]]])
      as (Hplace & H & _).
    destruct H as [H _].
    + discriminate.
    + discriminate.
    + discriminate.
    + vm_compute. split; discriminate.
    + vm_compute. split; discriminate.
    + vm_compute. discriminate.
    + destruct H as (a & Ha); [reflexivity|].
      exists a. split; [exact Ha|].
      destruct (Hplace a Ha) as (_ & _ & _ & _ & Hr).
      apply (Hr 0%nat 1%nat 1%nat 0%nat 7). reflexivity.
  - destruct (Array4D_nested_spec (T := Z) false [[[[1; 2]; [3]]]]) as (_ & H & Hrag).
    destruct H as [_ H].
    + discriminate.
    + discriminate.
    + discriminate.
    + vm_compute. split; discriminate.
    + vm_compute. split; discriminate.
    + vm_compute. discriminate.
    + apply H; [reflexivity|]. apply Hrag. reflexivity.
Defined.

(** ** Reading back what was written *)

Section ReadWrite.
Context `{FL : Floating} {T : Type} {SC : Scalar T}.
Implicit Types a : Array4D T.

Lemma read_set_values_ a v p d h w x :
  wf a -> length v = length (values_ a) -> in_range a p d h w ->
  v !! Z.to_nat (offset a p d h w) = Some x ->
  read (set_values_ a v) p d h w = Ok x.
Proof.
  intros Hwf E Hin Hx. unfold read.
  rewrite op_call_Ok; [|now apply wf_set_values_|exact Hin].
  cbn [mbind outcome_bind]. unfold load.
  change (offset (set_values_ a v) p d h w) with (offset a p d h w).
  change (values_ (set_values_ a v)) with v. now rewrite Hx.
Qed.

(** The index expression of [operator()] computes the linear index or
    overflows; it never stops on a check. *)
Lemma linear_index_exact a p d h w :
  linear_index a p d h w = Ok (offset a p d h w)
  \/ linear_index a p d h w = Undefined.
Proof.
  unfold linear_index, mul64, add64, int64.
  repeat match goal with
  | |- context [decide (in_int64 ?z)] =>
      destruct (decide (in_int64 z)); cbn [mbind outcome_bind]; [|now right]
  end.
  left. reflexivity.
Qed.

(** X1.  A value assigned through [operator()] at a coordinate in range is
    the value read back at that coordinate, and the assignment changes no
    other cell and no dimension. *)
Theorem write_read a p d h w x :
  wf a -> in_range a p d h w ->
  exists a', write p d h w x a = Ret tt a'
    /\ wf a' /\ same_shape a' a
    /\ read a' p d h w = Ok x
    /\ forall p' d' h' w', in_range a p' d' h' w' ->
         (p', d', h', w') <> (p, d, h, w) ->
         read a' p' d' h' w' = read a p' d' h' w'.
Proof.
  intros Hwf Hin.
  pose proof (offset_bounds a p d h w (proj1 Hwf) Hin) as B.
  exists (set_values_ a (<[Z.to_nat (offset a p d h w) := x]> (values_ a))).
  split; [now apply write_Ret|].
  split; [apply wf_set_values_; [assumption|apply length_insert]|].
  split; [repeat split|].
  split.
  - apply read_set_values_; [assumption|apply length_insert|assumption|].
    apply list_lookup_insert_eq. lia.
  - intros p' d' h' w' Hin' Hne.
    pose proof (offset_bounds a p' d' h' w' (proj1 Hwf) Hin') as B'.
    rewrite (read_Ok T_default a) by assumption.
    apply read_set_values_; [assumption|apply length_insert|assumption|].
    rewrite list_lookup_insert_ne.
    + now apply lookup_offset; [apply Hwf|].
    + intros E. apply Hne.
      destruct (offset_inj a p d h w p' d' h' w' Hin Hin') as (-> & -> & -> & ->);
        [lia|reflexivity].
Qed.

(** X2.  The layout is a one-to-one correspondence: on a well-formed
    container, [operator()] sends the coordinates in range to positions of
    the vector, two different coordinates to two different positions, and,
    when no dimension is negative, every position of the vector is the one
    of some coordinate. *)
Theorem layout_one_to_one a :
  wf a ->
  (forall p d h w, in_range a p d h w ->
     exists pos, op_call a p d h w = Ok pos /\ (pos < length (values_ a))%nat)
  /\ (forall p d h w p' d' h' w',
        in_range a p d h w -> in_range a p' d' h' w' ->
        op_call a p d h w = op_call a p' d' h' w' ->
        (p, d, h, w) = (p', d', h', w'))
  /\ (0 <= planes_ a -> 0 <= depth_ a -> 0 <= height_ a -> 0 <= width_ a ->
      forall pos, (pos < length (values_ a))%nat ->
        exists p d h w, in_range a p d h w /\ op_call a p d h w = Ok pos).
Proof.
  intros Hwf. split; [|split].
  - intros p d h w Hin. exists (Z.to_nat (offset a p d h w)).
    split; [now apply op_call_Ok|].
    pose proof (offset_bounds a p d h w (proj1 Hwf) Hin). lia.
  - intros p d h w p' d' h' w' Hin Hin' E.
    rewrite !op_call_Ok in E by assumption. injection E as E.
    pose proof (offset_bounds a p d h w (proj1 Hwf) Hin).
    pose proof (offset_bounds a p' d' h' w' (proj1 Hwf) Hin').
    destruct (offset_inj a p d h w p' d' h' w' Hin Hin') as (-> & -> & -> & ->);
      [lia|reflexivity].
  - intros H1 H2 H3 H4 pos Hpos.
    destruct (offset_surj a (Z.of_nat pos)) as (p & d & h & w & Hin & E);
      try assumption.
    { rewrite <- (proj1 Hwf). lia. }
    exists p, d, h, w. split; [exact Hin|].
    rewrite op_call_Ok by assumption. rewrite E. now rewrite Nat2Z.id.
Qed.

(** X3.  [operator()] checks each coordinate against its dimension from
    above only.  On a well-formed container, a width coordinate [w] with
    [-n4 <= w < 0], in a row [h >= 1], passes the four checks and refers to
    the cell [(p, d, h-1, w+n4)] of the row before; a negative plane
    coordinate, the others being in range, passes the checks as well and
    subscripts the vector before its first element, which has no defined
    behaviour. *)
Theorem op_call_negative a p d h w :
  wf a ->
  (0 <= p < planes_ a -> 0 <= d < depth_ a -> 1 <= h < height_ a ->
   - width_ a <= w < 0 ->
     op_call a p d h w = Ok (Z.to_nat (offset a p d (h - 1) (w + width_ a)))
     /\ read a p d h w = read a p d (h - 1) (w + width_ a))
  /\ (p < 0 -> in_range a 0 d h w -> op_call a p d h w = Undefined).
Proof.
  intros Hwf. split.
  - intros Hp Hd Hh Hw.
    assert (Hin : in_range a p d (h - 1) (w + width_ a)) by (unfold in_range; lia).
    assert (Hin0 : in_range a p d h 0) by (unfold in_range; lia).
    assert (Eo : offset a p d h w = offset a p d (h - 1) (w + width_ a))
      by (unfold offset; ring).
    assert (Ec : op_call a p d h w = Ok (Z.to_nat (offset a p d (h - 1) (w + width_ a)))).
    { destruct Hwf as [Hinv Hmax].
      pose proof (offset_bounds a _ _ _ _ Hinv Hin) as B.
      destruct Hin0 as (Hp0 & Hd0 & Hh0 & Hw0).
      pose proof (layout_bounds _ _ _ _ _ _ _ _ Hp0 Hd0 Hh0 Hw0) as B0. cbv zeta in B0.
      rewrite <- Hinv in B0.
      destruct B0 as (B1 & B2 & B3 & B4 & B5 & B6 & B7 & B8 & B9).
      unfold op_call. rewrite !CHECK_LT_Ok by lia. cbn [mbind outcome_bind].
      assert (El : linear_index a p d h w = Ok (offset a p d h w)).
      { unfold linear_index, offset.
        repeat (first [rewrite mul64_Ok by (eapply in_int64_between; eauto; lia)
                      |rewrite add64_Ok by (eapply in_int64_between; eauto; lia)];
                cbn [mbind outcome_bind]).
        rewrite add64_Ok; [reflexivity|].
        apply (in_int64_between _ (Z.of_nat (length (values_ a)))); [|assumption].
        unfold offset in B, Eo. lia. }
      rewrite El. cbn [mbind outcome_bind]. unfold subscript.
      rewrite Eo. now rewrite decide_True by exact B. }
    split; [exact Ec|].
    unfold read. rewrite Ec. now rewrite op_call_Ok by assumption.
  - intros Hp Hin.
    pose proof (offset_bounds a _ _ _ _ (proj1 Hwf) Hin) as B.
    pose proof Hin as (Hp0 & Hd0 & Hh0 & Hw0).
    pose proof (layout_bounds _ _ _ _ _ _ _ _ Hp0 Hd0 Hh0 Hw0) as B0. cbv zeta in B0.
    assert (Hneg : offset a p d h w < 0).
    { unfold offset in *.
      assert (p * (depth_ a * height_ a * width_ a)
              <= - (depth_ a * height_ a * width_ a)) by nia.
      assert (d * (height_ a * width_ a) + h * width_ a + w
              < depth_ a * height_ a * width_ a) by nia.
      lia. }
    unfold op_call. rewrite !CHECK_LT_Ok by lia. cbn [mbind outcome_bind].
    destruct (linear_index_exact a p d h w) as [-> | ->]; [|reflexivity].
    cbn [mbind outcome_bind]. unfold subscript. rewrite decide_False by lia.
    reflexivity.
Qed.

End ReadWrite.

Lemma write_read_witness :
  exists a', write 0 0 1 2 9 example_lhs = Ret tt a'
    /\ read a' 0 0 1 2 = Ok 9 /\ read a' 0 0 1 1 = Ok 5.
Proof.
  destruct (write_read example_lhs 0 0 1 2 9) as (a' & Hw & _ & _ & Hr & Ho).
  - unfold wf, invariant, INT64_MAX. cbn. lia.
  - unfold in_range. cbn. lia.
  - exists a'. split; [exact Hw|]. split; [exact Hr|].
    rewrite (Ho 0 0 1 1).
    + reflexivity.
    + unfold in_range. cbn. lia.
    + discriminate.
Defined.

Lemma layout_one_to_one_witness :
  (exists pos, op_call example_lhs 0 0 1 0 = Ok pos /\ (pos < 6)%nat)
  /\ exists p d h w, in_range example_lhs p d h w /\ op_call example_lhs p d h w = Ok 4%nat.
Proof.
  destruct (layout_one_to_one example_lhs) as (H1 & _ & H3).
  - unfold wf, invariant, INT64_MAX. cbn. lia.
  - split.
    + apply (H1 0 0 1 0). unfold in_range. cbn. lia.
    + apply (H3 ltac:(cbn; lia) ltac:(cbn; lia) ltac:(cbn; lia) ltac:(cbn; lia) 4%nat).
      cbn. lia.
Defined.

Lemma op_call_negative_witness :
  read example_lhs 0 0 1 (-1) = Ok 3 /\ op_call example_lhs (-1) 0 1 2 = Undefined.
Proof.
  destruct (op_call_negative example_lhs 0 0 1 (-1)) as [H1 _].
  { unfold wf, invariant, INT64_MAX. cbn. lia. }
  destruct (op_call_negative example_lhs (-1) 0 1 2) as [_ H2].
  { unfold wf, invariant, INT64_MAX. cbn. lia. }
  split.
  - destruct H1 as [_ ->]; cbn; try lia. reflexivity.
  - apply H2; [lia|]. unfold in_range. cbn. lia.
Defined.


(** ** What the constructors build, and what they refuse *)

Section Construct.
Context `{FL : Floating} {T : Type} {SC : Scalar T}.
Implicit Types a : Array4D T.

(** X4.  On dimensions that are not negative, whose product is computed
    without overflow and can be allocated, the value-filled constructor
    returns a container of these dimensions in which every coordinate in
    range reads the value, and every coordinate that reaches a dimension is
    refused; the sized constructor is the same with [T()] for the value. *)
Theorem Array4D_filled_read p d h w (value : T) :
  0 <= p -> 0 <= d -> 0 <= h -> 0 <= w ->
  in_int64 (p * d) -> in_int64 (p * d * h) ->
  p * d * h * w <= vector_max_size (T := T) ->
  exists a, Array4D_filled p d h w value = Ok a
    /\ n1 a = p /\ n2 a = d /\ n3 a = h /\ n4 a = w
    /\ num_elements a = p * d * h * w
    /\ (forall p' d' h' w', in_range a p' d' h' w' ->
          read a p' d' h' w' = Ok value)
    /\ (forall p' d' h' w', p <= p' \/ d <= d' \/ h <= h' \/ w <= w' ->
          read a p' d' h' w' = Stop IndexOutOfRange)
    /\ Array4D_sized p d h w = Array4D_filled p d h w T_default.
Proof.
  intros Hp Hd Hh Hw O1 O2 O3.
  pose proof (vector_max_size_int64 (T := T)) as Hmax.
  assert (Hnn : 0 <= p * d * h * w) by (repeat apply Z.mul_nonneg_nonneg; assumption).
  set (a := mkArray4D p d h w (replicate (Z.to_nat (p * d * h * w)) value)).
  assert (Hwf : wf a).
  { unfold wf, invariant, a. cbn [values_ planes_ depth_ height_ width_].
    rewrite length_replicate. lia. }
  exists a. split; [now apply allocated_Ok|].
  repeat (split; [reflexivity|]).
  split; [unfold num_elements, a; cbn [values_]; rewrite length_replicate; lia|].
  split; [|split; [|reflexivity]].
  - intros p' d' h' w' Hin.
    pose proof (offset_bounds a _ _ _ _ (proj1 Hwf) Hin) as B.
    unfold read. rewrite op_call_Ok by assumption. cbn [mbind outcome_bind].
    unfold load.
    assert (El : length (values_ a) = Z.to_nat (p * d * h * w))
      by apply length_replicate.
    rewrite El in B.
    change (values_ a) with (replicate (Z.to_nat (p * d * h * w)) value).
    rewrite lookup_replicate_2; [reflexivity|]. lia.
  - intros p' d' h' w' Hout. unfold read.
    now rewrite op_call_out_of_range by exact Hout.
Qed.

(** X5.  The constructors never look at one dimension alone, only at the
    product.  When the product is negative, or larger than a vector can be,
    the sized and the value-filled constructor and the constructor from a
    container stop in the allocation of the vector ([std::length_error]),
    the last one before it has compared any size; when the product is
    negative the constructor from a vector stops on its [CHECK_EQ]. *)
Theorem constructor_bad_product p d h w n (value : T) (input : list T) :
  product4 p d h w = Ok n ->
  (n < 0 \/ vector_max_size (T := T) < n ->
     Array4D_sized (T := T) p d h w = Stop LengthError
     /\ Array4D_filled p d h w value = Stop LengthError
     /\ Array4D_of_container p d h w input = Stop LengthError)
  /\ (n < 0 -> Array4D_of_vector p d h w input = Stop ShapeMismatch).
Proof.
  intros En. split.
  - intros Hn.
    assert (Hv : forall x : T, vector_fill n x = Stop LengthError).
    { intros x. unfold vector_fill. rewrite decide_False by lia. reflexivity. }
    unfold Array4D_of_container, construct, Array4D_sized, Array4D_filled.
    rewrite En. cbn [mbind outcome_bind]. rewrite !Hv. repeat split.
  - intros Hn. unfold Array4D_of_vector. rewrite En. cbn [mbind outcome_bind].
    rewrite CHECK_EQ_Stop by lia. reflexivity.
Qed.

(** X6.  Two negative dimensions are accepted: with a negative number of
    planes and a negative depth, a positive height and width, and a product
    that can be allocated, the sized constructor returns a well-formed
    container that has elements.  No coordinate made of numbers from 0 on
    reaches them, since a plane coordinate from 0 on and a depth coordinate
    from 0 on fail their checks.  The checks being one-sided, coordinates
    below the negative dimensions pass them: [(n1 - 1, n2 - 1, 0, 0)] refers
    to the element at linear index [n1*n2*n3*n4 - n3*n4], when the index
    expression does not overflow. *)
Theorem Array4D_sized_negative_dimensions p d h w :
  p < 0 -> d < 0 -> 0 < h -> 0 < w ->
  in_int64 (p * d) -> in_int64 (p * d * h) ->
  p * d * h * w <= vector_max_size (T := T) ->
  exists a : Array4D T, Array4D_sized p d h w = Ok a
    /\ wf a /\ 0 < num_elements a
    /\ (forall p' d' h' w', 0 <= p' \/ 0 <= d' ->
          op_call a p' d' h' w' = Stop IndexOutOfRange)
    /\ (in_int64 ((p - 1) * (d * h * w)) ->
          op_call a (p - 1) (d - 1) 0 0
          = Ok (Z.to_nat (p * d * h * w - h * w))).
Proof.
  intros Hp Hd Hh Hw O1 O2 O3.
  pose proof (vector_max_size_int64 (T := T)) as Hmax.
  assert (Hhw : 0 < h * w) by (apply Z.mul_pos_pos; assumption).
  assert (Hpd : 0 < p * d) by (apply Z.mul_neg_neg; assumption).
  assert (Hpos : 0 < p * d * h * w).
  { rewrite <- Z.mul_assoc. apply Z.mul_pos_pos; assumption. }
  exists (mkArray4D p d h w (replicate (Z.to_nat (p * d * h * w)) T_default)).
  split; [|split; [|split; [|split]]].
  - unfold Array4D_sized.
    rewrite product4_no_overflow;
      [|assumption|assumption|unfold in_int64, INT64_MIN in *; lia].
    cbn [mbind outcome_bind]. unfold vector_fill.
    rewrite decide_True by lia. reflexivity.
  - unfold wf, invariant. cbn [values_ planes_ depth_ height_ width_].
    rewrite length_replicate. lia.
  - unfold num_elements. cbn [values_]. rewrite length_replicate. lia.
  - intros p' d' h' w' Hout. apply op_call_out_of_range.
    cbn [planes_ depth_ height_ width_]. lia.
  - intros O4.
    set (B := h * w) in *. set (N := p * d * h * w) in *.
    assert (EN : N = p * d * B) by (unfold N, B; ring).
    assert (Edhw : d * h * w = d * B) by (unfold B; ring).
    rewrite Edhw in O4.
    (* the summands of the index, all between -N - d*B and N - d*B *)
    assert (HdB : d * B <= - B) by nia.
    assert (HNdB : - (d * B) <= N).
    { rewrite EN. assert (1 * (d * B) >= - p * (d * B)) by nia. nia. }
    assert (Hdh : - N <= d * h < 0).
    { split; [|nia]. assert (- (d * h) * 1 <= - (d * h) * w) by nia.
      replace (- (d * h) * w) with (- (d * B)) in * by (unfold B; ring). lia. }
    assert (Ht2 : - ((p - 1) * (d * B)) <= (d - 1) * B < 0).
    { split; [|nia].
      replace ((p - 1) * (d * B)) with (N - d * B) by (rewrite EN; ring).
      replace ((d - 1) * B) with (d * B - B) by ring. lia. }
    assert (Hs1 : (p - 1) * (d * B) + (d - 1) * B = N - B) by (rewrite EN; ring).
    assert (I64 : forall z, - INT64_MAX <= z <= INT64_MAX -> in_int64 z)
      by (unfold in_int64, INT64_MIN, INT64_MAX; lia).
    destruct O4 as [O4l O4u].
    unfold op_call. cbn [planes_ depth_ height_ width_ values_].
    rewrite !CHECK_LT_Ok by lia. cbn [mbind outcome_bind].
    unfold linear_index. cbn [planes_ depth_ height_ width_].
    rewrite (mul64_Ok d h) by (apply I64; lia). cbn [mbind outcome_bind].
    rewrite (mul64_Ok (d * h) w) by (rewrite Edhw; apply I64; lia).
    cbn [mbind outcome_bind]. rewrite Edhw.
    rewrite (mul64_Ok (p - 1) (d * B)) by (split; assumption).
    cbn [mbind outcome_bind].
    fold B. rewrite (mul64_Ok h w) by (fold B; apply I64; lia).
    cbn [mbind outcome_bind]. fold B.
    rewrite (mul64_Ok (d - 1) B) by (apply I64; lia). cbn [mbind outcome_bind].
    rewrite (add64_Ok ((p - 1) * (d * B)) ((d - 1) * B))
      by (rewrite Hs1; apply I64; lia).
    cbn [mbind outcome_bind]. rewrite Hs1.
    rewrite (mul64_Ok 0 w) by (apply I64; unfold INT64_MAX; lia).
    cbn [mbind outcome_bind].
    rewrite (add64_Ok (N - B) (0 * w)) by (apply I64; lia).
    cbn [mbind outcome_bind].
    rewrite (add64_Ok (N - B + 0 * w) 0) by (apply I64; lia).
    cbn [mbind outcome_bind].
    unfold subscript. rewrite length_replicate.
    rewrite decide_True by lia. f_equal. f_equal. lia.
Qed.

(** *** [Fill] and [FillIota] *)

Lemma const_fmap_replicate {A B} (l : list A) (x : B) :
  (fun _ => x) <$> l = replicate (length l) x.
Proof. induction l as [|y l IH]; [reflexivity|]. cbn. now rewrite IH. Qed.

(** X7.  After [Fill(value)] the vector holds the value at every position:
    the shape is the one before, and each coordinate in range reads the
    value. *)
Theorem Fill_read value a :
  wf a ->
  flatten (Fill value a) = replicate (length (flatten a)) value
  /\ same_shape (Fill value a) a
  /\ forall p d h w, in_range a p d h w -> read (Fill value a) p d h w = Ok value.
Proof.
  intros Hwf. split; [apply const_fmap_replicate|]. split; [repeat split|].
  intros p d h w Hin.
  pose proof (offset_bounds a _ _ _ _ (proj1 Hwf) Hin) as B.
  apply read_set_values_; [assumption|apply length_fmap|assumption|].
  rewrite const_fmap_replicate. apply lookup_replicate_2. lia.
Qed.

Lemma iota_lookup (l : list T) x i :
  (i < length l)%nat -> iota l x !! i = Some (Nat.iter i T_succ x).
Proof.
  revert x i. induction l as [|y l IH]; intros x i Hi; [cbn in Hi; lia|].
  destruct i as [|i]; [reflexivity|].
  cbn [iota]. rewrite lookup_cons. rewrite IH by (cbn in Hi; lia).
  f_equal. symmetry. apply Nat.iter_succ_r.
Qed.

(** X8.  After [FillIota(value)] the cell at a coordinate holds the value
    incremented as many times as the linear index of the coordinate says:
    the cells count up in the order of the layout, width first. *)
Theorem FillIota_read value a p d h w :
  wf a -> in_range a p d h w ->
  read (FillIota value a) p d h w
  = Ok (Nat.iter (Z.to_nat (offset a p d h w)) T_succ value).
Proof.
  intros Hwf Hin.
  pose proof (offset_bounds a _ _ _ _ (proj1 Hwf) Hin) as B.
  apply read_set_values_; [assumption|apply length_iota|assumption|].
  apply iota_lookup. lia.
Qed.

End Construct.

Lemma Array4D_filled_read_witness :
  exists a, Array4D_filled 1 2 2 3 7 = Ok a /\ num_elements a = 12
            /\ read a 0 1 1 2 = Ok 7 /\ read a 0 2 0 0 = Stop IndexOutOfRange.
Proof.
  destruct (Array4D_filled_read (T := Z) 1 2 2 3 7)
    as (a & Ha & _ & _ & _ & _ & Hn & Hr & Ho & _);
    try (unfold in_int64, INT64_MIN, INT64_MAX; cbn; lia).
  exists a. split; [exact Ha|]. split; [exact Hn|]. split.
  - apply Hr. unfold Array4D_filled in Ha. vm_compute in Ha. injection Ha as <-.
    unfold in_range. cbn. lia.
  - apply Ho. lia.
Defined.

Lemma constructor_bad_product_witness :
  Array4D_sized (T := Z) (-1) 1 2 3 = Stop LengthError
  /\ Array4D_of_vector (-1) 1 2 3 [1; 2; 3; 4; 5; 6] = Stop ShapeMismatch.
Proof.
  destruct (constructor_bad_product (T := Z) (-1) 1 2 3 (-6) 0 [1; 2; 3; 4; 5; 6])
    as [H1 H2].
  - reflexivity.
  - split.
    + apply H1. left. lia.
    + apply H2. lia.
Defined.

Lemma Array4D_sized_negative_dimensions_witness :
  exists a : Array4D Z, Array4D_sized (-1) (-2) 1 3 = Ok a
    /\ 0 < num_elements a /\ op_call a 0 0 0 0 = Stop IndexOutOfRange
    /\ op_call a (-2) (-3) 0 0 = Ok 3%nat.
Proof.
  destruct (Array4D_sized_negative_dimensions (T := Z) (-1) (-2) 1 3)
    as (a & Ha & _ & Hn & Ho & Hneg);
    try (unfold in_int64, INT64_MIN, INT64_MAX; cbn; lia).
  exists a. split; [exact Ha|]. split; [exact Hn|].
  split; [apply Ho; left; lia|].
  apply Hneg. unfold in_int64, INT64_MIN, INT64_MAX. cbn. lia.
Defined.

Lemma Fill_read_witness :
  flatten (Fill 7 example_lhs) = [7; 7; 7; 7; 7; 7]
  /\ read (Fill 7 example_lhs) 0 0 1 1 = Ok 7.
Proof.
  destruct (Fill_read 7 example_lhs) as (H1 & _ & H2).
  - unfold wf, invariant, INT64_MAX. cbn. lia.
  - split; [exact H1|]. apply H2. unfold in_range. cbn. lia.
Defined.

Lemma FillIota_read_witness :
  read (FillIota 10 example_lhs) 0 0 1 2 = Ok 15.
Proof.
  rewrite (FillIota_read 10 example_lhs 0 0 1 2).
  - reflexivity.
  - unfold wf, invariant, INT64_MAX. cbn. lia.
  - unfold in_range. cbn. lia.
Defined.

(** ** The loops over the vector *)

Section FlatLoops.
Context `{FL : Floating} {T : Type} {SC : Scalar T}.
Implicit Types a this rhs : Array4D T.

(** A loop that updates the elements one after the other, each from its own
    former value and its index. *)
Lemma flat_loop (g : Z -> T -> T) this :
  for_ (num_elements this) (fun i => vec_update i (g i)) this
  = Ret tt (set_values_ this (imap (fun i x => g (Z.of_nat i) x) (values_ this))).
Proof.
  set (v := values_ this).
  destruct (for_inv
    (fun k s => exists v', s = set_values_ this v' /\ length v' = length v
       /\ forall i : nat,
            (Z.of_nat i < k -> v' !! i = g (Z.of_nat i) <$> v !! i)
            /\ (k <= Z.of_nat i -> v' !! i = v !! i))
    (fun i => vec_update i (g i))
    (num_elements this) this) as (s' & Hrun & v' & -> & Hlen & Hv').
  - exists v. split; [symmetry; apply set_values_id|]. split; [reflexivity|].
    intros i. split; [lia|reflexivity].
  - intros j s Hj (u & -> & Hlen & Hu). unfold num_elements in Hj. fold v in Hj.
    destruct (lookup_lt_is_Some_2 v (Z.to_nat j)) as [x Hx]; [lia|].
    assert (Hux : u !! Z.to_nat j = Some x).
    { rewrite <- Hx. apply (Hu (Z.to_nat j)). lia. }
    eexists. split.
    + unfold vec_update. cbn [values_ set_values_].
      rewrite (vec_at_lookup u j x) by (lia || exact Hux). reflexivity.
    + eexists. split; [reflexivity|]. split; [now rewrite length_insert|].
      intros i. split.
      * intros Hi. destruct (decide (i = Z.to_nat j)) as [->|Hne].
        -- rewrite list_lookup_insert_eq by lia. rewrite Hx. cbn.
           now rewrite Z2Nat.id by lia.
        -- rewrite list_lookup_insert_ne by lia. apply (Hu i). lia.
      * intros Hi. rewrite list_lookup_insert_ne by lia. apply (Hu i). lia.
  - rewrite Hrun. do 2 f_equal. apply list_eq. intros i.
    rewrite list_lookup_imap.
    destruct (decide (i < length v)%nat) as [Hi|Hi].
    + apply (Hv' i). unfold num_elements. fold v. lia.
    + rewrite !lookup_ge_None_2 by lia. reflexivity.
Qed.

(** X9.  [FillWithMultiples(multiplier)] returns and leaves at linear index
    [i] the product of [i], converted to [float], and the multiplier,
    converted to [T]; the cell at a coordinate holds the multiple of its
    linear index. *)
Theorem FillWithMultiples_read multiplier a :
  wf a ->
  exists a', FillWithMultiples multiplier a = Ret tt a'
    /\ same_shape a' a /\ num_elements a' = num_elements a
    /\ (forall i, 0 <= i < num_elements a ->
          vec_at (flatten a') i
          = Ok (T_of_float (float_mul (float_of_int64 i) multiplier)))
    /\ (forall p d h w, in_range a p d h w ->
          read a' p d h w
          = Ok (T_of_float (float_mul (float_of_int64 (offset a p d h w)) multiplier))).
Proof.
  intros Hwf.
  set (g := fun (i : Z) (_ : T) => T_of_float (float_mul (float_of_int64 i) multiplier)).
  set (v' := imap (fun i x => g (Z.of_nat i) x) (values_ a)).
  assert (Hv' : forall i, 0 <= i < num_elements a ->
            v' !! Z.to_nat i = Some (g i T_default)).
  { intros i Hi. unfold v'. rewrite list_lookup_imap.
    destruct (lookup_lt_is_Some_2 (values_ a) (Z.to_nat i)) as [x ->];
      [unfold num_elements in Hi; lia|].
    cbn. now rewrite Z2Nat.id by lia. }
  exists (set_values_ a v').
  split; [unfold FillWithMultiples; rewrite bind_get; apply (flat_loop g)|].
  split; [repeat split|].
  split; [unfold num_elements, v'; cbn [values_ set_values_]; now rewrite length_imap|].
  split.
  - intros i Hi. apply vec_at_lookup; [lia|]. now apply Hv'.
  - intros p d h w Hin.
    pose proof (offset_bounds a _ _ _ _ (proj1 Hwf) Hin) as B.
    apply read_set_values_; [assumption|apply length_imap|assumption|].
    now apply Hv'.
Qed.

(** X10.  [mul(multiplier)] returns and scales every element by the
    multiplier, in place: the vector afterwards is the former one with each
    element multiplied, and so is the cell at each coordinate. *)
Theorem mul_read multiplier a :
  wf a ->
  exists a', mul multiplier a = Ret tt a'
    /\ same_shape a' a
    /\ flatten a' = (fun x => T_scale x multiplier) <$> flatten a
    /\ (forall p d h w, in_range a p d h w ->
          read a' p d h w = Ok (T_scale (elem T_default a p d h w) multiplier)).
Proof.
  intros Hwf.
  set (g := fun (_ : Z) (x : T) => T_scale x multiplier).
  assert (Ev : imap (fun i x => g (Z.of_nat i) x) (values_ a)
               = (fun x => T_scale x multiplier) <$> values_ a).
  { apply list_eq. intros i. rewrite list_lookup_imap, list_lookup_fmap. reflexivity. }
  exists (set_values_ a ((fun x => T_scale x multiplier) <$> values_ a)).
  split; [unfold mul; rewrite bind_get; rewrite <- Ev; apply (flat_loop g)|].
  split; [repeat split|]. split; [reflexivity|].
  intros p d h w Hin.
  apply read_set_values_; [assumption|apply length_fmap|assumption|].
  rewrite list_lookup_fmap.
  now rewrite (lookup_offset T_default) by (try apply Hwf; assumption).
Qed.

(** X11.  On two containers of the same dimensions, [operator*] returns, in
    a build with or without [NDEBUG], and leaves in the object the products
    of its elements and the elements of [rhs] at the same linear index; for
    [rhs] the object itself these are the squares. *)
Theorem operator_mul_elementwise NDEBUG rhs this :
  invariant this -> invariant rhs -> same_shape rhs this ->
  operator_mul NDEBUG rhs this
  = Ret tt (set_values_ this (zip_with T_mul (values_ this) (values_ rhs)))
  /\ (rhs = this ->
      operator_mul NDEBUG rhs this
      = Ret tt (set_values_ this ((fun x => T_mul x x) <$> values_ this))).
Proof.
  intros Ha Hb Hs.
  assert (El : length (values_ rhs) = length (values_ this)).
  { destruct Hs as (E1 & E2 & E3 & E4).
    apply Nat2Z.inj. unfold invariant in *. rewrite Ha, Hb, E1, E2, E3, E4. reflexivity. }
  destruct (operator_mul_same_shape NDEBUG rhs this Ha Hb Hs) as (v' & Hrun & Hlen & Hv').
  assert (Ev : v' = zip_with T_mul (values_ this) (values_ rhs)).
  { apply list_eq. intros i. rewrite lookup_zip_with.
    destruct (decide (i < length (values_ this))%nat) as [Hi|Hi].
    - destruct (lookup_lt_is_Some_2 (values_ this) i) as [x Hx]; [lia|].
      destruct (lookup_lt_is_Some_2 (values_ rhs) i) as [y Hy]; [lia|].
      rewrite Hx, Hy. cbn. now apply Hv'.
    - rewrite (lookup_ge_None_2 v') by lia.
      rewrite (lookup_ge_None_2 (values_ this)) by lia. reflexivity. }
  subst v'. split; [exact Hrun|].
  intros ->. rewrite Hrun. do 2 f_equal.
  apply list_eq. intros i. rewrite lookup_zip_with, list_lookup_fmap.
  now destruct (values_ this !! i).
Qed.

End FlatLoops.

Lemma FillWithMultiples_read_witness :
  exists a', FillWithMultiples (FL := Q_floating) (T := Z) (5 # 2)%Q example_lhs = Ret tt a'
    /\ read a' 0 0 1 0 = Ok 7.
Proof.
  destruct (FillWithMultiples_read (FL := Q_floating) (T := Z) (5 # 2)%Q example_lhs) as (a' & Hrun & _ & _ & _ & Hr).
  - unfold wf, invariant, INT64_MAX. cbn. lia.
  - exists a'. split; [exact Hrun|].
    rewrite (Hr 0 0 1 0); [reflexivity|]. unfold in_range. cbn. lia.
Defined.

Lemma mul_read_witness :
  exists a', mul (FL := Q_floating) (T := Z) (3 # 2)%Q example_lhs = Ret tt a'
    /\ flatten a' = [1; 3; 4; 6; 7; 9].
Proof.
  destruct (mul_read (FL := Q_floating) (T := Z) (3 # 2)%Q example_lhs) as (a' & Hrun & _ & Hf & _).
  - unfold wf, invariant, INT64_MAX. cbn. lia.
  - exists a'. split; [exact Hrun|]. rewrite Hf. reflexivity.
Defined.

Lemma operator_mul_elementwise_witness :
  operator_mul true example_lhs example_lhs
  = Ret tt (mkArray4D 1 1 2 3 [1; 4; 9; 16; 25; 36]).
Proof.
  destruct (operator_mul_elementwise true example_lhs example_lhs) as [H _].
  - reflexivity.
  - reflexivity.
  - repeat split.
  - rewrite H. reflexivity.
Defined.

(** ** The loops over the coordinates *)

Section Nests.
Context `{FL : Floating} {T : Type} {SC : Scalar T}.
Variable a0 : Array4D T.
Variable F : Z -> Z -> Z -> Z -> T.
Hypothesis W0 : wf a0.

Local Abbreviation st v := (set_values_ a0 v).
Local Abbreviation filled P v := (filled_where a0 F P v).

Lemma filled_where_weaken (P P' : Z -> Z -> Z -> Z -> Prop) v :
  (forall p d h w, in_range a0 p d h w -> P' p d h w -> P p d h w) ->
  filled P v -> filled P' v.
Proof. intros HP [E H]. split; [exact E|]. intros p d h w Hin HP'. apply H; auto. Qed.

(** Writing one cell adds it to the cells that hold their value. *)
Lemma filled_where_write P v p d h w :
  in_range a0 p d h w -> filled P v ->
  write p d h w (F p d h w) (st v)
    = Ret tt (st (<[Z.to_nat (offset a0 p d h w) := F p d h w]> v))
  /\ filled (fun p' d' h' w' =>
               P p' d' h' w' \/ (p' = p /\ d' = d /\ h' = h /\ w' = w))
       (<[Z.to_nat (offset a0 p d h w) := F p d h w]> v).
Proof.
  intros Hin [E H].
  pose proof (offset_bounds a0 _ _ _ _ (proj1 W0) Hin) as B.
  split.
  - rewrite write_Ret; [reflexivity|now apply wf_set_values_|exact Hin].
  - split; [now rewrite length_insert|].
    intros p' d' h' w' Hin' [HP|(-> & -> & -> & ->)].
    + pose proof (offset_bounds a0 _ _ _ _ (proj1 W0) Hin') as B'.
      destruct (decide (offset a0 p' d' h' w' = offset a0 p d h w)) as [Eo|Ne].
      * destruct (offset_inj a0 _ _ _ _ _ _ _ _ Hin' Hin Eo) as (-> & -> & -> & ->).
        apply list_lookup_insert_eq. lia.
      * rewrite list_lookup_insert_ne by lia. now apply H.
    + apply list_lookup_insert_eq. lia.
Qed.

(** One loop of a nest: iteration [k] adds the cells [Qin k], and the cells
    [Qout k] are those added before iteration [k]. *)
Lemma nest_level n (body : Z -> M (Array4D T) unit)
    (Qin Qout : Z -> Z -> Z -> Z -> Z -> Prop) :
  (forall k P v, 0 <= k < n -> filled P v ->
     exists v', body k (st v) = Ret tt (st v')
       /\ filled (fun p d h w => P p d h w \/ Qin k p d h w) v') ->
  (forall k p d h w, 0 <= k < n -> in_range a0 p d h w ->
     Qout (k + 1) p d h w -> Qout k p d h w \/ Qin k p d h w) ->
  (forall p d h w, in_range a0 p d h w -> ~ Qout 0 p d h w) ->
  forall P v, filled P v ->
    exists v', for_ n body (st v) = Ret tt (st v')
      /\ filled (fun p d h w => P p d h w \/ Qout (Z.max 0 n) p d h w) v'.
Proof.
  intros Hbody Hstep H0 P v Hv.
  destruct (for_inv
    (fun k s => exists v', s = st v'
       /\ filled (fun p d h w => P p d h w \/ Qout k p d h w) v')
    body n (st v)) as (s' & Hrun & v' & -> & Hv').
  - exists v. split; [reflexivity|].
    apply (filled_where_weaken P); [|exact Hv].
    intros p d h w Hin [HP|HQ]; [exact HP|]. now destruct (H0 p d h w Hin).
  - intros k s Hk (u & -> & Hu).
    destruct (Hbody k _ u Hk Hu) as (u' & Hrun & Hu').
    exists (st u'). split; [exact Hrun|]. exists u'. split; [reflexivity|].
    eapply filled_where_weaken; [|exact Hu'].
    intros p d h w Hin [HP|HQ]; [now left; left|].
    destruct (Hstep k p d h w Hk Hin HQ); [now left; right|now right].
  - exists v'. split; [exact Hrun|exact Hv'].
Qed.

Variable cell : Z -> Z -> Z -> Z -> M (Array4D T) unit.
Hypothesis Hcell : forall p d h w v,
  in_range a0 p d h w -> length v = length (values_ a0) ->
  cell p d h w (st v) = write p d h w (F p d h w) (st v).

Lemma cell_level P v p d h w :
  in_range a0 p d h w -> filled P v ->
  exists v', cell p d h w (st v) = Ret tt (st v')
    /\ filled (fun p' d' h' w' =>
                 P p' d' h' w' \/ (p' = p /\ d' = d /\ h' = h /\ w' = w)) v'.
Proof.
  intros Hin Hv. destruct (filled_where_write P v p d h w Hin Hv) as [Hw Hf].
  eexists. split; [|exact Hf]. rewrite Hcell; [exact Hw|exact Hin|apply Hv].
Qed.

(** The nest in the order plane, depth, height, width. *)
Lemma nest_pdhw :
  exists v', for_ (planes_ a0) (fun p =>
               for_ (depth_ a0) (fun d =>
                 for_ (height_ a0) (fun h =>
                   for_ (width_ a0) (fun w => cell p d h w)))) a0 = Ret tt (st v')
    /\ length v' = length (values_ a0)
    /\ forall p d h w, in_range a0 p d h w ->
         v' !! Z.to_nat (offset a0 p d h w) = Some (F p d h w).
Proof.
  destruct (nest_level (planes_ a0)
    (fun p => for_ (depth_ a0) (fun d =>
                for_ (height_ a0) (fun h =>
                  for_ (width_ a0) (fun w => cell p d h w))))
    (fun k p _ _ _ => p = k) (fun k p _ _ _ => p < k))
    with (P := fun (_ _ _ _ : Z) => False) (v := values_ a0)
    as (v' & Hrun & Hv').
  - intros p P v Hp Hv.
    destruct (nest_level (depth_ a0)
      (fun d => for_ (height_ a0) (fun h => for_ (width_ a0) (fun w => cell p d h w)))
      (fun k p' d _ _ => p' = p /\ d = k) (fun k p' d _ _ => p' = p /\ d < k))
      with (P := P) (v := v) as (v' & Hrun & Hv'); [| | |exact Hv|].
    + intros d P1 v1 Hd Hv1.
      destruct (nest_level (height_ a0)
        (fun h => for_ (width_ a0) (fun w => cell p d h w))
        (fun k p' d' h _ => p' = p /\ d' = d /\ h = k)
        (fun k p' d' h _ => p' = p /\ d' = d /\ h < k))
        with (P := P1) (v := v1) as (v' & Hrun & Hv'); [| | |exact Hv1|].
      * intros h P2 v2 Hh Hv2.
        destruct (nest_level (width_ a0) (fun w => cell p d h w)
          (fun k p' d' h' w => p' = p /\ d' = d /\ h' = h /\ w = k)
          (fun k p' d' h' w => p' = p /\ d' = d /\ h' = h /\ w < k))
          with (P := P2) (v := v2) as (v' & Hrun & Hv'); [| | |exact Hv2|].
        -- intros w P3 v3 Hw Hv3. apply cell_level; [unfold in_range; lia|exact Hv3].
        -- intros k p' d' h' w' Hk Hin; cbv beta; lia.
        -- intros p' d' h' w' Hin; unfold in_range in Hin; cbv beta; lia.
        -- exists v'. split; [exact Hrun|].
           eapply filled_where_weaken; [|exact Hv'].
           intros p' d' h' w' Hin [HP|HQ]; [now left|right]; unfold in_range in Hin; cbv beta in *; lia.
      * intros k p' d' h' w' Hk Hin; cbv beta; lia.
      * intros p' d' h' w' Hin; unfold in_range in Hin; cbv beta; lia.
      * exists v'. split; [exact Hrun|].
        eapply filled_where_weaken; [|exact Hv'].
        intros p' d' h' w' Hin [HP|HQ]; [now left|right]; unfold in_range in Hin; cbv beta in *; lia.
    + intros k p' d' h' w' Hk Hin; cbv beta; lia.
    + intros p' d' h' w' Hin; unfold in_range in Hin; cbv beta; lia.
    + exists v'. split; [exact Hrun|].
      eapply filled_where_weaken; [|exact Hv'].
      intros p' d' h' w' Hin [HP|HQ]; [now left|right]; unfold in_range in Hin; cbv beta in *; lia.
  - intros k p' d' h' w' Hk Hin; cbv beta; lia.
  - intros p' d' h' w' Hin; unfold in_range in Hin; cbv beta; lia.
  - split; [reflexivity|]. intros p d h w _ [].
  - exists v'. rewrite set_values_id in Hrun. split; [exact Hrun|].
    split; [apply Hv'|]. intros p d h w Hin. apply Hv'; [exact Hin|].
    right. unfold in_range in Hin. cbv beta. lia.
Qed.

(** The nest in the order height, width, plane, depth. *)
Lemma nest_hwpd :
  exists v', for_ (height_ a0) (fun h =>
               for_ (width_ a0) (fun w =>
                 for_ (planes_ a0) (fun p =>
                   for_ (depth_ a0) (fun d => cell p d h w)))) a0 = Ret tt (st v')
    /\ length v' = length (values_ a0)
    /\ forall p d h w, in_range a0 p d h w ->
         v' !! Z.to_nat (offset a0 p d h w) = Some (F p d h w).
Proof.
  destruct (nest_level (height_ a0)
    (fun h => for_ (width_ a0) (fun w =>
                for_ (planes_ a0) (fun p =>
                  for_ (depth_ a0) (fun d => cell p d h w))))
    (fun k _ _ h _ => h = k) (fun k _ _ h _ => h < k))
    with (P := fun (_ _ _ _ : Z) => False) (v := values_ a0)
    as (v' & Hrun & Hv').
  - intros h P v Hh Hv.
    destruct (nest_level (width_ a0)
      (fun w => for_ (planes_ a0) (fun p => for_ (depth_ a0) (fun d => cell p d h w)))
      (fun k _ _ h' w => h' = h /\ w = k) (fun k _ _ h' w => h' = h /\ w < k))
      with (P := P) (v := v) as (v' & Hrun & Hv'); [| | |exact Hv|].
    + intros w P1 v1 Hw Hv1.
      destruct (nest_level (planes_ a0)
        (fun p => for_ (depth_ a0) (fun d => cell p d h w))
        (fun k p _ h' w' => h' = h /\ w' = w /\ p = k)
        (fun k p _ h' w' => h' = h /\ w' = w /\ p < k))
        with (P := P1) (v := v1) as (v' & Hrun & Hv'); [| | |exact Hv1|].
      * intros p P2 v2 Hp Hv2.
        destruct (nest_level (depth_ a0) (fun d => cell p d h w)
          (fun k p' d h' w' => h' = h /\ w' = w /\ p' = p /\ d = k)
          (fun k p' d h' w' => h' = h /\ w' = w /\ p' = p /\ d < k))
          with (P := P2) (v := v2) as (v' & Hrun & Hv'); [| | |exact Hv2|].
        -- intros d P3 v3 Hd Hv3.
           destruct (cell_level P3 v3 p d h w) as (v' & Hrun & Hv');
             [unfold in_range; lia|exact Hv3|].
           exists v'. split; [exact Hrun|].
           eapply filled_where_weaken; [|exact Hv'].
           intros p' d' h' w' Hin [HP|HQ]; [now left|right]; cbv beta in *; lia.
        -- intros k p' d' h' w' Hk Hin; cbv beta; lia.
        -- intros p' d' h' w' Hin; unfold in_range in Hin; cbv beta; lia.
        -- exists v'. split; [exact Hrun|].
           eapply filled_where_weaken; [|exact Hv'].
           intros p' d' h' w' Hin [HP|HQ]; [now left|right]; unfold in_range in Hin; cbv beta in *; lia.
      * intros k p' d' h' w' Hk Hin; cbv beta; lia.
      * intros p' d' h' w' Hin; unfold in_range in Hin; cbv beta; lia.
      * exists v'. split; [exact Hrun|].
        eapply filled_where_weaken; [|exact Hv'].
        intros p' d' h' w' Hin [HP|HQ]; [now left|right]; unfold in_range in Hin; cbv beta in *; lia.
    + intros k p' d' h' w' Hk Hin; cbv beta; lia.
    + intros p' d' h' w' Hin; unfold in_range in Hin; cbv beta; lia.
    + exists v'. split; [exact Hrun|].
      eapply filled_where_weaken; [|exact Hv'].
      intros p' d' h' w' Hin [HP|HQ]; [now left|right]; unfold in_range in Hin; cbv beta in *; lia.
  - intros k p' d' h' w' Hk Hin; cbv beta; lia.
  - intros p' d' h' w' Hin; unfold in_range in Hin; cbv beta; lia.
  - split; [reflexivity|]. intros p d h w _ [].
  - exists v'. rewrite set_values_id in Hrun. split; [exact Hrun|].
    split; [apply Hv'|]. intros p d h w Hin. apply Hv'; [exact Hin|].
    right. unfold in_range in Hin. cbv beta. lia.
Qed.

End Nests.

(** ** The fills from a two-dimensional array *)

Section Broadcast.
Context `{FL : Floating} {T : Type} {SC : Scalar T}.
Implicit Types a : Array4D T.

Lemma Array2D_at_elem2 (m : Array2D T) row col :
  wf2 m -> 0 <= row < a2_height m -> 0 <= col < a2_width m ->
  Array2D_at m row col = Ok (elem2 T_default m row col).
Proof.
  intros Hm Hr Hc. unfold Array2D_at, elem2. rewrite decide_True by tauto.
  destruct (lookup_lt_is_Some_2 (a2_values m) (Z.to_nat (row * a2_width m + col)))
    as [x Hx]; [unfold wf2 in Hm; nia|].
  rewrite Hx. f_equal. symmetry. now apply nth_lookup_Some.
Qed.

(** X12.  [FillWithYX(value)] stops on a [CHECK_EQ] (ShapeMismatch), the
    object untouched, when the height or the width of the array differs
    from the container's.  Otherwise it returns, keeps the shape, and the
    cell at [(p, d, h, w)] holds [value(h, w)], for every plane and
    depth. *)
Theorem FillWithYX_read (value : Array2D T) a :
  (a2_height value <> height_ a \/ a2_width value <> width_ a ->
     FillWithYX value a = Halt ShapeMismatch a)
  /\ (wf a -> wf2 value ->
      a2_height value = height_ a -> a2_width value = width_ a ->
      exists a', FillWithYX value a = Ret tt a'
        /\ wf a' /\ same_shape a' a
        /\ forall p d h w, in_range a p d h w ->
             read a' p d h w = Array2D_at value h w).
Proof.
  split.
  - intros Hne. unfold FillWithYX. rewrite bind_get. unfold height, width.
    destruct (decide (a2_height value = height_ a)) as [E1|N1].
    + rewrite (bind_lift_Ok _ _ _ tt) by now apply CHECK_EQ_Ok.
      rewrite (CHECK_EQ_Stop _ (a2_width value)) by tauto. reflexivity.
    + rewrite (CHECK_EQ_Stop _ (a2_height value)) by assumption. reflexivity.
  - intros Hwf Hm E1 E2.
    destruct (nest_pdhw a (fun _ _ h w => elem2 T_default value h w) Hwf
                (fun p d h w => x ← lift (Array2D_at value h w); write p d h w x))
      as (v' & Hrun & Hlen & Hv').
    { intros p d h w v (_ & _ & Hh & Hw) _.
      now rewrite (bind_lift_Ok _ _ _ (elem2 T_default value h w))
        by (apply Array2D_at_elem2; [assumption|lia..]). }
    exists (set_values_ a v'). split; [|split; [|split]].
    + unfold FillWithYX. rewrite bind_get.
      rewrite !(bind_lift_Ok _ _ _ tt) by now apply CHECK_EQ_Ok.
      exact Hrun.
    + now apply wf_set_values_.
    + repeat split.
    + intros p d h w Hin.
      rewrite Array2D_at_elem2 by (try assumption; unfold in_range in Hin; lia).
      apply read_set_values_; auto.
Qed.

(** X13.  [FillWithPZ(value)] stops on a [CHECK_EQ] (ShapeMismatch), the
    object untouched, when the height of the array differs from the number
    of planes or its width from the depth.  Otherwise it returns, keeps the
    shape, and the cell at [(p, d, h, w)] holds [value(p, d)], for every
    height and width. *)
Theorem FillWithPZ_read (value : Array2D T) a :
  (a2_height value <> planes_ a \/ a2_width value <> depth_ a ->
     FillWithPZ value a = Halt ShapeMismatch a)
  /\ (wf a -> wf2 value ->
      a2_height value = planes_ a -> a2_width value = depth_ a ->
      exists a', FillWithPZ value a = Ret tt a'
        /\ wf a' /\ same_shape a' a
        /\ forall p d h w, in_range a p d h w ->
             read a' p d h w = Array2D_at value p d).
Proof.
  split.
  - intros Hne. unfold FillWithPZ. rewrite bind_get. unfold planes, depth.
    destruct (decide (a2_height value = planes_ a)) as [E1|N1].
    + rewrite (bind_lift_Ok _ _ _ tt) by now apply CHECK_EQ_Ok.
      rewrite (CHECK_EQ_Stop _ (a2_width value)) by tauto. reflexivity.
    + rewrite (CHECK_EQ_Stop _ (a2_height value)) by assumption. reflexivity.
  - intros Hwf Hm E1 E2.
    destruct (nest_hwpd a (fun p d _ _ => elem2 T_default value p d) Hwf
                (fun p d h w => x ← lift (Array2D_at value p d); write p d h w x))
      as (v' & Hrun & Hlen & Hv').
    { intros p d h w v (Hp & Hd & _ & _) _.
      now rewrite (bind_lift_Ok _ _ _ (elem2 T_default value p d))
        by (apply Array2D_at_elem2; [assumption|lia..]). }
    exists (set_values_ a v'). split; [|split; [|split]].
    + unfold FillWithPZ. rewrite bind_get.
      rewrite !(bind_lift_Ok _ _ _ tt) by now apply CHECK_EQ_Ok.
      exact Hrun.
    + now apply wf_set_values_.
    + repeat split.
    + intros p d h w Hin.
      rewrite Array2D_at_elem2 by (try assumption; unfold in_range in Hin; lia).
      apply read_set_values_; auto.
Qed.

(** X14.  [FillWithMinorDimNum()] returns, keeps the shape, and leaves in
    the cell at [(p, d, h, w)] the number [p * n2 + d] of its
    height-by-width matrix, converted to [float] and then to [T]. *)
Theorem FillWithMinorDimNum_read a :
  wf a ->
  exists a', FillWithMinorDimNum a = Ret tt a'
    /\ wf a' /\ same_shape a' a
    /\ forall p d h w, in_range a p d h w ->
         read a' p d h w = Ok (T_of_float (float_of_int64 (p * n2 a + d))).
Proof.
  intros Hwf.
  destruct (nest_hwpd a (fun p d _ _ => T_of_float (float_of_int64 (p * depth_ a + d))) Hwf
              (fun p d h w =>
                 pd ← lift (mul64 p (depth_ a));
                 n ← lift (add64 pd d);
                 write p d h w (T_of_float (float_of_int64 n))))
    as (v' & Hrun & Hlen & Hv').
  { intros p d h w v (Hp & Hd & Hh & Hw) _.
    assert (B0 : 0 <= p * depth_ a) by (apply Z.mul_nonneg_nonneg; lia).
    assert (B1 : (p + 1) * depth_ a <= planes_ a * depth_ a)
      by (apply Z.mul_le_mono_nonneg_r; lia).
    assert (N : planes_ a * depth_ a <= INT64_MAX).
    { destruct Hwf as (Hinv & Hmax). rewrite Hinv in Hmax.
      assert (1 <= height_ a * width_ a) by nia.
      assert (planes_ a * depth_ a * 1 <= planes_ a * depth_ a * (height_ a * width_ a))
        by (apply Z.mul_le_mono_nonneg_l; lia).
      lia. }
    rewrite (bind_lift_Ok _ _ _ (p * depth_ a))
      by (apply mul64_Ok; eapply in_int64_between; [|exact N]; lia).
    now rewrite (bind_lift_Ok _ _ _ (p * depth_ a + d))
      by (apply add64_Ok; eapply in_int64_between; [|exact N]; lia). }
  exists (set_values_ a v'). split; [|split; [|split]].
  - unfold FillWithMinorDimNum. rewrite bind_get. exact Hrun.
  - now apply wf_set_values_.
  - repeat split.
  - intros p d h w Hin. apply read_set_values_; auto.
Qed.

End Broadcast.

Lemma FillWithYX_read_witness :
  FillWithYX (mkArray2D 1 1 [7]) example_lhs = Halt ShapeMismatch example_lhs
  /\ exists a', FillWithYX (mkArray2D 2 3 [10; 20; 30; 40; 50; 60])
                  (mkArray4D 2 1 2 3 [0; 0; 0; 0; 0; 0; 0; 0; 0; 0; 0; 0]) = Ret tt a'
       /\ read a' 1 0 1 2 = Ok 60.
Proof.
  split.
  - apply (FillWithYX_read (mkArray2D 1 1 [7]) example_lhs). left. cbn. lia.
  - destruct (FillWithYX_read (mkArray2D 2 3 [10; 20; 30; 40; 50; 60])
                (mkArray4D 2 1 2 3 [0; 0; 0; 0; 0; 0; 0; 0; 0; 0; 0; 0])) as [_ H].
    destruct H as (a' & Hrun & _ & _ & Hr).
    + unfold wf, invariant, INT64_MAX. cbn. lia.
    + reflexivity.
    + reflexivity.
    + reflexivity.
    + exists a'. split; [exact Hrun|]. rewrite Hr; [reflexivity|].
      unfold in_range. cbn. lia.
Defined.

Lemma FillWithPZ_read_witness :
  FillWithPZ (mkArray2D 1 1 [7]) (mkArray4D 2 1 1 1 [0; 0])
  = Halt ShapeMismatch (mkArray4D 2 1 1 1 [0; 0])
  /\ exists a', FillWithPZ (mkArray2D 2 1 [10; 20])
                  (mkArray4D 2 1 2 3 [0; 0; 0; 0; 0; 0; 0; 0; 0; 0; 0; 0]) = Ret tt a'
       /\ read a' 1 0 1 2 = Ok 20.
Proof.
  split.
  - apply (FillWithPZ_read (mkArray2D 1 1 [7]) (mkArray4D 2 1 1 1 [0; 0])).
    left. cbn. lia.
  - destruct (FillWithPZ_read (mkArray2D 2 1 [10; 20])
                (mkArray4D 2 1 2 3 [0; 0; 0; 0; 0; 0; 0; 0; 0; 0; 0; 0])) as [_ H].
    destruct H as (a' & Hrun & _ & _ & Hr).
    + unfold wf, invariant, INT64_MAX. cbn. lia.
    + reflexivity.
    + reflexivity.
    + reflexivity.
    + exists a'. split; [exact Hrun|]. rewrite Hr; [reflexivity|].
      unfold in_range. cbn. lia.
Defined.

Lemma FillWithMinorDimNum_read_witness :
  exists a', FillWithMinorDimNum
               (mkArray4D 2 3 1 2 [0; 0; 0; 0; 0; 0; 0; 0; 0; 0; 0; 0]) = Ret tt a'
    /\ read a' 1 2 0 1 = Ok 5.
Proof.
  destruct (FillWithMinorDimNum_read
              (mkArray4D 2 3 1 2 [0; 0; 0; 0; 0; 0; 0; 0; 0; 0; 0; 0]))
    as (a' & Hrun & _ & _ & Hr).
  - unfold wf, invariant, INT64_MAX. cbn. lia.
  - exists a'. split; [exact Hrun|]. rewrite Hr; [reflexivity|].
    unfold in_range. cbn. lia.
Defined.

(** ** The visitor *)

(** A counted loop runs its body on the numbers from the first one on. *)
Lemma for_from_foreach {S} (body : Z -> M S unit) count k j s :
  for_from count k body s
  = foreach (seqZ k (Z.of_nat count)) j (fun _ x => body x) s.
Proof.
  revert k j s. induction count as [|c IH]; intros k j s; [reflexivity|].
  rewrite seqZ_cons by lia. cbn [for_from foreach].
  unfold mbind, M_bind. destruct (body k s) as [[] s'| |]; [|reflexivity..].
  rewrite (IH (k + 1) (j + 1) s'). do 2 f_equal; lia.
Qed.

Lemma for_foreach {S} (body : Z -> M S unit) n s :
  for_ n body s = foreach (seqZ 0 n) 0 (fun _ x => body x) s.
Proof.
  unfold for_. rewrite (for_from_foreach body _ 0 0 s).
  destruct (Z_le_gt_dec n 0).
  - now rewrite !seqZ_nil by lia.
  - now rewrite Z2Nat.id by lia.
Qed.

Lemma foreach_app {S A} (body : A -> M S unit) (l1 l2 : list A) j j' s :
  foreach (l1 ++ l2) j (fun _ x => body x) s
  = (foreach l1 j (fun _ x => body x) ;; foreach l2 j' (fun _ x => body x)) s.
Proof.
  revert j j' s. induction l1 as [|x l1 IH]; intros j j' s.
  - cbn [app foreach]. unfold mbind, M_bind, mret, M_ret.
    clear. revert j j' s. induction l2 as [|y l2 IH]; intros j j' s; [reflexivity|].
    cbn [foreach]. unfold mbind, M_bind. destruct (body y s); [|reflexivity..].
    apply IH.
  - cbn [app foreach]. unfold mbind, M_bind.
    destruct (body x s) as [[] s'| |]; [|reflexivity..].
    apply (IH (j + 1) j' s').
Qed.

Lemma foreach_index {S A} (body : A -> M S unit) (l : list A) j j' s :
  foreach l j (fun _ x => body x) s = foreach l j' (fun _ x => body x) s.
Proof.
  revert j j' s. induction l as [|x l IH]; intros j j' s; [reflexivity|].
  cbn [foreach]. unfold mbind, M_bind. destruct (body x s); [|reflexivity..].
  apply IH.
Qed.

(** Nested loops run the innermost body on the coordinates one after the
    other. *)
Lemma foreach_bind {S A B} (body : B -> M S unit) (g : A -> list B) (l : list A) j s :
  foreach l j (fun _ y => foreach (g y) 0 (fun _ x => body x)) s
  = foreach (l ≫= g) 0 (fun _ x => body x) s.
Proof.
  revert j s. induction l as [|y l IH]; intros j s; [reflexivity|].
  rewrite bind_cons, (foreach_app body _ _ 0 0). cbn [foreach].
  destruct (foreach (g y) 0 (fun _ x => body x) s) as [[] s'|e s'|] eqn:E.
  - rewrite !(bind_Ret _ _ _ _ _ E). apply IH.
  - now rewrite !(bind_Halt _ _ _ _ _ E).
  - now rewrite !(bind_UB _ _ _ E).
Qed.

Lemma foreach_ext {S A} (body body' : Z -> A -> M S unit) (l : list A) j s :
  (forall k x t, body k x t = body' k x t) ->
  foreach l j body s = foreach l j body' s.
Proof.
  intros E. revert j s. induction l as [|x l IH]; intros j s; [reflexivity|].
  cbn [foreach]. unfold mbind, M_bind. rewrite E.
  destruct (body' j x s); [|reflexivity..]. apply IH.
Qed.

(** Lists of lists of one length, concatenated. *)
Lemma length_bind_uniform {A B} (f : A -> list B) (l : list A) (n : nat) :
  (forall x, length (f x) = n) -> length (l ≫= f) = (length l * n)%nat.
Proof.
  intros Hn. induction l as [|x l IH]; [reflexivity|].
  rewrite bind_cons, length_app, Hn, IH. cbn [length]. lia.
Qed.

Lemma lookup_bind_uniform {A B} (f : A -> list B) (l : list A) (n i j : nat) :
  (forall x, length (f x) = n) -> (j < n)%nat ->
  (l ≫= f) !! (i * n + j)%nat = l !! i ≫= fun x => f x !! j.
Proof.
  intros Hn Hj. revert i. induction l as [|x l IH]; intros i; [reflexivity|].
  rewrite bind_cons. destruct i as [|i].
  - rewrite lookup_app_l by (rewrite Hn; lia). reflexivity.
  - rewrite lookup_app_r by (rewrite Hn; lia). rewrite Hn.
    replace (S i * n + j - n)%nat with (i * n + j)%nat by lia.
    rewrite IH. reflexivity.
Qed.

Lemma set_values_twice {T} (a : Array4D T) v v' :
  set_values_ (set_values_ a v) v' = set_values_ a v'.
Proof. reflexivity. Qed.

Lemma radix_lt (x n y m : nat) : (x < n -> y < m -> x * m + y < n * m)%nat.
Proof. intros Hx Hy. assert ((x + 1) * m <= n * m)%nat by (apply Nat.mul_le_mono_r; lia). lia. Qed.

Section Visitor.
Context `{FL : Floating} {T : Type} {SC : Scalar T}.
Variable a : Array4D T.
Hypothesis Hwf : wf a.
Hypothesis H1 : 0 <= planes_ a.
Hypothesis H2 : 0 <= depth_ a.
Hypothesis H3 : 0 <= height_ a.
Hypothesis H4 : 0 <= width_ a.

Lemma length_coordinates : length (coordinates a) = length (values_ a).
Proof.
  unfold coordinates.
  rewrite (length_bind_uniform _ _
             (Z.to_nat (depth_ a) * (Z.to_nat (height_ a) * Z.to_nat (width_ a)))).
  - rewrite length_seqZ. apply Nat2Z.inj. rewrite (proj1 Hwf).
    rewrite !Nat2Z.inj_mul, !Z2Nat.id by lia. ring.
  - intros p. rewrite (length_bind_uniform _ _ (Z.to_nat (height_ a) * Z.to_nat (width_ a))).
    + now rewrite length_seqZ.
    + intros d. rewrite (length_bind_uniform _ _ (Z.to_nat (width_ a))).
      * now rewrite length_seqZ.
      * intros h. rewrite (length_bind_uniform _ _ 1%nat); [|reflexivity].
        rewrite length_seqZ. lia.
Qed.

(** The coordinates come in the order of their linear indices. *)
Lemma coordinates_lookup p d h w :
  in_range a p d h w ->
  coordinates a !! Z.to_nat (offset a p d h w) = Some (p, d, h, w).
Proof.
  intros (Hp & Hd & Hh & Hw).
  set (D := Z.to_nat (depth_ a)). set (H := Z.to_nat (height_ a)).
  set (W := Z.to_nat (width_ a)).
  assert (E : Z.to_nat (offset a p d h w)
              = (Z.to_nat p * (D * (H * W))
                 + (Z.to_nat d * (H * W) + (Z.to_nat h * W + (Z.to_nat w * 1 + 0))))%nat).
  { pose proof (offset_bounds a p d h w (proj1 Hwf)
                  (conj Hp (conj Hd (conj Hh Hw)))) as B.
    apply Nat2Z.inj. unfold D, H, W.
    rewrite !Nat2Z.inj_add, !Nat2Z.inj_mul, !Z2Nat.id by lia.
    unfold offset. ring. }
  rewrite E. unfold coordinates.
  rewrite (lookup_bind_uniform _ _ (D * (H * W))).
  - rewrite lookup_seqZ_lt by lia. cbn [mbind option_bind].
    rewrite (lookup_bind_uniform _ _ (H * W)).
    + rewrite lookup_seqZ_lt by lia. cbn [mbind option_bind].
      rewrite (lookup_bind_uniform _ _ W).
      * rewrite lookup_seqZ_lt by lia. cbn [mbind option_bind].
        rewrite (lookup_bind_uniform _ _ 1%nat); [|reflexivity|lia].
        rewrite lookup_seqZ_lt by lia. cbn [mbind option_bind].
        cbn [lookup list_lookup]. do 4 f_equal; lia.
      * intros h'. rewrite (length_bind_uniform _ _ 1%nat); [|reflexivity].
        rewrite length_seqZ. unfold W. lia.
      * unfold W. lia.
    + intros d'. rewrite (length_bind_uniform _ _ W).
      * now rewrite length_seqZ.
      * intros h'. rewrite (length_bind_uniform _ _ 1%nat); [|reflexivity].
        rewrite length_seqZ. unfold W. lia.
    + apply radix_lt; unfold H, W; lia.
  - intros p'. rewrite (length_bind_uniform _ _ (H * W)).
    + now rewrite length_seqZ.
    + intros d'. rewrite (length_bind_uniform _ _ W).
      * now rewrite length_seqZ.
      * intros h'. rewrite (length_bind_uniform _ _ 1%nat); [|reflexivity].
        rewrite length_seqZ. unfold W. lia.
  - apply radix_lt; [unfold D; lia|]. apply radix_lt; unfold H, W; lia.
Qed.

Lemma coordinates_lookup_inv K p d h w :
  coordinates a !! K = Some (p, d, h, w) ->
  in_range a p d h w /\ Z.to_nat (offset a p d h w) = K.
Proof.
  intros HK. pose proof (lookup_lt_Some _ _ _ HK) as Hlt.
  rewrite length_coordinates in Hlt.
  destruct (offset_surj a (Z.of_nat K)) as (p' & d' & h' & w' & Hin & E);
    try assumption.
  { rewrite <- (proj1 Hwf). lia. }
  pose proof (coordinates_lookup p' d' h' w' Hin) as HK'.
  rewrite E, Nat2Z.id in HK'. rewrite HK in HK'. injection HK' as -> -> -> ->.
  split; [exact Hin|]. rewrite E. apply Nat2Z.id.
Qed.

Variable C : Type.
Variable f : list Z -> T -> C -> T * C.

Lemma calls_cons p d h w cs x xs c :
  calls f ((p, d, h, w) :: cs) (x :: xs) c
  = ((f [p; d; h; w] x c).1 :: (calls f cs xs (f [p; d; h; w] x c).2).1,
     (calls f cs xs (f [p; d; h; w] x c).2).2).
Proof.
  cbn [calls]. destruct (f [p; d; h; w] x c) as [y c']. cbn [fst snd].
  now destruct (calls f cs xs c').
Qed.

(** The calls from linear index [K] on, the cells before it holding [ys]. *)
Lemma visits_run cs : forall K ys c,
  cs = drop K (coordinates a) -> length ys = K -> (K <= length (values_ a))%nat ->
  foreach cs 0 (fun _ '(p, d, h, w) => visit f p d h w)
    (set_values_ a (ys ++ drop K (values_ a)), c)
  = Ret tt (set_values_ a (ys ++ (calls f cs (drop K (values_ a)) c).1),
            (calls f cs (drop K (values_ a)) c).2).
Proof.
  induction cs as [|[[[p d] h] w] cs IH]; intros K ys c Ecs Hys HK.
  - assert (length (drop K (coordinates a)) = 0%nat) by now rewrite <- Ecs.
    rewrite length_drop, length_coordinates in *.
    rewrite (drop_ge (values_ a)) by lia. reflexivity.
  - assert (HcK : coordinates a !! K = Some (p, d, h, w)).
    { pose proof (lookup_drop (coordinates a) K 0) as HL.
      rewrite <- Ecs, Nat.add_0_r in HL. now rewrite <- HL. }
    destruct (coordinates_lookup_inv K p d h w HcK) as [Hin EK].
    pose proof (lookup_lt_Some _ _ _ HcK) as Hlt. rewrite length_coordinates in Hlt.
    destruct (lookup_lt_is_Some_2 (values_ a) K Hlt) as [x Hx].
    rewrite (drop_S _ _ _ Hx).
    rewrite calls_cons. cbn [fst snd foreach].
    assert (Hlen : length (ys ++ x :: drop (S K) (values_ a)) = length (values_ a)).
    { rewrite length_app. cbn [length]. rewrite length_drop. lia. }
    unfold mbind at 1, M_bind. unfold visit at 1.
    rewrite op_call_Ok; [|now apply wf_set_values_|exact Hin].
    change (offset (set_values_ a (ys ++ x :: drop (S K) (values_ a))) p d h w)
      with (offset a p d h w).
    rewrite EK. cbn [values_ set_values_].
    rewrite lookup_app_r by lia. rewrite Hys, Nat.sub_diag. cbn [lookup list_lookup].
    destruct (f [p; d; h; w] x c) as [y c'] eqn:Ef. cbn [fst snd].
    replace (<[K := y]> (ys ++ x :: drop (S K) (values_ a)))
      with ((ys ++ [y]) ++ drop (S K) (values_ a)).
    + rewrite (foreach_index (fun '(p, d, h, w) => visit f p d h w) cs (0 + 1) 0).
      rewrite set_values_twice. rewrite (IH (S K) (ys ++ [y]) c').
      * now rewrite <- app_assoc.
      * rewrite (drop_S _ _ _ HcK) in Ecs. now injection Ecs.
      * rewrite length_app. cbn [length]. lia.
      * lia.
    + rewrite <- app_assoc. cbn [app].
      replace K with (length ys + 0)%nat at 2 by lia.
      now rewrite insert_app_r.
Qed.

(** X15.  On a well-formed container without a negative dimension,
    [Each(f)] returns after it has called [f] once for every element of the
    vector, in the order of the vector: the call number [k] is handed the
    coordinates whose linear index is [k] and the element at that index,
    and the value it leaves there stays.  The dimensions do not change. *)
Theorem Each_visits c :
  Each f (a, c)
  = Ret tt (set_values_ a (calls f (coordinates a) (values_ a) c).1,
            (calls f (coordinates a) (values_ a) c).2)
  /\ length (coordinates a) = length (values_ a)
  /\ forall p d h w, in_range a p d h w ->
       coordinates a !! Z.to_nat (offset a p d h w) = Some (p, d, h, w).
Proof.
  split; [|split; [apply length_coordinates|apply coordinates_lookup]].
  unfold Each. rewrite bind_get. cbn [fst]. unfold planes, depth, height, width.
  rewrite for_foreach.
  rewrite (foreach_ext _ (fun _ p =>
             foreach (d ← seqZ 0 (depth_ a); h ← seqZ 0 (height_ a);
                      w ← seqZ 0 (width_ a); [(p, d, h, w)]) 0
               (fun _ '(p, d, h, w) => visit f p d h w))).
  - rewrite (foreach_bind (fun '(p, d, h, w) => visit f p d h w)).
    pose proof (visits_run (coordinates a) 0 [] c eq_refl eq_refl ltac:(lia)) as Hrun.
    cbn [app] in Hrun. rewrite !drop_0 in Hrun. rewrite set_values_id in Hrun. exact Hrun.
  - intros _ p t. rewrite for_foreach.
    rewrite (foreach_ext _ (fun _ d =>
               foreach (h ← seqZ 0 (height_ a); w ← seqZ 0 (width_ a); [(p, d, h, w)]) 0
                 (fun _ '(p, d, h, w) => visit f p d h w))).
    + now rewrite (foreach_bind (fun '(p, d, h, w) => visit f p d h w)).
    + intros _ d t'. rewrite for_foreach.
      rewrite (foreach_ext _ (fun _ h =>
                 foreach (w ← seqZ 0 (width_ a); [(p, d, h, w)]) 0
                   (fun _ '(p, d, h, w) => visit f p d h w))).
      * now rewrite (foreach_bind (fun '(p, d, h, w) => visit f p d h w)).
      * intros _ h t''. rewrite for_foreach.
        rewrite (foreach_ext _ (fun _ w =>
                   foreach [(p, d, h, w)] 0 (fun _ '(p, d, h, w) => visit f p d h w))).
        -- now rewrite (foreach_bind (fun '(p, d, h, w) => visit f p d h w)).
        -- intros _ w u. cbn [foreach]. unfold mbind, M_bind.
           now destruct (visit f p d h w u) as [[] ?| |].
Qed.

End Visitor.

Lemma Each_visits_witness :
  Each (fun idx x (c : list (list Z)) => (10 * x, c ++ [idx])) (example_lhs, [])
  = Ret tt (mkArray4D 1 1 2 3 [10; 20; 30; 40; 50; 60],
            [[0; 0; 0; 0]; [0; 0; 0; 1]; [0; 0; 0; 2];
             [0; 0; 1; 0]; [0; 0; 1; 1]; [0; 0; 1; 2]]).
Proof.
  destruct (Each_visits example_lhs) with (C := list (list Z))
    (f := fun idx x (c : list (list Z)) => (10 * x, c ++ [idx])) (c := @nil (list Z))
    as [H _].
  - unfold wf, invariant, INT64_MAX. cbn. lia.
  - cbn. lia.
  - cbn. lia.
  - cbn. lia.
  - cbn. lia.
  - rewrite H. reflexivity.
Defined.

(** ** Conversion of the elements *)

Section Conversion.
Context `{FL : Floating} {T U : Type} {SCT : Scalar T} {SCU : Scalar U}.
Variable cast : T -> U.

Lemma convert_Ok (a : Array4D T) :
  wf a ->
  in_int64 (planes_ a * depth_ a) -> in_int64 (planes_ a * depth_ a * height_ a) ->
  num_elements a <= vector_max_size (T := U) ->
  convert cast a
  = Ok (mkArray4D (planes_ a) (depth_ a) (height_ a) (width_ a) (cast <$> values_ a)).
Proof.
  intros [Hinv Hmax] O1 O2 O3. unfold invariant in Hinv. unfold num_elements in O3.
  set (v := values_ a) in *.
  set (N := planes_ a * depth_ a * height_ a * width_ a) in *.
  set (a0 := mkArray4D (planes_ a) (depth_ a) (height_ a) (width_ a)
               (replicate (Z.to_nat N) (T_default (T := U)))).
  assert (Hsized : Array4D_sized (T := U) (planes_ a) (depth_ a) (height_ a) (width_ a)
                   = Ok a0).
  { unfold Array4D_sized.
    rewrite product4_no_overflow;
      [|assumption|assumption|fold N; unfold in_int64, INT64_MIN in *; lia].
    cbn [mbind outcome_bind]. unfold vector_fill. fold N.
    rewrite decide_True by lia. reflexivity. }
  unfold convert, construct, size. cbn [nth]. rewrite Hsized.
  cbn [mbind outcome_bind].
  destruct (for_inv
    (fun k s => exists v', s = set_values_ a0 v' /\ length v' = length v
       /\ forall i : nat, Z.of_nat i < k -> v' !! i = cast <$> v !! i)
    (fun i => x ← lift (vec_at v i); vec_store i (cast x))
    (num_elements a) a0) as (s' & Hrun & v' & -> & Hlen & Hv').
  - exists (values_ a0). split; [now destruct a0|]. split; [|lia].
    unfold a0. cbn [values_]. rewrite length_replicate. lia.
  - intros j s Hj (u & -> & Hlen & Hu). unfold num_elements in Hj. fold v in Hj.
    destruct (lookup_lt_is_Some_2 v (Z.to_nat j)) as [x Hx]; [lia|].
    eexists. split.
    + rewrite (bind_lift_Ok _ _ _ x) by (apply vec_at_lookup; [lia|exact Hx]).
      unfold vec_store, subscript. cbn [values_ set_values_].
      rewrite decide_True by lia. reflexivity.
    + eexists. split; [reflexivity|]. split; [now rewrite length_insert|].
      intros i Hi. destruct (decide (i = Z.to_nat j)) as [->|Hne].
      * rewrite list_lookup_insert_eq by lia. now rewrite Hx.
      * rewrite list_lookup_insert_ne by lia. apply Hu. lia.
  - fold v. rewrite Hrun. f_equal. unfold set_values_, a0.
    cbn [planes_ depth_ height_ width_]. f_equal.
    apply list_eq. intros i. rewrite list_lookup_fmap.
    destruct (decide (i < length v)%nat) as [Hi|Hi].
    + apply Hv'. unfold num_elements. fold v. lia.
    + rewrite !lookup_ge_None_2 by lia. reflexivity.
Qed.

(** X16.  [convert<U>()] of a well-formed container whose dimensions
    multiply without overflow: when a vector of [U] can have that many
    elements, the result is a new container of the same four dimensions
    whose element at each linear index is the conversion of the element at
    that index, so a coordinate in range reads the conversion of what the
    source holds there; when it cannot, the call stops in the allocation
    ([std::length_error]). *)
Theorem convert_elements (a : Array4D T) :
  wf a ->
  in_int64 (planes_ a * depth_ a) -> in_int64 (planes_ a * depth_ a * height_ a) ->
  (num_elements a <= vector_max_size (T := U) ->
     exists b, convert cast a = Ok b
       /\ wf b /\ same_shape b a
       /\ flatten b = cast <$> flatten a
       /\ forall p d h w, in_range a p d h w ->
            read b p d h w = Ok (cast (elem T_default a p d h w)))
  /\ (vector_max_size (T := U) < num_elements a ->
        convert cast a = Stop LengthError).
Proof.
  intros Hwf O1 O2. split.
  - intros O3. eexists. split; [now apply convert_Ok|].
    assert (Hb : wf (mkArray4D (planes_ a) (depth_ a) (height_ a) (width_ a)
                       (cast <$> values_ a))).
    { unfold wf, invariant. cbn [values_ planes_ depth_ height_ width_].
      rewrite length_fmap. exact Hwf. }
    split; [exact Hb|]. split; [repeat split|]. split; [reflexivity|].
    intros p d h w Hin.
    unfold read. rewrite op_call_Ok; [|exact Hb|exact Hin].
    cbn [mbind outcome_bind]. unfold load. cbn [values_].
    change (offset (mkArray4D _ _ _ _ (cast <$> values_ a)) p d h w)
      with (offset a p d h w).
    rewrite list_lookup_fmap.
    now rewrite (lookup_offset T_default) by (try apply Hwf; assumption).
  - intros O3. destruct Hwf as [Hinv Hmax]. unfold invariant in Hinv.
    unfold num_elements in O3.
    unfold convert, construct, size, Array4D_sized. cbn [nth].
    rewrite product4_no_overflow;
      [|assumption|assumption|rewrite <- Hinv; unfold in_int64, INT64_MIN; lia].
    cbn [mbind outcome_bind]. unfold vector_fill.
    rewrite decide_False by lia. reflexivity.
Qed.

End Conversion.

(** X17.  Converting the elements to another type and back gives the
    container back, when the conversion back undoes the conversion on the
    elements the container holds and both vectors can be allocated. *)
Theorem convert_round_trip `{FL : Floating} {T U : Type} {SCT : Scalar T} {SCU : Scalar U}
    (to : T -> U) (from : U -> T) (a : Array4D T) :
  wf a ->
  in_int64 (planes_ a * depth_ a) -> in_int64 (planes_ a * depth_ a * height_ a) ->
  num_elements a <= vector_max_size (T := U) ->
  num_elements a <= vector_max_size (T := T) ->
  (forall x, x ∈ values_ a -> from (to x) = x) ->
  exists b, convert to a = Ok b /\ convert from b = Ok a.
Proof.
  intros Hwf O1 O2 OU OT Hinv.
  eexists. split; [now apply convert_Ok|].
  rewrite convert_Ok.
  - cbn [planes_ depth_ height_ width_ values_]. destruct a as [p d h w v].
    cbn [planes_ depth_ height_ width_ values_] in *. f_equal. f_equal.
    rewrite <- list_fmap_compose. rewrite <- (list_fmap_id v) at 2.
    apply list_fmap_ext. intros i x Hx. cbn. apply Hinv.
    now apply list_elem_of_lookup_2 in Hx.
  - unfold wf, invariant. cbn [values_ planes_ depth_ height_ width_].
    rewrite length_fmap. exact Hwf.
  - exact O1.
  - exact O2.
  - unfold num_elements in *. cbn [values_]. now rewrite length_fmap.
Qed.

Lemma convert_elements_witness :
  exists b : Array4D Q, convert inject_Z example_lhs = Ok b
    /\ flatten b = [1; 2; 3; 4; 5; 6]%Q /\ read b 0 0 1 0 = Ok 4%Q.
Proof.
  destruct (convert_elements (T := Z) (U := Q) inject_Z example_lhs) as [H _].
  - unfold wf, invariant, INT64_MAX. cbn. lia.
  - unfold in_int64, INT64_MIN, INT64_MAX. cbn. lia.
  - unfold in_int64, INT64_MIN, INT64_MAX. cbn. lia.
  - destruct H as (b & Hb & _ & _ & Hf & Hr); [vm_compute; discriminate|].
    exists b. split; [exact Hb|]. split; [exact Hf|].
    rewrite Hr; [reflexivity|]. unfold in_range. cbn. lia.
Defined.

Lemma convert_round_trip_witness :
  exists b : Array4D Q, convert inject_Z example_lhs = Ok b
    /\ convert Qtrunc b = Ok example_lhs.
Proof.
  apply (convert_round_trip (T := Z) (U := Q) inject_Z Qtrunc example_lhs).
  - unfold wf, invariant, INT64_MAX. cbn. lia.
  - unfold in_int64, INT64_MIN, INT64_MAX. cbn. lia.
  - unfold in_int64, INT64_MIN, INT64_MAX. cbn. lia.
  - vm_compute. discriminate.
  - vm_compute. discriminate.
  - intros x _. unfold Qtrunc, inject_Z. cbn. apply Z.quot_1_r.
Defined.

(** ** The product into a new object *)

Section MakeMatrixMul.
Context `{FL : Floating} {T : Type} {SC : Scalar T}.
Variable NDEBUG : bool.
Implicit Types σ : list (Array4D T).


(** X18.  [MakeMatrixMul(lhs, rhs)], on well-formed operands with the same
    number of planes and the same depth, the width of [lhs] being the
    height of [rhs], and a result that can be allocated: the call returns a
    new object, added to the store, of dimensions (n1, n2, n3 of [lhs], n4
    of [rhs]), whose cell [(b, d, i, j)] holds the sum over [r] of
    [lhs(b,d,i,r) * rhs(b,d,r,j)]; the operands and every other object are
    left as they were.  The result cannot be one of the operands, so this
    holds for [lhs] and [rhs] one object as well. *)
Theorem MakeMatrixMul_correct σ (lhs rhs : nat) (L R O0 : Array4D T) :
  σ !! lhs = Some L -> σ !! rhs = Some R ->
  wf L -> wf R ->
  planes_ L = planes_ R -> depth_ L = depth_ R -> width_ L = height_ R ->
  Array4D_sized (n1 L) (n2 L) (n3 L) (n4 R) = Ok O0 ->
  exists O, MakeMatrixMul NDEBUG lhs rhs σ = Ret (length σ) (σ ++ [O])
    /\ wf O
    /\ n1 O = n1 L /\ n2 O = n2 L /\ n3 O = n3 L /\ n4 O = n4 R
    /\ forall b d i j, in_range O b d i j ->
         read O b d i j = Ok (dot_product L R b d i j).
Proof.
  intros Hl Hr WL WR E1 E2 E3 Hsized.
  pose proof (Array4D_sized_wf (T := T) (n1 L) (n2 L) (n3 L) (n4 R)) as WO.
  rewrite Hsized in WO. cbn [establishes] in WO.
  destruct (Array4D_sized_dims _ _ _ _ _ Hsized) as (D1 & D2 & D3 & D4).
  unfold n1, n2, n3, n4 in *.
  pose proof (lookup_lt_Some _ _ _ Hl) as Ll.
  pose proof (lookup_lt_Some _ _ _ Hr) as Lr.
  destruct (MatrixMul_Ret NDEBUG (σ ++ [O0]) lhs rhs (length σ) L R O0)
    as (v' & Hrun & Hlen & Hv').
  { now apply lookup_app_l_Some. }
  { now apply lookup_app_l_Some. }
  { now apply list_lookup_middle. }
  { lia. }
  { lia. }
  { exact WL. }
  { exact WR. }
  { exact WO. }
  { unfold matmul_shapes. rewrite D1, D2, D3, D4. repeat split; congruence. }
  exists (set_values_ O0 v').
  split; [|split; [now apply wf_set_values_|]].
  - unfold MakeMatrixMul.
    erewrite bind_Ret; [|unfold deref; now rewrite Hl].
    erewrite bind_Ret; [|unfold deref; now rewrite Hr].
    unfold n1, n2, n3, n4.
    rewrite !(bind_lift_Ok _ _ _ tt)
      by (apply assert_true, bool_decide_eq_true; assumption).
    rewrite (bind_lift_Ok _ _ _ O0) by exact Hsized.
    rewrite bind_get.
    erewrite bind_Ret; [|reflexivity].
    erewrite bind_Ret; [|exact Hrun].
    unfold mret, M_ret. f_equal.
    replace (length σ) with (length σ + 0)%nat at 1 by lia.
    now rewrite insert_app_r.
  - cbn [planes_ depth_ height_ width_ set_values_].
    repeat (split; [assumption|]).
    intros b d i j Hin. apply read_set_values_; auto.
Qed.


(** X20.  When the dimension the product sums over is empty (the width of
    [lhs], which is the height of [rhs], is 0), [MatrixMul] returns and
    every cell of the result holds the zero [T(0.f)]: what the result held
    before is overwritten. *)
Theorem MatrixMul_empty_sum σ (lhs rhs result : nat) (L R O : Array4D T) :
  σ !! lhs = Some L -> σ !! rhs = Some R -> σ !! result = Some O ->
  result <> lhs -> result <> rhs ->
  wf L -> wf R -> wf O -> matmul_shapes L R O ->
  width_ L <= 0 ->
  exists O', MatrixMul NDEBUG lhs rhs result σ = Ret tt (<[result := O']> σ)
    /\ same_shape O' O
    /\ forall b d i j, in_range O b d i j ->
         read O' b d i j = Ok (T_of_float float_zero).
Proof.
  intros Hl Hr Ho Hol Hor WL WR WO HS Hw.
  destruct (MatrixMul_Ret NDEBUG σ lhs rhs result L R O Hl Hr Ho Hol Hor WL WR WO HS)
    as (v' & Hrun & Hlen & Hv').
  exists (set_values_ O v'). split; [exact Hrun|]. split; [repeat split|].
  intros b d i j Hin. apply read_set_values_; auto.
  rewrite (Hv' b d i j Hin). unfold dot_product.
  now rewrite seqZ_nil by lia.
Qed.

End MakeMatrixMul.

Lemma MakeMatrixMul_correct_witness :
  exists O, MakeMatrixMul true 0 1 [example_lhs; example_rhs]
            = Ret 2%nat [example_lhs; example_rhs; O]
    /\ read O 0 0 0 0 = Ok 58 /\ read O 0 0 1 1 = Ok 154.
Proof.
  destruct (MakeMatrixMul_correct true [example_lhs; example_rhs] 0 1
              example_lhs example_rhs (mkArray4D 1 1 2 2 [0; 0; 0; 0]))
    as (O & Hrun & _ & _ & _ & _ & _ & Hr).
  - reflexivity.
  - reflexivity.
  - unfold wf, invariant, INT64_MAX. cbn. lia.
  - unfold wf, invariant, INT64_MAX. cbn. lia.
  - reflexivity.
  - reflexivity.
  - reflexivity.
  - reflexivity.
  - exists O. split; [exact Hrun|].
    assert (HO : O = mkArray4D 1 1 2 2 [58; 64; 139; 154]).
    { vm_compute in Hrun. now injection Hrun. }
    subst O. split; reflexivity.
Defined.


Lemma MatrixMul_empty_sum_witness :
  exists O', MatrixMul false 0 1 2
               [mkArray4D 1 1 2 0 []; mkArray4D 1 1 0 2 []; example_result 9 9 9 9]
             = Ret tt [mkArray4D 1 1 2 0 []; mkArray4D 1 1 0 2 []; O']
    /\ read O' 0 0 1 1 = Ok 0.
Proof.
  destruct (MatrixMul_empty_sum false
              [mkArray4D 1 1 2 0 []; mkArray4D 1 1 0 2 []; example_result 9 9 9 9]
              0 1 2 (mkArray4D 1 1 2 0 []) (mkArray4D 1 1 0 2 []) (example_result 9 9 9 9))
    as (O' & Hrun & _ & Hr).
  - reflexivity.
  - reflexivity.
  - reflexivity.
  - lia.
  - lia.
  - unfold wf, invariant, INT64_MAX. cbn. lia.
  - unfold wf, invariant, INT64_MAX. cbn. lia.
  - unfold wf, invariant, INT64_MAX. cbn. lia.
  - unfold matmul_shapes. cbn. lia.
  - cbn. lia.
  - exists O'. split; [exact Hrun|]. apply Hr. unfold in_range. cbn. lia.
Defined.

(** ** Comparison as a relation *)

Section EqualityLaws.
Context `{FL : Floating} {T : Type} {SC : Scalar T}.
Implicit Types a b : Array4D T.

Local Abbreviation close x y := (T_lt_float (T_abs (T_sub x y)) float_tolerance).

(** [operator==] never stops and has no undefined case on containers that
    satisfy the invariant. *)
Lemma operator_eq_total a b :
  invariant a -> invariant b -> exists res, operator_eq a b = Ok res.
Proof.
  intros Ha Hb. destruct (decide (same_shape a b)) as [Hs|Hs].
  - destruct (operator_eq_elements a b Ha Hb Hs) as (res & Hres & _). now exists res.
  - exists false. now apply operator_eq_shape.
Qed.

Lemma operator_eq_self a :
  invariant a ->
  exists res, operator_eq a a = Ok res
    /\ (res = true <-> forall x, x ∈ values_ a -> close x x = true).
Proof.
  intros Ha.
  destruct (operator_eq_elements a a Ha Ha) as (res & Hres & Hiff); [repeat split|].
  exists res. split; [exact Hres|]. rewrite Hiff. split.
  - intros H x Hx. apply list_elem_of_lookup_1 in Hx as [i Hi]. now apply (H i).
  - intros H i x y Hi Hy. assert (y = x) by congruence. subst y. apply H.
    now apply list_elem_of_lookup_2 in Hi.
Qed.

Lemma operator_eq_sym a b :
  invariant a -> invariant b ->
  (forall x y, x ∈ values_ a -> y ∈ values_ b -> close x y = close y x) ->
  operator_eq a b = operator_eq b a.
Proof.
  intros Ha Hb Hsym. destruct (decide (same_shape a b)) as [Hs|Hs].
  - assert (Hs' : same_shape b a) by (destruct Hs as (? & ? & ? & ?); repeat split; auto).
    destruct (operator_eq_elements a b Ha Hb Hs) as (res & Hres & Hiff).
    destruct (operator_eq_elements b a Hb Ha Hs') as (res' & Hres' & Hiff').
    rewrite Hres, Hres'. f_equal.
    apply eq_true_iff_eq. rewrite Hiff, Hiff'. split.
    + intros H i y x Hy Hx. rewrite <- Hsym; eauto using list_elem_of_lookup_2.
    + intros H i x y Hx Hy. rewrite Hsym; eauto using list_elem_of_lookup_2.
  - rewrite operator_eq_shape by assumption.
    rewrite operator_eq_shape; [reflexivity|].
    intros (? & ? & ? & ?). apply Hs. repeat split; auto.
Qed.
End EqualityLaws.

(** X21.  [operator==] as a relation, for any element type.  A container
    that satisfies the invariant is compared with itself by testing each
    element against itself: the result is true exactly when every element
    [x] passes [std::abs(x - x) < 0.000001f], so a container that holds an
    element failing that test is not equal to itself.  The answer does not
    depend on the order of the operands when the element test does not, on
    the elements the two containers hold. *)
Theorem operator_eq_self_and_swapped `{FL : Floating} {T : Type} {SC : Scalar T}
    (a b : Array4D T) :
  invariant a -> invariant b ->
  (exists res, operator_eq a a = Ok res
     /\ (res = true <->
           forall x, x ∈ flatten a ->
             T_lt_float (T_abs (T_sub x x)) float_tolerance = true))
  /\ ((forall x y, x ∈ flatten a -> y ∈ flatten b ->
         T_lt_float (T_abs (T_sub x y)) float_tolerance
         = T_lt_float (T_abs (T_sub y x)) float_tolerance) ->
      operator_eq a b = operator_eq b a).
Proof.
  intros Ha Hb. split.
  - now apply operator_eq_self.
  - now apply operator_eq_sym.
Qed.

Lemma operator_eq_self_and_swapped_witness :
  operator_eq (mkArray4D 1 1 1 2 [(1 # 2)%Q; (3 # 4)%Q])
              (mkArray4D 1 1 1 2 [(1 # 2)%Q; (3 # 4)%Q]) = Ok true
  /\ operator_eq (mkArray4D 1 1 1 2 [(1 # 2)%Q; (3 # 4)%Q])
                 (mkArray4D 1 1 1 2 [(1 # 2)%Q; 3%Q])
     = operator_eq (mkArray4D 1 1 1 2 [(1 # 2)%Q; 3%Q])
                   (mkArray4D 1 1 1 2 [(1 # 2)%Q; (3 # 4)%Q]).
Proof.
  destruct (operator_eq_self_and_swapped
              (mkArray4D 1 1 1 2 [(1 # 2)%Q; (3 # 4)%Q])
              (mkArray4D 1 1 1 2 [(1 # 2)%Q; 3%Q])) as [Hself Hswap].
  - reflexivity.
  - reflexivity.
  - split.
    + destruct Hself as (res & Hres & Hiff). rewrite Hres. f_equal. apply Hiff.
      intros x Hx. unfold flatten in Hx. cbn [values_] in Hx.
      repeat (apply elem_of_cons in Hx as [->|Hx]; [reflexivity|]).
      now apply elem_of_nil in Hx.
    + apply Hswap. intros x y Hx Hy. unfold flatten in Hx, Hy. cbn [values_] in Hx, Hy.
      repeat (apply elem_of_cons in Hx as [->|Hx];
              [repeat (apply elem_of_cons in Hy as [->|Hy]; [reflexivity|]);
               now apply elem_of_nil in Hy|]).
      now apply elem_of_nil in Hx.
Defined.

Lemma close_Z (x y : Z) :
  T_lt_float (T_abs (T_sub x y)) float_tolerance = true <-> x = y.
Proof.
  cbn. rewrite Qltb_lt. unfold Qlt, inject_Z. cbn [Qnum Qden]. lia.
Qed.

(** X22.  With 64-bit integer elements no difference of which overflows
    (each [x - y] of two elements at the same linear index lies between
    [-INT64_MAX] and [INT64_MAX], so that the subtraction and [std::abs]
    have their exact results), the tolerance lets nothing through: on
    containers that satisfy the invariant, [operator==] returns true exactly
    when the two containers have the same dimensions and the same vector. *)
Theorem operator_eq_integer (a b : Array4D Z) :
  invariant a -> invariant b ->
  (forall i x y, flatten a !! i = Some x -> flatten b !! i = Some y ->
     in_int64 x /\ in_int64 y /\ - INT64_MAX <= x - y <= INT64_MAX) ->
  exists res, operator_eq a b = Ok res /\ (res = true <-> a = b).
Proof.
  intros Ha Hb _. destruct (decide (same_shape a b)) as [Hs|Hs].
  - destruct (operator_eq_elements a b Ha Hb Hs) as (res & Hres & Hiff).
    exists res. split; [exact Hres|]. rewrite Hiff.
    destruct Hs as (E1 & E2 & E3 & E4).
    assert (El : length (values_ a) = length (values_ b)).
    { apply Nat2Z.inj. unfold invariant in *. rewrite Ha, Hb, E1, E2, E3, E4. reflexivity. }
    split.
    + intros H. destruct a as [p d h w v], b as [p' d' h' w' v'].
      cbn [planes_ depth_ height_ width_ values_] in *. subst. f_equal.
      apply list_eq. intros i.
      destruct (decide (i < length v)%nat) as [Hi|Hi].
      * destruct (lookup_lt_is_Some_2 v i) as [x Hx]; [lia|].
        destruct (lookup_lt_is_Some_2 v' i) as [y Hy]; [lia|].
        rewrite Hx, Hy. f_equal. apply close_Z. now apply (H i).
      * rewrite !lookup_ge_None_2 by lia. reflexivity.
    + intros <- i x y Hx Hy. apply close_Z. congruence.
  - exists false. split; [now apply operator_eq_shape|].
    split; [discriminate|]. intros <-. exfalso. apply Hs. repeat split.
Qed.

Lemma operator_eq_integer_witness :
  operator_eq example_lhs example_lhs = Ok true
  /\ operator_eq example_lhs (mkArray4D 1 1 2 3 [1; 2; 3; 4; 5; 7]) = Ok false.
Proof.
  assert (Hsmall : forall b : Array4D Z,
            Forall (fun y => 0 <= y <= 10) (values_ b) ->
            forall i x y, flatten example_lhs !! i = Some x -> flatten b !! i = Some y ->
              in_int64 x /\ in_int64 y /\ - INT64_MAX <= x - y <= INT64_MAX).
  { intros b Hb i x y Hx Hy.
    assert (0 <= y <= 10).
    { exact (Forall_lookup_1 _ _ _ _ Hb Hy). }
    assert (0 <= x <= 10).
    { unfold flatten in Hx. cbn [values_ example_lhs] in Hx.
      do 6 (destruct i as [|i]; [injection Hx as <-; lia|]). discriminate. }
    unfold in_int64, INT64_MIN, INT64_MAX. lia. }
  split.
  - destruct (operator_eq_integer example_lhs example_lhs) as (res & Hres & Hiff).
    + reflexivity.
    + reflexivity.
    + apply Hsmall. cbn [values_ example_lhs]. repeat constructor; lia.
    + rewrite Hres. f_equal. now apply Hiff.
  - destruct (operator_eq_integer example_lhs (mkArray4D 1 1 2 3 [1; 2; 3; 4; 5; 7]))
      as (res & Hres & Hiff).
    + reflexivity.
    + reflexivity.
    + apply Hsmall. cbn [values_]. repeat constructor; lia.
    + rewrite Hres. f_equal. destruct res; [|reflexivity].
      destruct Hiff as [Hiff _]. specialize (Hiff eq_refl). discriminate.
Defined.

(** ** A nested literal and its elements in reading order *)

Lemma length_concat_uniform {A} (ls : list (list A)) (n : nat) :
  Forall (fun l => length l = n) ls -> length (concat ls) = (length ls * n)%nat.
Proof.
  induction 1 as [|l ls Hl _ IH]; [reflexivity|].
  cbn [concat length]. rewrite length_app, Hl, IH. lia.
Qed.

Lemma lookup_concat_uniform {A} (ls : list (list A)) (n i j : nat) :
  Forall (fun l => length l = n) ls -> (j < n)%nat ->
  concat ls !! (i * n + j)%nat = ls !! i ≫= fun l => l !! j.
Proof.
  intros Hls Hj. revert i. induction Hls as [|l ls Hl _ IH]; intros i; [reflexivity|].
  cbn [concat]. destruct i as [|i].
  - rewrite lookup_app_l by lia. reflexivity.
  - rewrite lookup_app_r by lia. rewrite Hl.
    replace (S i * n + j - n)%nat with (i * n + j)%nat by lia.
    rewrite IH. reflexivity.
Qed.

Section Reading.
Context {T : Type}.
Implicit Types values : list (list (list (list T))).

Lemma rectangular_Forall (nd nh nw : nat) values :
  rectangular (Z.of_nat nd) (Z.of_nat nh) (Z.of_nat nw) values = true ->
  Forall (fun vp => length vp = nd) values
  /\ Forall (fun vd => length vd = nh) (concat values)
  /\ Forall (fun vh => length vh = nw) (concat (concat values)).
Proof.
  intros Hrect. pose proof (rectangular_lengths _ _ _ _ Hrect) as H.
  unfold len in H. split; [|split]; apply List.Forall_forall.
  - intros vp Hvp. destruct (H vp Hvp) as [E _]. lia.
  - intros vd Hvd. apply in_concat in Hvd as (vp & Hvp & Hvd).
    destruct (H vp Hvp) as [_ H']. destruct (H' vd Hvd) as [E _]. lia.
  - intros vh Hvh. apply in_concat in Hvh as (vd & Hvd & Hvh).
    apply in_concat in Hvd as (vp & Hvp & Hvd).
    destruct (H vp Hvp) as [_ H']. destruct (H' vd Hvd) as [_ H''].
    specialize (H'' vh Hvh). lia.
Qed.

(** The element at a coordinate of a rectangular literal has as many
    elements before it in reading order as its linear index says. *)
Lemma lookup_concat3 (nd nh nw p d h w : nat) values :
  rectangular (Z.of_nat nd) (Z.of_nat nh) (Z.of_nat nw) values = true ->
  (d < nd)%nat -> (h < nh)%nat -> (w < nw)%nat ->
  concat (concat (concat values)) !! (((p * nd + d) * nh + h) * nw + w)%nat
  = nested_at values p d h w.
Proof.
  intros Hrect Hd Hh Hw.
  destruct (rectangular_Forall _ _ _ _ Hrect) as (F1 & F2 & F3).
  rewrite (lookup_concat_uniform _ nw) by assumption.
  rewrite (lookup_concat_uniform _ nh) by assumption.
  rewrite (lookup_concat_uniform _ nd) by assumption.
  unfold nested_at. destruct (values !! p) as [vp|]; [|reflexivity].
  cbn [mbind option_bind]. destruct (vp !! d) as [vd|]; [|reflexivity].
  cbn [mbind option_bind]. now destruct (vd !! h).
Qed.

Lemma length_concat3 (nd nh nw : nat) values :
  rectangular (Z.of_nat nd) (Z.of_nat nh) (Z.of_nat nw) values = true ->
  length (concat (concat (concat values))) = (length values * nd * nh * nw)%nat.
Proof.
  intros Hrect. destruct (rectangular_Forall _ _ _ _ Hrect) as (F1 & F2 & F3).
  rewrite (length_concat_uniform _ nw) by assumption.
  rewrite (length_concat_uniform _ nh) by assumption.
  rewrite (length_concat_uniform _ nd) by assumption. reflexivity.
Qed.
End Reading.

(** X23.  A rectangular nested literal is stored in reading order: when the
    constructor returns, the vector of the container is the concatenation
    of the rows of the literal, plane after plane and depth after depth, and
    the container is the one the constructor from a vector builds from the
    same dimensions and that concatenation. *)
Theorem Array4D_nested_flatten `{FL : Floating} {T : Type} {SC : Scalar T}
    (NDEBUG : bool) (values : list (list (list (list T)))) (a : Array4D T) :
  Array4D_nested NDEBUG values = Ok a ->
  rectangular (n2 a) (n3 a) (n4 a) values = true ->
  flatten a = concat (concat (concat values))
  /\ Array4D_of_vector (n1 a) (n2 a) (n3 a) (n4 a) (concat (concat (concat values)))
     = Ok a.
Proof.
  intros Ha Hrect. unfold Array4D_nested in Ha.
  destruct values as [|[|[|r0 d0] p0] rest]; try discriminate.
  unfold construct in Ha.
  set (values' := ((r0 :: d0) :: p0) :: rest) in *.
  pose proof (Array4D_sized_wf (T := T)
                (len values') (len ((r0 :: d0) :: p0)) (len (r0 :: d0)) (len r0)) as W0.
  destruct (Array4D_sized _ _ _ _) as [a0| |] eqn:E0; try discriminate.
  cbn [mbind outcome_bind] in Ha. cbn [establishes] in W0.
  pose proof E0 as Hsized.
  apply Array4D_sized_dims in E0 as (D1 & D2 & D3 & D4).
  pose proof (nested_assign_placed NDEBUG values' a0 W0) as Hplaced.
  destruct (nested_assign NDEBUG values' a0) as [[] s'| |]; try discriminate.
  injection Ha as <-. destruct Hplaced as (v & -> & Hlen & Hv).
  unfold n1, n2, n3, n4, flatten in *.
  cbn [planes_ depth_ height_ width_ values_ set_values_] in *.
  unfold len in D1, D2, D3, D4.
  set (np := length values') in *. set (nd := length ((r0 :: d0) :: p0)) in *.
  set (nh := length (r0 :: d0)) in *. set (nw := length r0) in *.
  rewrite D2, D3, D4 in Hrect.
  pose proof (length_concat3 nd nh nw values' Hrect) as Hlc. fold np in Hlc.
  assert (HN : length (values_ a0) = (np * nd * nh * nw)%nat).
  { apply Nat2Z.inj. rewrite (proj1 W0), D1, D2, D3, D4. lia. }
  assert (Ev : v = concat (concat (concat values'))).
  { apply list_eq. intros i.
    destruct (decide (i < length (values_ a0))%nat) as [Hi|Hi].
    - destruct (offset_surj a0 (Z.of_nat i)) as (P & D & H & W & Hin & Eo);
        [lia..|rewrite <- (proj1 W0); lia|].
      pose proof Hin as (Hp & Hd & Hh & Hw).
      rewrite D1 in Hp. rewrite D2 in Hd. rewrite D3 in Hh. rewrite D4 in Hw.
      assert (Ei : i = (((Z.to_nat P * nd + Z.to_nat D) * nh + Z.to_nat H) * nw
                        + Z.to_nat W)%nat).
      { apply Nat2Z.inj. rewrite <- Eo, offset_horner, D2, D3, D4.
        repeat (rewrite Nat2Z.inj_add || rewrite Nat2Z.inj_mul).
        rewrite !Z2Nat.id by lia. reflexivity. }
      destruct (lookup_lt_is_Some_2 (concat (concat (concat values'))) i) as [x Hx];
        [lia|].
      rewrite Hx. rewrite Ei in Hx.
      rewrite (lookup_concat3 nd nh nw) in Hx by (assumption || lia).
      destruct (Hv _ _ _ _ x Hx) as [_ Hvx].
      rewrite !Z2Nat.id in Hvx by lia. rewrite Eo, Nat2Z.id in Hvx. exact Hvx.
    - rewrite !lookup_ge_None_2 by lia. reflexivity. }
  split; [exact Ev|].
  unfold Array4D_of_vector. rewrite D1, D2, D3, D4.
  unfold Array4D_sized, len in Hsized. fold np nd nh nw in Hsized.
  destruct (product4 (Z.of_nat np) (Z.of_nat nd) (Z.of_nat nh) (Z.of_nat nw))
    as [n| |] eqn:En; try discriminate.
  cbn [mbind outcome_bind] in *.
  apply product4_Ok in En as [En _].
  rewrite CHECK_EQ_Ok by lia. cbn [mbind outcome_bind].
  unfold set_values_. rewrite D1, D2, D3, D4. now rewrite Ev.
Qed.

Lemma Array4D_nested_flatten_witness :
  exists a, Array4D_nested false [[[[1; 2]; [3; 4]]; [[5; 6]; [7; 8]]]] = Ok a
    /\ flatten a = [1; 2; 3; 4; 5; 6; 7; 8]
    /\ Array4D_of_vector 1 2 2 2 [1; 2; 3; 4; 5; 6; 7; 8] = Ok a.
Proof.
  exists (mkArray4D 1 2 2 2 [1; 2; 3; 4; 5; 6; 7; 8]).
  split; [reflexivity|].
  apply (Array4D_nested_flatten false [[[[1; 2]; [3; 4]]; [[5; 6]; [7; 8]]]]
           (mkArray4D 1 2 2 2 [1; 2; 3; 4; 5; 6; 7; 8])).
  - reflexivity.
  - reflexivity.
Defined.

(** ** Assigning all the values at once *)

Section Assign.
Context `{FL : Floating} {T : Type} {SC : Scalar T}.
Implicit Types a : Array4D T.

(** X24.  [SetValues(container)], for a container that is no part of the
    object, stops on its [CHECK_EQ] (ShapeMismatch), the object untouched,
    when the container has not as many elements as the vector.  Otherwise
    it returns, the dimensions are unchanged, the vector is the sequence of
    the container, and on a well-formed object the cell at a coordinate in
    range reads the element of the container at the linear index of the
    coordinate. *)
Theorem SetValues_read (container : list T) a :
  (len container <> num_elements a ->
     SetValues container a = Halt ShapeMismatch a)
  /\ (len container = num_elements a ->
      exists a', SetValues container a = Ret tt a'
        /\ same_shape a' a /\ flatten a' = container
        /\ (wf a -> forall p d h w, in_range a p d h w ->
              read a' p d h w
              = Ok (nth (Z.to_nat (offset a p d h w)) container T_default))).
Proof.
  unfold len, num_elements. split.
  - intros Hne. unfold SetValues. unfold num_elements.
    now rewrite CHECK_EQ_Stop by assumption.
  - intros E. exists (set_values_ a container).
    split; [unfold SetValues, num_elements; now rewrite CHECK_EQ_Ok by assumption|].
    split; [repeat split|]. split; [reflexivity|].
    intros Hwf p d h w Hin.
    pose proof (offset_bounds a _ _ _ _ (proj1 Hwf) Hin) as B.
    apply read_set_values_; [assumption|lia|assumption|].
    destruct (lookup_lt_is_Some_2 container (Z.to_nat (offset a p d h w))) as [x Hx];
      [lia|].
    rewrite Hx. f_equal. symmetry. now apply nth_lookup_Some.
Qed.

End Assign.

Lemma SetValues_read_witness :
  SetValues [1; 2; 3] example_lhs = Halt ShapeMismatch example_lhs
  /\ exists a', SetValues [10; 20; 30; 40; 50; 60] example_lhs = Ret tt a'
       /\ read a' 0 0 1 0 = Ok 40.
Proof.
  split.
  - apply (SetValues_read [1; 2; 3] example_lhs). unfold len, num_elements. cbn. lia.
  - destruct (SetValues_read [10; 20; 30; 40; 50; 60] example_lhs) as (_ & H).
    destruct H as (a' & Hrun & _ & _ & Hr); [reflexivity|].
    exists a'. split; [exact Hrun|]. rewrite Hr.
    + reflexivity.
    + unfold wf, invariant, INT64_MAX. cbn. lia.
    + unfold in_range. cbn. lia.
Defined.
